(** * ASHA search method: a shallow embedding of [asha.py]

    The development follows
    [examples/custom_search_method/asha_search_method/asha.py]:

    - [PyFloat] models the IEEE-754 binary64 arithmetic used by
      [ASHASearchMethodState._init_rungs] on top of the standard library's
      [SpecFloat];
    - [TrialMetric], [Rung] and [ASHASearchMethodState] are records with the
      fields of the Python classes;
    - methods that mutate [self] are functions in a state-and-exception monad
      [M S A := S -> Outcome A * S]; a raised exception keeps the state as it
      was mutated up to the [raise];
    - [uuid.uuid4()] and the user's [search_space()] are an oracle indexed by
      the number of draws made so far.

    [progress] reads the state only and is modelled as a function of it;
    [save_method_state] and [load_method_state], which pickle the state to
    a file, are outside the model. *)

From Stdlib Require Import ZArith QArith Lia Lqa String.
From Stdlib Require Import Floats.SpecFloat.
From stdpp Require Import gmap list.
From Equations Require Import Equations.
Close Scope Q_scope.

(** ** Python exceptions and outcomes *)

Inductive PyExn :=
  | KeyError | IndexError | AssertionError
  | ZeroDivisionError | OverflowError | ValueError.

(** [OutOfFuel] is not a Python outcome: it marks a recursion that was cut
    by the fuel of [promote_async_fuel]. *)
Inductive Outcome (A : Type) :=
  | Ok (a : A)
  | Raise (e : PyExn)
  | OutOfFuel.
Arguments Ok {A} a.
Arguments Raise {A} e.
Arguments OutOfFuel {A}.

Definition M (S A : Type) : Type := S -> Outcome A * S.

Definition ret {S A} (a : A) : M S A := fun s => (Ok a, s).
Definition raise {S A} (e : PyExn) : M S A := fun s => (Raise e, s).
Definition out_of_fuel {S A} : M S A := fun s => (OutOfFuel, s).
Definition bind {S A B} (m : M S A) (f : A -> M S B) : M S B :=
  fun s =>
    match m s with
    | (Ok a, s') => f a s'
    | (Raise e, s') => (Raise e, s')
    | (OutOfFuel, s') => (OutOfFuel, s')
    end.
Definition get {S} : M S S := fun s => (Ok s, s).
Definition modify {S} (f : S -> S) : M S unit := fun s => (Ok tt, f s).
Definition from_option {S A} (e : PyExn) (o : option A) : M S A :=
  match o with
  | Some a => ret a
  | None => raise e
  end.

Declare Scope py_scope.
Delimit Scope py_scope with py.
Notation "x <- m ;; k" := (bind m (fun x => k))
  (at level 100, m at next level, right associativity) : py_scope.
Notation "m ;; k" := (bind m (fun _ => k))
  (at level 100, right associativity) : py_scope.
Open Scope py_scope.

(** ** Python floats (IEEE-754 binary64) *)

Module PyFloat.

Definition prec : Z := 53.
Definition emax : Z := 1024.

Definition float := spec_float.

(** [float(z)] for an [int]: rounds to nearest, ties to even, and raises
    [OverflowError] when the rounded value does not fit. *)
Definition of_int (z : Z) : Outcome float :=
  match binary_normalize prec emax z 0 false with
  | S754_infinity _ => Raise OverflowError
  | f => Ok f
  end.

Definition one : float := binary_normalize prec emax 1 0 false.

(** [pow(x, y)] for a float [x] and a float [y] whose value is the natural
    number [k]; the result of the C library's [pow] is taken to be the
    exact power rounded to nearest.  [OverflowError] when the result is
    out of range. *)
Definition pow (x : float) (k : N) : Outcome float :=
  match k with
  | N0 => Ok one
  | Npos p =>
      match x with
      | S754_finite s m e =>
          match binary_round prec emax (s && N.odd k)
                  (Pos.pow m p) (e * Zpos p) with
          | S754_infinity _ => Raise OverflowError
          | f => Ok f
          end
      | S754_zero s => Ok (S754_zero (s && N.odd k))
      | S754_infinity s => Ok (S754_infinity (s && N.odd k))
      | S754_nan => Ok S754_nan
      end
  end.

(** [x / y] on floats. *)
Definition truediv (x y : float) : Outcome float :=
  match y with
  | S754_zero _ => Raise ZeroDivisionError
  | _ => Ok (SFdiv prec emax x y)
  end.

(** [int(x)]: truncation towards zero. *)
Definition to_int (x : float) : Outcome Z :=
  match x with
  | S754_zero _ => Ok 0%Z
  | S754_finite s m e =>
      let magnitude :=
        if (0 <=? e)%Z then (Zpos m * 2 ^ e)%Z
        else (Zpos m / 2 ^ (- e))%Z in
      Ok (cond_Zopp s magnitude)
  | S754_infinity _ => Raise OverflowError
  | S754_nan => Raise ValueError
  end.

End PyFloat.

(** ** Data model *)

(** A [uuid.UUID] is its 128-bit integer value. *)
Definition UUID : Type := N.
Bind Scope N_scope with UUID.

(** Validation metrics are Python floats.  The handlers only compare them
    ([<=]) and negate them, both exact on finite doubles, so a metric is
    the rational value of a finite double; non-finite metrics are outside
    the model. *)
Definition float_max : Q :=
  inject_Z ((2 ^ 53 - 1) * 2 ^ 971).

Module TrialMetric.
Record t := {
  request_id : UUID;
  metric : Q;
  promoted : bool
}.
End TrialMetric.
Abbreviation TrialMetric := TrialMetric.t.

Record Rung := {
  units_needed : Z;
  idx : Z;
  metrics : list TrialMetric;
  outstanding_trials : Z
}.

Definition set_promoted (b : bool) (tm : TrialMetric) : TrialMetric :=
  {| TrialMetric.request_id := TrialMetric.request_id tm;
     TrialMetric.metric := TrialMetric.metric tm;
     TrialMetric.promoted := b |}.

Definition set_metrics (f : list TrialMetric -> list TrialMetric)
    (r : Rung) : Rung :=
  {| units_needed := units_needed r; idx := idx r;
     metrics := f (metrics r);
     outstanding_trials := outstanding_trials r |}.

Definition set_outstanding_trials (f : Z -> Z) (r : Rung) : Rung :=
  {| units_needed := units_needed r; idx := idx r;
     metrics := metrics r;
     outstanding_trials := f (outstanding_trials r) |}.

(** [Rung(units_needed, idx)] with the dataclass defaults. *)
Definition new_rung (units idx : Z) : Rung :=
  {| units_needed := units; idx := idx; metrics := [];
     outstanding_trials := 0 |}.

(** ** Python lists *)

(** [l.insert(i, x)] for [0 <= i]: beyond the end it appends. *)
Definition list_insert_at {A} (i : nat) (x : A) (l : list A) : list A :=
  take i l ++ x :: drop i l.

(** The position [l[i]] denotes for a Python [int] index, negative indices
    counting from the end; [None] is [IndexError]. *)
Definition py_index (len : nat) (i : Z) : option nat :=
  if (0 <=? i)%Z then
    (if (i <? Z.of_nat len)%Z then Some (Z.to_nat i) else None)
  else
    (if (- Z.of_nat len <=? i)%Z then Some (Z.to_nat (Z.of_nat len + i))
     else None).

(** ** Rung methods *)

(** The [while i < j] loop of [Rung._search_metric_index]. *)
Equations? search_loop (ms : list TrialMetric) (x : Q) (i j : nat)
    : Outcome nat by wf (j - i) lt :=
  search_loop ms x i j with decide (i < j) := {
    | right _ => Ok i
    | left _ with ms !! Nat.shiftr (i + j) 1 := {
        | None => Raise IndexError
        | Some tm =>
            if Qle_bool (TrialMetric.metric tm) x
            then search_loop ms x (Nat.shiftr (i + j) 1 + 1) j
            else search_loop ms x i (Nat.shiftr (i + j) 1)
      }
  }.
Proof.
  all: rewrite Nat.div2_div;
    assert (i <= (i + j) / 2) by (apply Nat.div_le_lower_bound; lia);
    assert ((i + j) / 2 < j) by (apply Nat.Div0.div_lt_upper_bound; lia);
    lia.
Qed.

Definition _search_metric_index (x : Q) : M Rung nat :=
  fun self => (search_loop (metrics self) x 0 (length (metrics self)), self).

Definition promotions_async (request_id : UUID) (metric : Q) (divisor : Z)
    : M Rung (list UUID) :=
  self <- get ;;
  if (divisor =? 0)%Z then raise ZeroDivisionError else
  let old_num_promote := (Z.of_nat (length (metrics self)) / divisor)%Z in
  let num_promote := ((Z.of_nat (length (metrics self)) + 1) / divisor)%Z in
  index <- _search_metric_index metric ;;
  let promote_now := (Z.of_nat index <? num_promote)%Z in
  let trial_metric :=
    {| TrialMetric.request_id := request_id;
       TrialMetric.metric := metric;
       TrialMetric.promoted := promote_now |} in
  modify (set_metrics (list_insert_at index trial_metric)) ;;
  if promote_now then ret [request_id] else
  if negb (num_promote =? old_num_promote)%Z then
    self <- get ;;
    k <- from_option IndexError
          (py_index (length (metrics self)) old_num_promote) ;;
    entry <- from_option IndexError (metrics self !! k) ;;
    if negb (TrialMetric.promoted entry) then
      modify (set_metrics (alter (set_promoted true) k)) ;;
      ret [TrialMetric.request_id entry]
    else ret []
  else ret [].

(** ** Search state *)

Definition HParams : Type := list (string * Z).

Inductive Operation :=
  | Create (request_id : UUID) (hparams : HParams)
  | ValidateAfter (request_id : UUID) (length : Z)
  | Close (request_id : UUID)
  | Shutdown.

(** Modelled from the spec: [searcher.ExitedReason] is imported from the
    [determined] package and is not part of this file; the spec and the
    comment above [on_trial_exited_early] list its members. *)
Inductive ExitedReason := ERRORED | USER_CANCELLED | INVALID_HP.

(** The Python values a caller can pass where the signature says [Any] or
    where the annotation is not enforced at run time. *)
Inductive PyValue :=
  | VFloat (x : Q)
  | VInt (z : Z)
  | VBool (b : bool)
  | VStr (s : string)
  | VNone
  | VExitedReason (r : ExitedReason).

(** [isinstance(v, float)] *)
Definition is_float (v : PyValue) : bool :=
  match v with
  | VFloat _ => true
  | _ => false
  end.

(** [v == searcher.ExitedReason.INVALID_HP] *)
Definition is_INVALID_HP (v : PyValue) : bool :=
  match v with
  | VExitedReason INVALID_HP => true
  | _ => false
  end.

(** The attributes of [ASHASearchMethodState]; [draws] counts the calls made
    so far to [uuid.uuid4()] / [search_space()]. *)
Record ASHASearchMethodState := {
  max_length : Z;
  max_trials : Z;
  num_rungs : Z;
  divisor : Z;
  max_concurrent_trials : Z;
  is_smaller_better : bool;
  rungs : list Rung;
  trial_rungs : gmap UUID nat;
  pending_trials : Z;
  completed_trials : Z;
  invalid_trials : Z;
  early_exit_trials : gset UUID;
  closed_trials : gset UUID;
  draws : nat
}.

Definition set_rungs (f : list Rung -> list Rung)
    (s : ASHASearchMethodState) : ASHASearchMethodState :=
  {| max_length := max_length s; max_trials := max_trials s;
     num_rungs := num_rungs s; divisor := divisor s;
     max_concurrent_trials := max_concurrent_trials s;
     is_smaller_better := is_smaller_better s;
     rungs := f (rungs s); trial_rungs := trial_rungs s;
     pending_trials := pending_trials s;
     completed_trials := completed_trials s;
     invalid_trials := invalid_trials s;
     early_exit_trials := early_exit_trials s;
     closed_trials := closed_trials s; draws := draws s |}.

Definition set_trial_rungs (f : gmap UUID nat -> gmap UUID nat)
    (s : ASHASearchMethodState) : ASHASearchMethodState :=
  {| max_length := max_length s; max_trials := max_trials s;
     num_rungs := num_rungs s; divisor := divisor s;
     max_concurrent_trials := max_concurrent_trials s;
     is_smaller_better := is_smaller_better s;
     rungs := rungs s; trial_rungs := f (trial_rungs s);
     pending_trials := pending_trials s;
     completed_trials := completed_trials s;
     invalid_trials := invalid_trials s;
     early_exit_trials := early_exit_trials s;
     closed_trials := closed_trials s; draws := draws s |}.

Definition set_pending_trials (f : Z -> Z)
    (s : ASHASearchMethodState) : ASHASearchMethodState :=
  {| max_length := max_length s; max_trials := max_trials s;
     num_rungs := num_rungs s; divisor := divisor s;
     max_concurrent_trials := max_concurrent_trials s;
     is_smaller_better := is_smaller_better s;
     rungs := rungs s; trial_rungs := trial_rungs s;
     pending_trials := f (pending_trials s);
     completed_trials := completed_trials s;
     invalid_trials := invalid_trials s;
     early_exit_trials := early_exit_trials s;
     closed_trials := closed_trials s; draws := draws s |}.

Definition set_completed_trials (f : Z -> Z)
    (s : ASHASearchMethodState) : ASHASearchMethodState :=
  {| max_length := max_length s; max_trials := max_trials s;
     num_rungs := num_rungs s; divisor := divisor s;
     max_concurrent_trials := max_concurrent_trials s;
     is_smaller_better := is_smaller_better s;
     rungs := rungs s; trial_rungs := trial_rungs s;
     pending_trials := pending_trials s;
     completed_trials := f (completed_trials s);
     invalid_trials := invalid_trials s;
     early_exit_trials := early_exit_trials s;
     closed_trials := closed_trials s; draws := draws s |}.

Definition set_invalid_trials (f : Z -> Z)
    (s : ASHASearchMethodState) : ASHASearchMethodState :=
  {| max_length := max_length s; max_trials := max_trials s;
     num_rungs := num_rungs s; divisor := divisor s;
     max_concurrent_trials := max_concurrent_trials s;
     is_smaller_better := is_smaller_better s;
     rungs := rungs s; trial_rungs := trial_rungs s;
     pending_trials := pending_trials s;
     completed_trials := completed_trials s;
     invalid_trials := f (invalid_trials s);
     early_exit_trials := early_exit_trials s;
     closed_trials := closed_trials s; draws := draws s |}.

Definition set_early_exit_trials (f : gset UUID -> gset UUID)
    (s : ASHASearchMethodState) : ASHASearchMethodState :=
  {| max_length := max_length s; max_trials := max_trials s;
     num_rungs := num_rungs s; divisor := divisor s;
     max_concurrent_trials := max_concurrent_trials s;
     is_smaller_better := is_smaller_better s;
     rungs := rungs s; trial_rungs := trial_rungs s;
     pending_trials := pending_trials s;
     completed_trials := completed_trials s;
     invalid_trials := invalid_trials s;
     early_exit_trials := f (early_exit_trials s);
     closed_trials := closed_trials s; draws := draws s |}.

Definition set_closed_trials (f : gset UUID -> gset UUID)
    (s : ASHASearchMethodState) : ASHASearchMethodState :=
  {| max_length := max_length s; max_trials := max_trials s;
     num_rungs := num_rungs s; divisor := divisor s;
     max_concurrent_trials := max_concurrent_trials s;
     is_smaller_better := is_smaller_better s;
     rungs := rungs s; trial_rungs := trial_rungs s;
     pending_trials := pending_trials s;
     completed_trials := completed_trials s;
     invalid_trials := invalid_trials s;
     early_exit_trials := early_exit_trials s;
     closed_trials := f (closed_trials s); draws := draws s |}.

Definition set_draws (f : nat -> nat)
    (s : ASHASearchMethodState) : ASHASearchMethodState :=
  {| max_length := max_length s; max_trials := max_trials s;
     num_rungs := num_rungs s; divisor := divisor s;
     max_concurrent_trials := max_concurrent_trials s;
     is_smaller_better := is_smaller_better s;
     rungs := rungs s; trial_rungs := trial_rungs s;
     pending_trials := pending_trials s;
     completed_trials := completed_trials s;
     invalid_trials := invalid_trials s;
     early_exit_trials := early_exit_trials s;
     closed_trials := closed_trials s; draws := f (draws s) |}.

(** ** Construction: [ASHASearchMethodState.__init__] and [_init_rungs] *)

Definition lift {S A} (o : Outcome A) : M S A := fun s => (o, s).

(** One pass of the loop body of [_init_rungs] computes
    [max(int(max_length / pow(divisor, float(num_rungs - idx - 1))), 1)];
    [float(num_rungs - idx - 1)] is taken to be exact (it is below 2^53). *)
Definition rung_increment (max_length num_rungs divisor : Z) (idx : nat)
    : Outcome Z :=
  fst ((base <- lift (PyFloat.of_int divisor) ;;
        downsampling_rate <-
          lift (PyFloat.pow base (Z.to_N (num_rungs - Z.of_nat idx - 1))) ;;
        numerator <- lift (PyFloat.of_int max_length) ;;
        quotient <- lift (PyFloat.truediv numerator downsampling_rate) ;;
        n <- lift (PyFloat.to_int quotient) ;;
        ret (Z.max n 1)) tt).

(** The state is [self.rungs]; [units_needed] is the loop's accumulator. *)
Fixpoint init_rungs_loop (max_length num_rungs divisor : Z)
    (range : list nat) (units_needed : Z) : M (list Rung) unit :=
  match range with
  | [] => ret tt
  | idx :: range' =>
      increment <- lift (rung_increment max_length num_rungs divisor idx) ;;
      let units_needed := (units_needed + increment)%Z in
      modify (fun rungs => rungs ++ [new_rung units_needed (Z.of_nat idx)]) ;;
      init_rungs_loop max_length num_rungs divisor range' units_needed
  end.

Definition _init_rungs (max_length num_rungs divisor : Z)
    : M (list Rung) unit :=
  init_rungs_loop max_length num_rungs divisor
    (seq 0 (Z.to_nat num_rungs)) 0.

(** [ASHASearchMethodState(max_length, max_trials, num_rungs, divisor,
    max_concurrent_trials)]; an exception of [_init_rungs] leaves no
    object. *)
Definition new_ASHASearchMethodState
    (max_length max_trials num_rungs divisor max_concurrent_trials : Z)
    : Outcome ASHASearchMethodState :=
  match _init_rungs max_length num_rungs divisor [] with
  | (Ok _, ladder) =>
      Ok {| max_length := max_length; max_trials := max_trials;
            num_rungs := num_rungs; divisor := divisor;
            max_concurrent_trials := max_concurrent_trials;
            is_smaller_better := true;
            rungs := ladder; trial_rungs := ∅;
            pending_trials := 0; completed_trials := 0;
            invalid_trials := 0;
            early_exit_trials := ∅; closed_trials := ∅; draws := 0 |}
  | (Raise e, _) => Raise e
  | (OutOfFuel, _) => OutOfFuel
  end.

(** ** State access *)

Abbreviation St := ASHASearchMethodState.

(** [self.asha_search_state.trial_rungs[request_id]] *)
Definition trial_rung_of (request_id : UUID) : M St nat :=
  s <- get ;;
  from_option KeyError (trial_rungs s !! request_id).

(** [self.asha_search_state.rungs[i]] *)
Definition rung_at (i : nat) : M St Rung :=
  s <- get ;;
  from_option IndexError (rungs s !! i).

(** A mutation of the rung object held at position [i] of [rungs]. *)
Definition update_rung (i : nat) (f : Rung -> Rung) : M St unit :=
  modify (set_rungs (alter f i)).

(** A method call on the rung object held at position [i]: the object the
    method leaves behind stays in the list, also when the method raises. *)
Definition call_rung {A} (i : nat) (method : M Rung A) : M St A :=
  fun s =>
    match rungs s !! i with
    | None => (Raise IndexError, s)
    | Some self =>
        let (result, self') := method self in
        (result, set_rungs (fun l => <[i := self']> l) s)
    end.

Definition add_to_set (x : UUID) (xs : gset UUID) : gset UUID := {[x]} ∪ xs.

(** [int(pow(base, exponent))] for two Python [int]s: an exact integer power
    when the exponent is not negative, a float otherwise. *)
Definition int_pow_to_int (base exponent : Z) : Outcome Z :=
  if (0 <=? exponent)%Z then Ok (base ^ exponent)%Z
  else
    match PyFloat.of_int base, PyFloat.of_int exponent with
    | Ok _, Ok _ =>
        if (base =? 0)%Z then Raise ZeroDivisionError
        else if (base =? 1)%Z then Ok 1%Z
        else if (base =? -1)%Z then Ok (if Z.even exponent then 1 else -1)%Z
        else Ok 0%Z
    | Ok _, Raise e => Raise e
    | Raise e, _ => Raise e
    | _, _ => OutOfFuel
    end.

(** ** The search method *)

Section ASHASearchMethod.

(** The results of the successive calls to [uuid.uuid4()] and to
    [self.search_space()]. *)
Context (uuid4 : nat -> UUID) (search_space : nat -> HParams).

(** [searcher.Create(request_id=uuid.uuid4(), hparams=self.search_space(),
    checkpoint=None)] *)
Definition new_create : M St (UUID * HParams) :=
  s <- get ;;
  modify (set_draws S) ;;
  ret (uuid4 (draws s), search_space (draws s)).

Definition _get_max_concurrent_trials : M St Z :=
  s <- get ;;
  if (0 <? max_concurrent_trials s)%Z then
    ret (Z.min (max_concurrent_trials s) (max_trials s))
  else
    p <- lift (int_pow_to_int (divisor s) (num_rungs s - 1)) ;;
    ret (Z.max 1 (Z.min p (max_trials s))).

(** The [for __ in range(0, N)] loop of [initial_operations]. *)
Fixpoint initial_operations_loop (n : nat) (ops : list Operation)
    : M St (list Operation) :=
  match n with
  | O => ret ops
  | S n' =>
      create <- new_create ;;
      let ops := ops ++ [Create create.1 create.2] in
      rung0 <- rung_at 0 ;;
      let ops := ops ++ [ValidateAfter create.1 (units_needed rung0)] in
      modify (set_trial_rungs (<[create.1 := 0%nat]>)) ;;
      modify (set_pending_trials (fun n => n + 1)%Z) ;;
      initial_operations_loop n' ops
  end.

Definition initial_operations : M St (list Operation) :=
  N <- _get_max_concurrent_trials ;;
  initial_operations_loop (Z.to_nat N) [].

Definition on_trial_created (request_id : UUID) : M St (list Operation) :=
  _ <- rung_at 0 ;;
  update_rung 0 (set_outstanding_trials (fun n => n + 1)%Z) ;;
  modify (set_trial_rungs (<[request_id := 0%nat]>)) ;;
  ret [].

Definition on_trial_closed (request_id : UUID) : M St (list Operation) :=
  modify (set_completed_trials (fun n => n + 1)%Z) ;;
  modify (set_closed_trials (add_to_set request_id)) ;;
  s <- get ;;
  if (pending_trials s =? 0)%Z && (completed_trials s =? max_trials s)%Z
  then ret [Shutdown]
  else ret [].

(** The inner loop of [_get_close_rungs_ops], over [rung.metrics]. *)
Fixpoint close_metrics_loop (entries : list TrialMetric)
    (ops : list Operation) : M St (list Operation) :=
  match entries with
  | [] => ret ops
  | trial_metric :: entries' =>
      s <- get ;;
      if negb (TrialMetric.promoted trial_metric)
         && negb (bool_decide
                    (TrialMetric.request_id trial_metric ∈ closed_trials s))
      then
        if negb (bool_decide
                   (TrialMetric.request_id trial_metric
                      ∈ early_exit_trials s))
        then
          modify (set_closed_trials
                    (add_to_set (TrialMetric.request_id trial_metric))) ;;
          close_metrics_loop entries'
            (ops ++ [Close (TrialMetric.request_id trial_metric)])
        else close_metrics_loop entries' ops
      else close_metrics_loop entries' ops
  end.

(** The outer loop of [_get_close_rungs_ops], with its [break]. *)
Fixpoint close_rungs_loop (ladder : list Rung) (ops : list Operation)
    : M St (list Operation) :=
  match ladder with
  | [] => ret ops
  | rung :: ladder' =>
      if (0 <? outstanding_trials rung)%Z then ret ops
      else
        ops <- close_metrics_loop (metrics rung) ops ;;
        close_rungs_loop ladder' ops
  end.

Definition _get_close_rungs_ops : M St (list Operation) :=
  s <- get ;;
  close_rungs_loop (rungs s) [].

(** How the [for promoted_request_id in ...] loop of [_promote_async] ends:
    it runs to its end, or leaves the function through the [return] of the
    [else] branch. *)
Inductive LoopExit :=
  | Completed (ops : list Operation) (added_train_workload : bool)
  | Returned (result : list Operation).

(** The loop of [_promote_async]; [self_promote_async] is the method itself,
    for the recursive call. *)
Fixpoint promote_loop
    (self_promote_async : UUID -> Q -> M St (list Operation))
    (rung_idx : nat) (promotions : list UUID)
    (ops : list Operation) (added_train_workload : bool) : M St LoopExit :=
  match promotions with
  | [] => ret (Completed ops added_train_workload)
  | promoted_request_id :: promotions' =>
      modify (set_trial_rungs (<[promoted_request_id := (rung_idx + 1)%nat]>)) ;;
      update_rung (rung_idx + 1)
        (set_outstanding_trials (fun n => n + 1)%Z) ;;
      s <- get ;;
      if negb (bool_decide (promoted_request_id ∈ early_exit_trials s)) then
        next_rung <- rung_at (rung_idx + 1) ;;
        rung <- rung_at rung_idx ;;
        let units_needed :=
          Z.max (units_needed next_rung - units_needed rung) 1 in
        modify (set_pending_trials (fun n => n + 1)%Z) ;;
        promote_loop self_promote_async rung_idx promotions'
          (ops ++ [ValidateAfter promoted_request_id units_needed]) true
      else
        result <- self_promote_async promoted_request_id float_max ;;
        ret (Returned result)
  end.

(** The part of [_promote_async] after the [if]/[else] on the rung index. *)
Definition promote_async_tail (ops : list Operation)
    (added_train_workload : bool) : M St (list Operation) :=
  s <- get ;;
  let all_trials := (Z.of_nat (size (trial_rungs s)) - invalid_trials s)%Z in
  ops <-
    (if negb added_train_workload && (all_trials <? max_trials s)%Z then
       modify (set_pending_trials (fun n => n + 1)%Z) ;;
       create <- new_create ;;
       let ops := ops ++ [Create create.1 create.2] in
       rung0 <- rung_at 0 ;;
       let ops := ops ++ [ValidateAfter create.1 (units_needed rung0)] in
       modify (set_trial_rungs (<[create.1 := 0%nat]>)) ;;
       ret ops
     else ret ops) ;;
  rung0 <- rung_at 0 ;;
  s <- get ;;
  if (Z.of_nat (length (metrics rung0)) =? max_trials s)%Z then
    close_ops <- _get_close_rungs_ops ;;
    ret (ops ++ close_ops)
  else ret ops.

(** The body of [_promote_async]. *)
Definition promote_async_body
    (self_promote_async : UUID -> Q -> M St (list Operation))
    (request_id : UUID) (metric : Q) : M St (list Operation) :=
  rung_idx <- trial_rung_of request_id ;;
  _ <- rung_at rung_idx ;;
  update_rung rung_idx (set_outstanding_trials (fun n => n - 1)%Z) ;;
  s <- get ;;
  if (Z.of_nat rung_idx =? num_rungs s - 1)%Z then
    update_rung rung_idx
      (set_metrics (fun l =>
         l ++ [{| TrialMetric.request_id := request_id;
                  TrialMetric.metric := metric;
                  TrialMetric.promoted := false |}])) ;;
    s <- get ;;
    if negb (bool_decide (request_id ∈ early_exit_trials s)) then
      modify (set_closed_trials (add_to_set request_id)) ;;
      promote_async_tail [Close request_id] false
    else promote_async_tail [] false
  else
    _ <- rung_at (rung_idx + 1) ;;
    promotions <-
      call_rung rung_idx (promotions_async request_id metric (divisor s)) ;;
    exit <- promote_loop self_promote_async rung_idx promotions [] false ;;
    match exit with
    | Returned result => ret result
    | Completed ops added_train_workload =>
        promote_async_tail ops added_train_workload
    end.

(** [_promote_async], its recursion cut after [fuel] nested calls. *)
Fixpoint promote_async_fuel (fuel : nat) (request_id : UUID) (metric : Q)
    {struct fuel} : M St (list Operation) :=
  promote_async_body
    (match fuel with
     | O => fun _ _ => out_of_fuel
     | S fuel' => promote_async_fuel fuel'
     end)
    request_id metric.

(** Every nested call works one rung higher, so the height of the ladder is
    fuel enough (lemma [promote_async_fuel_enough]). *)
Definition _promote_async (request_id : UUID) (metric : Q)
    : M St (list Operation) :=
  s <- get ;;
  promote_async_fuel (length (rungs s)) request_id metric.

Definition on_validation_completed (request_id : UUID) (metric : PyValue)
    (train_length : Z) : M St (list Operation) :=
  match metric with
  | VFloat metric =>
      modify (set_pending_trials (fun n => n - 1)%Z) ;;
      s <- get ;;
      let metric := if is_smaller_better s then metric else (metric * -1)%Q in
      _promote_async request_id metric
  | _ => raise AssertionError
  end.

(** The [for rung_idx in range(0, highest_rung_index + 1)] loop of
    [on_trial_exited_early]. *)
Fixpoint purge_loop (request_id : UUID) (range : list nat) : M St unit :=
  match range with
  | [] => ret tt
  | rung_idx :: range' =>
      _ <- rung_at rung_idx ;;
      update_rung rung_idx
        (set_metrics
           (filter (fun x => TrialMetric.request_id x ≠ request_id))) ;;
      purge_loop request_id range'
  end.

Definition on_trial_exited_early (request_id : UUID)
    (exited_reason : PyValue) : M St (list Operation) :=
  modify (set_pending_trials (fun n => n - 1)%Z) ;;
  if is_INVALID_HP exited_reason then
    modify (set_early_exit_trials (add_to_set request_id)) ;;
    let ops := [Close request_id] in
    modify (set_closed_trials (add_to_set request_id)) ;;
    modify (set_invalid_trials (fun n => n + 1)%Z) ;;
    highest_rung_index <- trial_rung_of request_id ;;
    _ <- rung_at highest_rung_index ;;
    update_rung highest_rung_index
      (set_outstanding_trials (fun n => n - 1)%Z) ;;
    purge_loop request_id (seq 0 (highest_rung_index + 1)) ;;
    create <- new_create ;;
    let ops := ops ++ [Create create.1 create.2] in
    rung0 <- rung_at 0 ;;
    let ops := ops ++ [ValidateAfter create.1 (units_needed rung0)] in
    modify (set_trial_rungs (<[create.1 := 0%nat]>)) ;;
    modify (set_pending_trials (fun n => n + 1)%Z) ;;
    ret ops
  else
    modify (set_early_exit_trials (add_to_set request_id)) ;;
    modify (set_closed_trials (add_to_set request_id)) ;;
    _promote_async request_id float_max.

(** ** Events and runs *)

Inductive SearcherEvent :=
  | InitialOperations
  | TrialCreated (request_id : UUID)
  | ValidationCompleted (request_id : UUID) (metric : PyValue)
      (train_length : Z)
  | TrialClosed (request_id : UUID)
  | TrialExitedEarly (request_id : UUID) (exited_reason : PyValue).

Definition handle (ev : SearcherEvent) : M St (list Operation) :=
  match ev with
  | InitialOperations => initial_operations
  | TrialCreated request_id => on_trial_created request_id
  | ValidationCompleted request_id metric train_length =>
      on_validation_completed request_id metric train_length
  | TrialClosed request_id => on_trial_closed request_id
  | TrialExitedEarly request_id exited_reason =>
      on_trial_exited_early request_id exited_reason
  end.

(** A run delivers the events one after the other; the state after an event
    is the state its handler leaves, also when the handler raised.  The
    result is the final state and the outcome of every event in order. *)
Fixpoint run (evs : list SearcherEvent) (s : St)
    : list (Outcome (list Operation)) * St :=
  match evs with
  | [] => ([], s)
  | ev :: evs' =>
      let (outcome, s') := handle ev s in
      let (outcomes, s'') := run evs' s' in
      (outcome :: outcomes, s'')
  end.

End ASHASearchMethod.

(** ** Vocabulary of the properties *)

(** A metrics list is sorted ascending: nondecreasing in the metric value. *)
Definition sorted_metrics (l : list TrialMetric) : Prop :=
  forall i j a b,
    i <= j -> l !! i = Some a -> l !! j = Some b ->
    (TrialMetric.metric a <= TrialMetric.metric b)%Q.

(** The executable form of [sorted_metrics]. *)
Fixpoint sorted_metricsb (l : list TrialMetric) : bool :=
  match l with
  | [] => true
  | a :: l' =>
      forallb (fun b => Qle_bool (TrialMetric.metric a) (TrialMetric.metric b))
        l'
      && sorted_metricsb l'
  end.

(** The entries at the positions below [quota] are all promoted. *)
Definition promoted_prefix (quota : Z) (l : list TrialMetric) : Prop :=
  forall k e,
    l !! k = Some e -> (Z.of_nat k < quota)%Z -> TrialMetric.promoted e = true.

Definition promoted_count (l : list TrialMetric) : nat :=
  length (filter (fun e => TrialMetric.promoted e = true) l).

(** The rung after the arrivals have gone through [promotions_async] one
    after the other. *)
Definition insert_all (divisor : Z) (arrivals : list (UUID * Q))
    (self : Rung) : Rung :=
  foldl (fun r a => snd (promotions_async a.1 a.2 divisor r)) self arrivals.

(** ** Concrete inputs used by the examples *)

Definition entry (id : UUID) (x : Q) (p : bool) : TrialMetric :=
  {| TrialMetric.request_id := id; TrialMetric.metric := x;
     TrialMetric.promoted := p |}.

Definition example_rung : Rung :=
  {| units_needed := 4; idx := 0;
     metrics := [entry 1 1 true; entry 2 3 false; entry 3 3 false;
                 entry 4 5 false];
     outstanding_trials := 0 |}.

Definition example_uuid4 (n : nat) : UUID := (N.of_nat n + 100)%N.

Definition example_search_space (n : nat) : HParams :=
  [("batch_size"%string, Z.of_nat n)].

(** [ASHASearchMethodState(8, 3, 2, 2)] *)
Definition example_state : St :=
  {| max_length := 8; max_trials := 3; num_rungs := 2; divisor := 2;
     max_concurrent_trials := 0; is_smaller_better := true;
     rungs := [new_rung 4 0; new_rung 12 1]; trial_rungs := ∅;
     pending_trials := 0; completed_trials := 0; invalid_trials := 0;
     early_exit_trials := ∅; closed_trials := ∅; draws := 0 |}.

(** The state after the first two trials were created and trial 101, the
    better of the two, was promoted to rung 1. *)
Definition example_state_promoted : St :=
  snd (run example_uuid4 example_search_space
         [InitialOperations; TrialCreated 100; TrialCreated 101;
          ValidationCompleted 100 (VFloat 5) 4;
          ValidationCompleted 101 (VFloat 3) 4]
         example_state).

(** What [on_trial_exited_early] with [INVALID_HP] makes of the rung at
    position [i] when the trial is registered at rung [r]. *)
Definition purged_rung (request_id : UUID) (r i : nat) (rung : Rung) : Rung :=
  {| units_needed := units_needed rung;
     idx := idx rung;
     metrics :=
       if decide (i <= r)
       then filter (fun x => TrialMetric.request_id x ≠ request_id)
              (metrics rung)
       else metrics rung;
     outstanding_trials :=
       if decide (i = r) then (outstanding_trials rung - 1)%Z
       else outstanding_trials rung |}.

(** Every rung of the ladder other than the one at position [n - 1] has
    its metrics sorted ascending. *)
Definition ladder_sorted (n : Z) (ladder : list Rung) : Prop :=
  forall i rung,
    ladder !! i = Some rung -> Z.of_nat i <> (n - 1)%Z ->
    sorted_metrics (metrics rung).

(** [ASHASearchMethodState(8, 3, 1, 2)]: a ladder of one rung. *)
Definition example_state_single : St :=
  {| max_length := 8; max_trials := 3; num_rungs := 1; divisor := 2;
     max_concurrent_trials := 0; is_smaller_better := true;
     rungs := [new_rung 8 0]; trial_rungs := ∅;
     pending_trials := 0; completed_trials := 0; invalid_trials := 0;
     early_exit_trials := ∅; closed_trials := ∅; draws := 0 |}.

(** The trial ids of the [Close] operations of a list, in order. *)
Definition closes (ops : list Operation) : list UUID :=
  omap (fun op => match op with Close id => Some id | _ => None end) ops.

(** The trial ids of all the [Close] operations a run has emitted. *)
Definition emitted_closes (outcomes : list (Outcome (list Operation)))
    : list UUID :=
  concat (map (fun o => match o with Ok ops => closes ops | _ => [] end)
            outcomes).

(** The event is not a validation result or an [INVALID_HP] exit for a
    trial that is already in [closed_trials]. *)
Definition event_allowed (ev : SearcherEvent) (s : St) : bool :=
  match ev with
  | ValidationCompleted request_id _ _ =>
      negb (bool_decide (request_id ∈ closed_trials s))
  | TrialExitedEarly request_id exited_reason =>
      negb (is_INVALID_HP exited_reason)
      || negb (bool_decide (request_id ∈ closed_trials s))
  | _ => true
  end.

(** Every event of the run is allowed in the state it is delivered in. *)
Fixpoint respects_closure (uuid4 : nat -> UUID)
    (search_space : nat -> HParams) (evs : list SearcherEvent) (s : St)
    : bool :=
  match evs with
  | [] => true
  | ev :: evs' =>
      event_allowed ev s
      && respects_closure uuid4 search_space evs'
           (handle uuid4 search_space ev s).2
  end.

(** ** Vocabulary of the ladder construction *)

(** The binary64 float whose value is the integer [z], for [1 <= z < 2^53]:
    a mantissa of 53 bits. *)
Definition normal (z : Z) : PyFloat.float :=
  S754_finite false (Z.to_pos (z * 2 ^ (53 - Zdigits2 z))%Z)
    (Zdigits2 z - 53)%Z.

(** The second half of [binary_round_aux]: after the rounding step. *)
Definition round_finish (q1 e : Z) : PyFloat.float :=
  let '(mrs, e') := shr_fexp PyFloat.prec PyFloat.emax q1 e loc_Exact in
  match shr_m mrs with
  | Z0 => S754_zero false
  | Zpos m =>
      if (e' <=? PyFloat.emax - PyFloat.prec)%Z then S754_finite false m e'
      else S754_infinity false
  | _ => S754_nan
  end.

(** The increment of rung [j] in the words of the specification:
    [max(floor(maxLength / reductionFactor^(numRungs - j - 1)), 1)]. *)
Definition spec_increment (max_length num_rungs divisor : Z) (j : nat) : Z :=
  Z.max (max_length / divisor ^ (num_rungs - Z.of_nat j - 1)) 1.

(** The sum of the increments of the rungs below [i]. *)
Definition spec_sum (max_length num_rungs divisor : Z) (i : nat) : Z :=
  foldr Z.add 0%Z
    (map (spec_increment max_length num_rungs divisor) (seq 0 i)).

(** [unitsNeeded[i]] in the words of the specification: the cumulative sum
    of the increments of the rungs [0..i]. *)
Definition spec_units_needed (max_length num_rungs divisor : Z) (i : nat)
    : Z :=
  spec_sum max_length num_rungs divisor (S i).

(** ** Vocabulary of the proofs *)

(** The invariant of the binary search: the entries before [i] are at most
    [x], the entries from [j] on exceed [x]. *)
Definition search_inv (ms : list TrialMetric) (x : Q) (i j : nat) : Prop :=
  (forall k e, ms !! k = Some e -> k < i -> (TrialMetric.metric e <= x)%Q) /\
  (forall k e, ms !! k = Some e -> j <= k -> (x < TrialMetric.metric e)%Q).

(** The method, with the result of the binary search named. *)
Definition promotions_async_at (request_id : UUID) (metric : Q) (divisor : Z)
    (index : nat) (self : Rung) : Outcome (list UUID) * Rung :=
  let len := length (metrics self) in
  let old_num_promote := (Z.of_nat len / divisor)%Z in
  let num_promote := ((Z.of_nat len + 1) / divisor)%Z in
  let promote_now := (Z.of_nat index <? num_promote)%Z in
  let self1 :=
    set_metrics
      (list_insert_at index
         {| TrialMetric.request_id := request_id;
            TrialMetric.metric := metric;
            TrialMetric.promoted := promote_now |}) self in
  if promote_now then (Ok [request_id], self1)
  else if negb (num_promote =? old_num_promote)%Z then
    match py_index (S len) old_num_promote with
    | None => (Raise IndexError, self1)
    | Some k =>
        match metrics self1 !! k with
        | None => (Raise IndexError, self1)
        | Some entry =>
            if negb (TrialMetric.promoted entry)
            then (Ok [TrialMetric.request_id entry],
                  set_metrics (alter (set_promoted true) k) self1)
            else (Ok [], self1)
        end
    end
  else (Ok [], self1).

(** [wp m Q s]: running [m] from [s] ends in an outcome and a state that
    satisfy [Q]. *)
Definition wp {S A} (m : M S A) (Q : Outcome A -> S -> Prop) (s : S) : Prop :=
  Q (m s).1 (m s).2.

(** What a postcondition on the bound computation asks of the first one. *)
Definition wp_cont {S A B} (f : A -> M S B) (Q : Outcome B -> S -> Prop)
    (o : Outcome A) (s : S) : Prop :=
  match o with
  | Ok a => wp (f a) Q s
  | Raise e => Q (Raise e) s
  | OutOfFuel => Q OutOfFuel s
  end.

(** One pass of the purge loop of [on_trial_exited_early]. *)
Definition purge_metrics (request_id : UUID) : Rung -> Rung :=
  set_metrics (filter (fun x => TrialMetric.request_id x ≠ request_id)).

(** The outcome is a Python outcome: the recursion was not cut. *)
Definition fueled {A} (o : Outcome A) (_ : St) : Prop := o <> OutOfFuel.

(** [m'] does what [m] does wherever [m] is not cut by the fuel. *)
Definition refines {A} (m m' : M St A) : Prop :=
  forall s, (m s).1 <> OutOfFuel -> m' s = m s.

(** The invariant of the state machine for a ladder of [n] rungs. *)
Definition sorted_inv (n : Z) (s : St) : Prop :=
  num_rungs s = n /\ ladder_sorted n (rungs s).

(** [m] keeps the invariant, whatever its outcome. *)
Definition keeps_sorted {A} (n : Z) (m : M St A) : Prop :=
  forall s, sorted_inv n s -> wp m (fun _ s' => sorted_inv n s') s.

(** A rung as [Rung(units_needed, idx)] builds it. *)
Definition blank_rung (rung : Rung) : Prop :=
  metrics rung = [] /\ outstanding_trials rung = 0%Z.

(** The [Close] operations gathered in [ops] since the closed set was [c0]:
    they are for distinct trials that were not in [c0] and are in the
    closed set now. *)
Definition close_acc (c0 : gset UUID) (ops : list Operation) (s : St)
    : Prop :=
  c0 ⊆ closed_trials s /\
  NoDup (closes ops) /\
  forall id, id ∈ closes ops -> (id ∉ c0) /\ id ∈ closed_trials s.

(** The closed set only grows, and a normal outcome keeps the account. *)
Definition close_post (c0 : gset UUID) (o : Outcome (list Operation))
    (s : St) : Prop :=
  c0 ⊆ closed_trials s /\
  forall ops, o = Ok ops -> close_acc c0 ops s.

(** What the closing account asks of the trial a result is recorded for:
    it has exited early, or it is not closed yet. *)
Definition closable (request_id : UUID) (s : St) : Prop :=
  request_id ∈ early_exit_trials s \/ request_id ∉ closed_trials s.

(** [m] records a result without closing a trial twice. *)
Definition closes_once (m : UUID -> Q -> M St (list Operation)) : Prop :=
  forall c0 request_id x s,
    c0 ⊆ closed_trials s -> closable request_id s ->
    wp (m request_id x) (close_post c0) s.


(** The ladder of the state has [height] rungs and the state says [n]. *)
Definition height_inv (height : nat) (n : Z) (s : St) : Prop :=
  num_rungs s = n /\ length (rungs s) = height.

(** [m] keeps the height of the ladder, whatever its outcome. *)
Definition keeps_height {A} (height : nat) (n : Z) (m : M St A) : Prop :=
  forall s, height_inv height n s ->
    wp m (fun _ s' => height_inv height n s') s.
(** ** Vocabulary of the further properties *)

(** What a metrics list records: the trial and the metric of every entry,
    in order, without the promotion flags. *)
Definition records (l : list TrialMetric) : list (UUID * Q) :=
  map (fun e => (TrialMetric.request_id e, TrialMetric.metric e)) l.

(** The entries [_get_close_rungs_ops] visits: those of the rungs before the
    first rung that has outstanding trials. *)
Fixpoint swept_entries (ladder : list Rung) : list TrialMetric :=
  match ladder with
  | [] => []
  | rung :: ladder' =>
      if (0 <? outstanding_trials rung)%Z then []
      else metrics rung ++ swept_entries ladder'
  end.

(** The sequence is strictly increasing and starts above [z]. *)
Fixpoint increasing_from (z : Z) (l : list Z) : Prop :=
  match l with
  | [] => True
  | x :: l' => (z < x)%Z /\ increasing_from x l'
  end.

(** The operations that start the trials of the draws [ks]: for each draw a
    [Create] and the [ValidateAfter] of the created trial up to [units]. *)
Definition initial_ops (uuid4 : nat -> UUID) (search_space : nat -> HParams)
    (units : Z) (ks : list nat) : list Operation :=
  flat_map
    (fun k => [Create (uuid4 k) (search_space k);
               ValidateAfter (uuid4 k) units])
    ks.

(** What no handler changes between [s] and [s']: the parameters of the
    search, and the thresholds and the numbers of the rungs. *)
Definition same_setup (s s' : St) : Prop :=
  max_length s' = max_length s /\
  max_trials s' = max_trials s /\
  num_rungs s' = num_rungs s /\
  divisor s' = divisor s /\
  max_concurrent_trials s' = max_concurrent_trials s /\
  is_smaller_better s' = is_smaller_better s /\
  map units_needed (rungs s') = map units_needed (rungs s) /\
  map idx (rungs s') = map idx (rungs s).

(** What only grows from [s] to [s']: the sets of closed and of early
    exited trials, the registered trials, and the counters of completed and
    of invalid trials. *)
Definition grown (s s' : St) : Prop :=
  closed_trials s ⊆ closed_trials s' /\
  early_exit_trials s ⊆ early_exit_trials s' /\
  dom (trial_rungs s) ⊆ dom (trial_rungs s') /\
  (completed_trials s <= completed_trials s')%Z /\
  (invalid_trials s <= invalid_trials s')%Z.

(** Every registered trial is registered at a rung of the ladder. *)
Definition registered_valid (s : St) : Prop :=
  forall id k, trial_rungs s !! id = Some k -> k < length (rungs s).

(** The events of the run are allowed, each in the state it is delivered
    in. *)
Fixpoint events_allowed (allowed : SearcherEvent -> St -> bool)
    (uuid4 : nat -> UUID) (search_space : nat -> HParams)
    (evs : list SearcherEvent) (s : St) : bool :=
  match evs with
  | [] => true
  | ev :: evs' =>
      allowed ev s
      && events_allowed allowed uuid4 search_space evs'
           (handle uuid4 search_space ev s).2
  end.

(** The event reports a float, and it is about a registered trial. *)
Definition event_known (ev : SearcherEvent) (s : St) : bool :=
  match ev with
  | ValidationCompleted request_id metric _ =>
      is_float metric && bool_decide (request_id ∈ dom (trial_rungs s))
  | TrialExitedEarly request_id _ =>
      bool_decide (request_id ∈ dom (trial_rungs s))
  | _ => true
  end.

(** The handler returned its operations. *)
Definition returned {A} (o : Outcome A) : Prop := exists a, o = Ok a.

(** A state in which the handlers find the rungs they look for: the ladder
    has [num_rungs >= 1] rungs, every registered trial is at one of them,
    and the divisor is not zero unless the ladder is a single rung. *)
Definition safe_state (s : St) : Prop :=
  (1 <= num_rungs s)%Z /\
  length (rungs s) = Z.to_nat (num_rungs s) /\
  registered_valid s /\
  (divisor s <> 0%Z \/ num_rungs s = 1%Z).

(** The operation is not a [Shutdown], and a [ValidateAfter] asks for at
    least [lo] units. *)
Definition op_bounded (lo : Z) (op : Operation) : Prop :=
  match op with
  | ValidateAfter _ len => (lo <= len)%Z
  | Shutdown => False
  | _ => True
  end.

(** The threshold of the first rung is at least [lo]. *)
Definition rung0_above (lo : Z) (s : St) : Prop :=
  forall rung0, rungs s !! 0 = Some rung0 -> (lo <= units_needed rung0)%Z.

(** [I] is kept by every update a handler makes to the state, each update
    taken in the situation the handlers make it in: a trial is registered
    at a rung that exists; a result goes through [promotions_async] at the
    rung its trial is registered at, which is not the final rung, or is
    appended to the final rung; and the entries of a trial are purged after
    [invalid_trials] was raised. *)
Definition stable_invariant (I : St -> Prop) : Prop :=
  (forall f s, I s -> I (set_pending_trials f s)) /\
  (forall s, I s -> I (set_completed_trials (fun n => n + 1)%Z s)) /\
  (forall s, I s -> I (set_invalid_trials (fun n => n + 1)%Z s)) /\
  (forall id s, I s -> I (set_early_exit_trials (add_to_set id) s)) /\
  (forall id s, I s -> I (set_closed_trials (add_to_set id) s)) /\
  (forall s, I s -> I (set_draws S s)) /\
  (forall i f s,
     I s -> I (set_rungs (alter (set_outstanding_trials f) i) s)) /\
  (forall id k s,
     I s -> is_Some (rungs s !! k) ->
     I (set_trial_rungs (<[id := k]>) s)) /\
  (forall id x i self s,
     I s -> trial_rungs s !! id = Some i -> rungs s !! i = Some self ->
     Z.of_nat i <> (num_rungs s - 1)%Z ->
     I (set_rungs
          (fun l => <[i := (promotions_async id x (divisor s) self).2]> l)
          s)) /\
  (forall id x i s,
     I s -> trial_rungs s !! id = Some i ->
     Z.of_nat i = (num_rungs s - 1)%Z ->
     I (set_rungs
          (alter (set_metrics
                    (fun l => l ++ [{| TrialMetric.request_id := id;
                                       TrialMetric.metric := x;
                                       TrialMetric.promoted := false |}])) i)
          s)) /\
  (forall id i s,
     I s ->
     (exists s1, I s1 /\ invalid_trials s = (invalid_trials s1 + 1)%Z) ->
     I (set_rungs (alter (purge_metrics id) i) s)).

(** Every operation the handler returned is bounded. *)
Definition ops_bounded (lo : Z) (o : Outcome (list Operation)) (_ : St)
    : Prop :=
  forall ops, o = Ok ops -> Forall (op_bounded lo) ops.

(** The rung's results are sorted and the best [floor(len / d)] of them are
    promoted. *)
Definition rung_quota (d : Z) (rung : Rung) : Prop :=
  sorted_metrics (metrics rung) /\
  promoted_prefix (Z.of_nat (length (metrics rung)) / d) (metrics rung).

(** As long as no [INVALID_HP] exit has been counted, every rung but the
    final one keeps its quota promoted. *)
Definition quota_inv (s : St) : Prop :=
  (1 <= divisor s)%Z /\ (0 <= invalid_trials s)%Z /\
  (invalid_trials s = 0%Z ->
   forall i rung,
     rungs s !! i = Some rung -> Z.of_nat i <> (num_rungs s - 1)%Z ->
     rung_quota (divisor s) rung).

(** The trials that count against [max_trials], the registered trials less
    the invalid ones, are at most [max_trials]. *)
Definition within_budget (s : St) : Prop :=
  (Z.of_nat (size (trial_rungs s)) - invalid_trials s <= max_trials s)%Z.

(** Every result that a rung holds is the result of a registered trial. *)
Definition metrics_registered (s : St) : Prop :=
  forall i rung e,
    rungs s !! i = Some rung -> e ∈ metrics rung ->
    TrialMetric.request_id e ∈ dom (trial_rungs s).

(** After the initial operations: [initial_operations] is not called
    again, and [on_trial_created] is for a trial that is registered. *)
Definition event_after_start (ev : SearcherEvent) (s : St) : bool :=
  match ev with
  | InitialOperations => false
  | TrialCreated request_id =>
      bool_decide (request_id ∈ dom (trial_rungs s))
  | _ => true
  end.

(** The number of [ValidateAfter] operations of a list. *)
Fixpoint count_validate (ops : list Operation) : Z :=
  match ops with
  | [] => 0
  | ValidateAfter _ _ :: ops' => 1 + count_validate ops'
  | _ :: ops' => count_validate ops'
  end.

(** The shape of the operations a handler other than [on_trial_closed]
    returns: [Close] operations for trials that are not in [E], [Create]
    operations each followed at once by the [ValidateAfter] of the created
    trial up to [u0] units, and single [ValidateAfter] operations of at
    least one unit for trials that are not in [E]. *)
Inductive ops_shape (E : gset UUID) (u0 : Z) : list Operation -> Prop :=
  | shape_nil : ops_shape E u0 []
  | shape_close id rest :
      id ∉ E -> ops_shape E u0 rest -> ops_shape E u0 (Close id :: rest)
  | shape_create id hparams rest :
      ops_shape E u0 rest ->
      ops_shape E u0 (Create id hparams :: ValidateAfter id u0 :: rest)
  | shape_promote id len rest :
      id ∉ E -> (1 <= len)%Z -> ops_shape E u0 rest ->
      ops_shape E u0 (ValidateAfter id len :: rest).

(** The account of the operations [ops] gathered by a handler that found
    [pending_trials] at [p0]: [pending_trials] has been raised once per
    [ValidateAfter], the trials of the [Close] operations are in
    [closed_trials], and the operations have the shape above for the early
    exits [E] of the state and the threshold [u0] of its first rung. *)
Definition ops_account (p0 : Z) (E : gset UUID) (u0 : Z)
    (ops : list Operation) (s : St) : Prop :=
  pending_trials s = (p0 + count_validate ops)%Z /\
  (forall id, id ∈ closes ops -> id ∈ closed_trials s) /\
  ops_shape E u0 ops /\
  early_exit_trials s = E /\
  (forall rung0, rungs s !! 0 = Some rung0 -> units_needed rung0 = u0).

(** The account holds of the operations the handler returned. *)
Definition ops_accounted (p0 : Z) (E : gset UUID) (u0 : Z)
    (o : Outcome (list Operation)) (s : St) : Prop :=
  forall ops, o = Ok ops -> ops_account p0 E u0 ops s.

(** The [Close] with which [on_trial_exited_early] answers an [INVALID_HP]
    exit, before anything else. *)
Definition exit_prefix (ev : SearcherEvent) : list Operation :=
  match ev with
  | TrialExitedEarly request_id exited_reason =>
      if is_INVALID_HP exited_reason then [Close request_id] else []
  | _ => []
  end.

(** The event reports on a trial: a validation result or an early exit. *)
Definition is_report (ev : SearcherEvent) : bool :=
  match ev with
  | ValidationCompleted _ _ _ | TrialExitedEarly _ _ => true
  | _ => false
  end.

(** The state after the first two trials were created and trial 100 has
    reported its first result. *)
Definition example_state_running : St :=
  snd (run example_uuid4 example_search_space
         [InitialOperations; TrialCreated 100; TrialCreated 101;
          ValidationCompleted 100 (VFloat 5) 4]
         example_state).
(** [initial_operations] is not called again. *)
Definition event_not_initial (ev : SearcherEvent) (s : St) : bool :=
  match ev with
  | InitialOperations => false
  | _ => true
  end.

(** [ASHASearchMethodState(8, 3, 2, 2, 2)] *)
Definition example_state_limited : St :=
  {| max_length := 8; max_trials := 3; num_rungs := 2; divisor := 2;
     max_concurrent_trials := 2; is_smaller_better := true;
     rungs := [new_rung 4 0; new_rung 12 1]; trial_rungs := ∅;
     pending_trials := 0; completed_trials := 0; invalid_trials := 0;
     early_exit_trials := ∅; closed_trials := ∅; draws := 0 |}.

(** *** [progress] *)

(** The literal [1.2]: the binary64 float nearest to it,
    [5404319552844595 * 2^-52]. *)
Definition float_1_2 : PyFloat.float :=
  S754_finite false 5404319552844595 (-52).

(** [x * n] for a float [x] and an [int] [n]: [n] is converted first, which
    raises [OverflowError] when it is too large; the product itself never
    raises. *)
Definition float_mul_int (x : PyFloat.float) (n : Z)
    : Outcome PyFloat.float :=
  match PyFloat.of_int n with
  | Ok y => Ok (SFmul PyFloat.prec PyFloat.emax x y)
  | Raise e => Raise e
  | OutOfFuel => OutOfFuel
  end.

(** [n / y] for an [int] [n] and a float [y]: [n] is converted first, then
    a zero divisor raises [ZeroDivisionError]. *)
Definition int_div_float (n : Z) (y : PyFloat.float)
    : Outcome PyFloat.float :=
  match PyFloat.of_int n with
  | Ok x => PyFloat.truediv x y
  | Raise e => Raise e
  | OutOfFuel => OutOfFuel
  end.

(** [a / b] for two [int]s, the exact quotient rounded to nearest.  When
    both are below [2^53] in magnitude they convert exactly and the floats
    are divided; otherwise the integers themselves are divided and rounded
    once, and a quotient out of range raises [OverflowError]. *)
Definition int_truediv (a b : Z) : Outcome PyFloat.float :=
  if (b =? 0)%Z then Raise ZeroDivisionError
  else if (a =? 0)%Z then Ok (S754_zero (b <? 0)%Z)
  else if (Z.abs a <? 2 ^ 53)%Z && (Z.abs b <? 2 ^ 53)%Z then
    Ok (SFdiv PyFloat.prec PyFloat.emax
          (binary_normalize PyFloat.prec PyFloat.emax a 0 false)
          (binary_normalize PyFloat.prec PyFloat.emax b 0 false))
  else
    match SFdiv PyFloat.prec PyFloat.emax
            (S754_finite (a <? 0)%Z (Z.to_pos (Z.abs a)) 0)
            (S754_finite (b <? 0)%Z (Z.to_pos (Z.abs b)) 0) with
    | S754_infinity _ => Raise OverflowError
    | f => Ok f
    end.

(** [max(x, y)] for two floats: [x], unless [y > x]. *)
Definition float_max_of (x y : PyFloat.float) : PyFloat.float :=
  match SFcompare y x with
  | Some Gt => y
  | _ => x
  end.

(** What [progress] does after its check of [pending_trials]. *)
Definition progress_value : M St PyFloat.float :=
  rung0 <- rung_at 0 ;;
  let all_trials := Z.of_nat (length (metrics rung0)) in
  s <- get ;;
  scaled <- lift (float_mul_int float_1_2 (max_trials s)) ;;
  progress <- lift (int_div_float all_trials scaled) ;;
  if (all_trials =? max_trials s)%Z then
    let num_valid_trials := (completed_trials s - invalid_trials s)%Z in
    progress_no_overhead <-
      lift (int_truediv num_valid_trials (max_trials s)) ;;
    ret (float_max_of progress_no_overhead progress)
  else ret progress.

(** The outcome of [progress]: its own [RuntimeError], or what the
    computation of the value gives. *)
Inductive ProgressOutcome :=
  | RuntimeError
  | Finished (o : Outcome PyFloat.float).

Definition progress (s : St) : ProgressOutcome :=
  if (0 <? max_concurrent_trials s)%Z
     && (max_concurrent_trials s <? pending_trials s)%Z
  then RuntimeError
  else Finished (progress_value s).1.

(** [ASHASearchMethodState(8, 0, 2, 2)] *)
Definition example_state_no_trials : St :=
  {| max_length := 8; max_trials := 0; num_rungs := 2; divisor := 2;
     max_concurrent_trials := 0; is_smaller_better := true;
     rungs := [new_rung 4 0; new_rung 12 1]; trial_rungs := ∅;
     pending_trials := 0; completed_trials := 0; invalid_trials := 0;
     early_exit_trials := ∅; closed_trials := ∅; draws := 0 |}.

(** Every trial that the operations create is registered at rung 0. *)
Definition creates_registered (ops : list Operation) (s : St) : Prop :=
  forall request_id hparams,
    Create request_id hparams ∈ ops ->
    trial_rungs s !! request_id = Some 0.

(** The handler returned operations whose created trials are registered. *)
Definition created_registered (o : Outcome (list Operation)) (s : St)
    : Prop :=
  forall ops, o = Ok ops -> creates_registered ops s.


(** * Properties *)

(** ** The monad *)

Lemma bind_ok {S A B} (m : M S A) (f : A -> M S B) s a s' :
  m s = (Ok a, s') -> bind m f s = f a s'.
Proof. unfold bind. now intros ->. Qed.

(** ** Sorted metrics lists *)

Lemma sorted_metricsb_correct l :
  sorted_metricsb l = true -> sorted_metrics l.
Proof.
  induction l as [|a l IH]; simpl.
  - intros _ i j x y _ Hi. now rewrite lookup_nil in Hi.
  - intros [Hall Hs]%andb_prop i j x y Hij Hi Hj.
    destruct i as [|i], j as [|j]; simpl in *; try lia.
    + inversion Hi; inversion Hj; subst. apply Qle_refl.
    + inversion Hi; subst.
      rewrite forallb_forall in Hall.
      apply Qle_bool_iff, Hall, list_elem_of_In.
      eapply list_elem_of_lookup_2; eauto.
    + eapply (IH Hs i j); eauto with lia.
Qed.

Lemma sorted_metrics_nil : sorted_metrics [].
Proof. intros i j a b _ Hi. now rewrite lookup_nil in Hi. Qed.

Lemma lookup_list_insert_at {A} (l : list A) i x k :
  i <= length l ->
  list_insert_at i x l !! k =
    if decide (k < i) then l !! k
    else if decide (k = i) then Some x
    else l !! (k - 1).
Proof.
  intros Hi. unfold list_insert_at.
  rewrite lookup_app, length_take_le by done.
  repeat case_decide; try lia.
  - rewrite lookup_take_lt by lia.
    destruct (l !! k) eqn:E; [done|].
    apply lookup_ge_None in E. lia.
  - rewrite lookup_take_ge by lia. subst. now rewrite Nat.sub_diag.
  - rewrite lookup_take_ge by lia.
    destruct (k - i) as [|d] eqn:E; [lia|]. simpl.
    rewrite lookup_drop. f_equal. lia.
Qed.

Lemma length_list_insert_at {A} (l : list A) i x :
  length (list_insert_at i x l) = S (length l).
Proof.
  unfold list_insert_at.
  rewrite length_app. simpl. rewrite length_take, length_drop. lia.
Qed.

(** ** [Rung._search_metric_index] *)

Lemma search_loop_spec ms x i j :
  i <= j <= length ms ->
  exists r, search_loop ms x i j = Ok r /\ i <= r <= j /\
    (sorted_metrics ms -> search_inv ms x i j -> search_inv ms x r r).
Proof.
  funelim (search_loop ms x i j); intros Hij; clear Heqcall.
  - (* i >= j *)
    exists i. split; [done|]. split; [lia|].
    intros _ [Hle Hgt]. split; [done|].
    intros k e Hk Hge. apply (Hgt k e Hk). lia.
  - (* i < j, one probe *)
    assert (Hlo : i <= Nat.shiftr (i + j) 1).
    { rewrite Nat.shiftr_div_pow2. change (2 ^ 1) with 2.
      apply Nat.div_le_lower_bound; lia. }
    assert (Hhi : Nat.shiftr (i + j) 1 < j).
    { rewrite Nat.shiftr_div_pow2. change (2 ^ 1) with 2.
      apply Nat.Div0.div_lt_upper_bound; lia. }
    set (mid := Nat.shiftr (i + j) 1) in *.
    destruct (Qle_bool (TrialMetric.metric tm) x) eqn:Hcmp.
    + destruct H as (r & -> & Hr & Hinv); [lia|].
      exists r. split; [done|]. split; [lia|].
      intros Hs [Hle Hgt]. apply Hinv; [done|]. split; [|done].
      intros k e Hk Hlt.
      apply Qle_bool_iff in Hcmp.
      eapply Qle_trans; [|exact Hcmp].
      apply (Hs k mid); auto with lia.
    + destruct H0 as (r & -> & Hr & Hinv); [lia|].
      exists r. split; [done|]. split; [lia|].
      intros Hs [Hle Hgt]. apply Hinv; [done|]. split; [done|].
      intros k e Hk Hge.
      assert (Hnle : ~ (TrialMetric.metric tm <= x)%Q).
      { intros Hc. apply Qle_bool_iff in Hc. congruence. }
      apply Qnot_le_lt in Hnle.
      eapply Qlt_le_trans; [exact Hnle|].
      apply (Hs mid k); auto with lia.
  - (* i < j, the probe is out of range: impossible *)
    exfalso.
    assert (Nat.shiftr (i + j) 1 < j).
    { rewrite Nat.shiftr_div_pow2. change (2 ^ 1) with 2.
      apply Nat.Div0.div_lt_upper_bound; lia. }
    apply lookup_ge_None in Heq. lia.
Qed.

Lemma search_metric_index_ok (x : Q) (self : Rung) :
  exists index,
    _search_metric_index x self = (Ok index, self) /\
    index <= length (metrics self) /\
    (sorted_metrics (metrics self) ->
     search_inv (metrics self) x index index).
Proof.
  destruct (search_loop_spec (metrics self) x 0 (length (metrics self)))
    as (r & Hr & Hle & Hinv); [lia|].
  exists r. unfold _search_metric_index. rewrite Hr.
  split; [done|]. split; [lia|].
  intros Hs. apply Hinv; [done|]. split.
  - intros k e _ Hk. lia.
  - intros k e Hk Hge. apply lookup_lt_Some in Hk. lia.
Qed.

(** ** Sorted insertion *)

Lemma sorted_list_insert_at l i e :
  i <= length l ->
  sorted_metrics l ->
  search_inv l (TrialMetric.metric e) i i ->
  sorted_metrics (list_insert_at i e l).
Proof.
  intros Hi Hs [Hle Hgt] p q a b Hpq Ha Hb.
  rewrite lookup_list_insert_at in Ha, Hb by done.
  repeat case_decide; subst; try (exfalso; lia);
    repeat match goal with
           | H : Some _ = Some _ |- _ => injection H as H; subst
           end.
  all: first
    [ apply Qle_refl
    | eapply Hs; [|exact Ha|exact Hb]; lia
    | eapply Hle; [exact Ha|lia]
    | apply Qlt_le_weak; eapply Hgt; [exact Hb|lia] ].
Qed.

Lemma sorted_alter_promoted l k b :
  sorted_metrics l -> sorted_metrics (alter (set_promoted b) k l).
Proof.
  intros Hs p q x y Hpq Hx Hy.
  rewrite list_lookup_alter in Hx, Hy.
  assert (exists x', l !! p = Some x' /\
            TrialMetric.metric x' = TrialMetric.metric x) as (x' & Hx' & <-).
  { destruct (decide (k = p)) as [->|]; [|by eauto].
    destruct (l !! p) as [x'|]; [|done].
    injection Hx as <-. by eauto. }
  assert (exists y', l !! q = Some y' /\
            TrialMetric.metric y' = TrialMetric.metric y) as (y' & Hy' & <-).
  { destruct (decide (k = q)) as [->|]; [|by eauto].
    destruct (l !! q) as [y'|]; [|done].
    injection Hy as <-. by eauto. }
  eapply Hs; eauto.
Qed.

Lemma sorted_filter (P : TrialMetric -> Prop) `{forall x, Decision (P x)} l :
  sorted_metrics l -> sorted_metrics (filter P l).
Proof.
  induction l as [|a l IH]; intros Hs; [done|].
  assert (Hl : sorted_metrics l).
  { intros i j x y Hij Hx Hy. apply (Hs (S i) (S j)); auto with lia. }
  rewrite filter_cons. case_decide; [|auto].
  intros i j x y Hij Hx Hy.
  destruct i as [|i], j as [|j]; simpl in Hx, Hy.
  - injection Hx as <-. injection Hy as <-. apply Qle_refl.
  - injection Hx as <-.
    apply list_elem_of_lookup_2, list_elem_of_filter in Hy as [_ Hy].
    apply list_elem_of_lookup in Hy as [k Hk].
    apply (Hs 0 (S k)); auto with lia.
  - exfalso; lia.
  - apply (IH Hl i j); auto with lia.
Qed.

(** ** [Rung.promotions_async] *)

Lemma promotions_async_unfold request_id x d self :
  d <> 0%Z ->
  exists index,
    index <= length (metrics self) /\
    (sorted_metrics (metrics self) ->
     search_inv (metrics self) x index index) /\
    promotions_async request_id x d self =
      promotions_async_at request_id x d index self.
Proof.
  intros Hd.
  destruct (search_metric_index_ok x self) as (index & Hsearch & Hle & Hinv).
  exists index. split; [done|]. split; [done|].
  unfold promotions_async, promotions_async_at.
  cbn [bind get].
  apply Z.eqb_neq in Hd. rewrite Hd.
  rewrite (bind_ok _ _ _ _ _ Hsearch).
  cbn [bind modify].
  destruct (Z.of_nat index <? _)%Z; [done|].
  destruct (negb _); [|done].
  cbn [bind get set_metrics metrics].
  rewrite length_list_insert_at.
  destruct (py_index _ _) as [k|]; [|done].
  cbn [bind from_option ret raise].
  destruct (_ !! k) as [entry|]; [|done].
  cbn [bind from_option ret raise].
  destruct (negb _); done.
Qed.

Lemma promotions_async_zero request_id x self :
  promotions_async request_id x 0 self = (Raise ZeroDivisionError, self).
Proof. reflexivity. Qed.

Lemma quota_step (n d : Z) :
  (1 <= d)%Z -> (0 <= n)%Z ->
  (0 <= n / d <= n)%Z /\
  ((n + 1) / d = n / d \/ (n + 1) / d = n / d + 1)%Z.
Proof.
  intros Hd Hn.
  assert (H1 := Z.div_mod n d ltac:(lia)).
  assert (H2 := Z.mod_pos_bound n d ltac:(lia)).
  assert (H3 := Z.div_mod (n + 1) d ltac:(lia)).
  assert (H4 := Z.mod_pos_bound (n + 1) d ltac:(lia)).
  split; [nia|].
  assert ((n + 1) / d - n / d < 2)%Z by nia.
  assert (0 <= (n + 1) / d - n / d)%Z by nia.
  lia.
Qed.

Lemma py_index_nonneg len (i : Z) :
  (0 <= i < Z.of_nat len)%Z -> py_index len i = Some (Z.to_nat i).
Proof.
  intros [H1 H2]. unfold py_index.
  apply Z.leb_le in H1. apply Z.ltb_lt in H2. now rewrite H1, H2.
Qed.

(** The method never runs out of fuel, keeps the other fields of the rung,
    and keeps a sorted list sorted, whatever the divisor and whatever the
    outcome. *)
Lemma promotions_async_frame request_id x d self :
  let r := promotions_async request_id x d self in
  r.1 <> OutOfFuel /\
  units_needed r.2 = units_needed self /\
  idx r.2 = idx self /\
  outstanding_trials r.2 = outstanding_trials self /\
  (sorted_metrics (metrics self) -> sorted_metrics (metrics r.2)).
Proof.
  destruct (decide (d = 0%Z)) as [->|Hd].
  { rewrite promotions_async_zero. simpl. done. }
  destruct (promotions_async_unfold request_id x d self Hd)
    as (index & Hle & Hinv & ->).
  unfold promotions_async_at.
  set (e := {| TrialMetric.request_id := request_id;
               TrialMetric.metric := x;
               TrialMetric.promoted := _ |}).
  assert (Hs1 : sorted_metrics (metrics self) ->
                sorted_metrics (list_insert_at index e (metrics self))).
  { intros Hs. apply sorted_list_insert_at; auto. }
  repeat case_match; simpl; repeat split; auto; try done.
  intros Hs. apply sorted_alter_promoted; auto.
Qed.

(** With a reduction factor of at least one, one call inserts one entry,
    returns at most one id and keeps the quota promoted. *)
Lemma promotions_async_step request_id x d self :
  (1 <= d)%Z ->
  sorted_metrics (metrics self) ->
  promoted_prefix (Z.of_nat (length (metrics self)) / d) (metrics self) ->
  exists ids self',
    promotions_async request_id x d self = (Ok ids, self') /\
    length ids <= 1 /\
    length (metrics self') = S (length (metrics self)) /\
    sorted_metrics (metrics self') /\
    promoted_prefix (Z.of_nat (length (metrics self')) / d) (metrics self').
Proof.
  intros Hd Hs Hp.
  destruct (promotions_async_unfold request_id x d self ltac:(lia))
    as (index & Hle & Hinv & Heq).
  rewrite Heq. clear Heq.
  assert (Hsorted : forall b,
    sorted_metrics
      (list_insert_at index
         {| TrialMetric.request_id := request_id;
            TrialMetric.metric := x;
            TrialMetric.promoted := b |} (metrics self))).
  { intros b. apply sorted_list_insert_at; auto. }
  unfold promotions_async_at in *.
  set (n := length (metrics self)) in *.
  destruct (quota_step (Z.of_nat n) d Hd ltac:(lia)) as [Hold Hnew].
  set (old := (Z.of_nat n / d)%Z) in *.
  set (new := ((Z.of_nat n + 1) / d)%Z) in *.
  set (e := {| TrialMetric.request_id := request_id;
               TrialMetric.metric := x;
               TrialMetric.promoted := (Z.of_nat index <? new)%Z |}) in *.
  assert (Hlen : Z.of_nat (S n) = (Z.of_nat n + 1)%Z) by lia.
  destruct (Z.of_nat index <? new)%Z eqn:Hnow.
  - (* the new entry is within the quota *)
    apply Z.ltb_lt in Hnow.
    eexists _, _. split; [done|]. simpl.
    rewrite length_list_insert_at. fold n. rewrite Hlen. fold new.
    split; [lia|]. split; [done|]. split; [try apply sorted_alter_promoted; apply Hsorted|].
    intros k a Hk Hlt.
    rewrite lookup_list_insert_at in Hk by done.
    repeat case_decide.
    + apply (Hp k a Hk). lia.
    + by injection Hk as <-.
    + apply (Hp (k - 1) a Hk). lia.
  - apply Z.ltb_ge in Hnow.
    destruct (negb (new =? old)%Z) eqn:Hgrow.
    + (* the quota grew by one: the entry at [old] takes the slot *)
      apply negb_true_iff, Z.eqb_neq in Hgrow.
      assert (Hnew' : new = (old + 1)%Z) by lia.
      rewrite py_index_nonneg by lia.
      assert (Hold_lt : Z.to_nat old < index) by lia.
      cbn [set_metrics metrics] in *.
      rewrite lookup_list_insert_at by done.
      rewrite decide_True by done.
      destruct (metrics self !! Z.to_nat old) as [entry|] eqn:Hentry.
      2: { apply lookup_ge_None in Hentry. fold n in Hentry. lia. }
      assert (Hprefix : forall l' q,
        (q <= new)%Z ->
        (forall k a, l' !! k = Some a -> k < index ->
           k <> Z.to_nat old -> metrics self !! k = Some a) ->
        (forall a, l' !! Z.to_nat old = Some a ->
           TrialMetric.promoted a = true) ->
        promoted_prefix q l').
      { intros l' q Hq Hsame Hat k a Hk Hlt.
        destruct (decide (k = Z.to_nat old)) as [->|Hne]; [by eauto|].
        apply (Hp k a); [|fold old; lia].
        apply Hsame; auto. lia. }
      destruct (negb (TrialMetric.promoted entry)) eqn:Hflag.
      * eexists _, _. split; [done|]. cbn [set_metrics metrics length].
        rewrite length_alter, length_list_insert_at.
        split; [lia|]. split; [done|]. split; [try apply sorted_alter_promoted; apply Hsorted|].
        apply Hprefix.
        -- fold n. rewrite Hlen. fold new. lia.
        -- intros k a Hk Hlt Hne.
           rewrite list_lookup_alter_ne in Hk by done.
           rewrite lookup_list_insert_at in Hk by done.
           by rewrite decide_True in Hk by done.
        -- intros a Ha. rewrite list_lookup_alter_eq in Ha.
           apply fmap_Some in Ha as (a0 & _ & ->). done.
      * apply negb_false_iff in Hflag.
        eexists _, _. split; [done|]. cbn [set_metrics metrics length].
        rewrite length_list_insert_at.
        split; [lia|]. split; [done|]. split; [try apply sorted_alter_promoted; apply Hsorted|].
        apply Hprefix.
        -- fold n. rewrite Hlen. fold new. lia.
        -- intros k a Hk Hlt Hne.
           rewrite lookup_list_insert_at in Hk by done.
           by rewrite decide_True in Hk by done.
        -- intros a Ha.
           rewrite lookup_list_insert_at in Ha by done.
           rewrite decide_True in Ha by done. congruence.
    + (* the quota did not grow *)
      apply negb_false_iff, Z.eqb_eq in Hgrow.
      eexists _, _. split; [done|]. cbn [set_metrics metrics length].
      rewrite length_list_insert_at. fold n. rewrite Hlen. fold new.
      split; [lia|]. split; [done|]. split; [try apply sorted_alter_promoted; apply Hsorted|].
      intros k a Hk Hlt.
      rewrite lookup_list_insert_at in Hk by done.
      rewrite decide_True in Hk by lia.
      apply (Hp k a Hk). fold old. lia.
Qed.

(** ** Binary64 arithmetic on integers below 2^53 *)

Section FloatFacts.

Local Open Scope Z_scope.

Lemma digits2_pos_bounds p :
  2 ^ (Zpos (digits2_pos p) - 1) <= Zpos p < 2 ^ Zpos (digits2_pos p).
Proof.
  induction p as [p IH|p IH|]; cbn [digits2_pos].
  - rewrite Pos2Z.inj_succ.
    replace (Z.succ (Zpos (digits2_pos p)) - 1) with (Z.succ (Zpos (digits2_pos p) - 1)) by lia.
    rewrite !Z.pow_succ_r by lia. lia.
  - rewrite Pos2Z.inj_succ.
    replace (Z.succ (Zpos (digits2_pos p)) - 1) with (Z.succ (Zpos (digits2_pos p) - 1)) by lia.
    rewrite !Z.pow_succ_r by lia. lia.
  - cbn. lia.
Qed.

Lemma Zdigits2_unique z n :
  1 <= n -> 2 ^ (n - 1) <= z < 2 ^ n -> Zdigits2 z = n.
Proof.
  intros Hn [Hlo Hhi].
  assert (0 < z) by (pose proof (Z.pow_pos_nonneg 2 (n - 1)); lia).
  destruct z as [|p|p]; try lia. cbn [Zdigits2].
  pose proof (digits2_pos_bounds p) as [Hlo' Hhi'].
  set (d := Zpos (digits2_pos p)) in *.
  assert (d - 1 < n) by (apply (Z.pow_lt_mono_r_iff 2); lia).
  assert (n - 1 < d) by (apply (Z.pow_lt_mono_r_iff 2); lia).
  lia.
Qed.

Lemma Zdigits2_bounds z :
  0 < z -> 1 <= Zdigits2 z /\ 2 ^ (Zdigits2 z - 1) <= z < 2 ^ Zdigits2 z.
Proof.
  intros Hz. destruct z as [|p|p]; try lia. cbn [Zdigits2].
  split; [lia|apply digits2_pos_bounds].
Qed.

Lemma Zdigits2_mul_pow2 z t :
  0 < z -> 0 <= t -> Zdigits2 (z * 2 ^ t) = Zdigits2 z + t.
Proof.
  intros Hz Ht. destruct (Zdigits2_bounds z Hz) as (Hd & Hlo & Hhi).
  apply Zdigits2_unique; [lia|].
  replace (Zdigits2 z + t - 1) with ((Zdigits2 z - 1) + t) by lia.
  rewrite !Z.pow_add_r by lia.
  assert (0 < 2 ^ t) by (apply Z.pow_pos_nonneg; lia).
  nia.
Qed.

Lemma iter_shr_exact p : forall m, 0 < m ->
  SpecFloat.iter_pos shr_1 p
    {| shr_m := m * 2 ^ Zpos p; shr_r := false; shr_s := false |} =
  {| shr_m := m; shr_r := false; shr_s := false |}.
Proof.
  assert (Hstep : forall m, 0 < m ->
    shr_1 {| shr_m := 2 * m; shr_r := false; shr_s := false |} =
    {| shr_m := m; shr_r := false; shr_s := false |}).
  { intros m Hm. destruct m; try lia. reflexivity. }
  induction p as [p IH|p IH|]; intros m Hm; cbn [SpecFloat.iter_pos].
  - assert (H2 : 0 < 2 ^ Zpos p) by (apply Z.pow_pos_nonneg; lia).
    replace (m * 2 ^ Zpos p~1) with (2 * ((m * 2 ^ Zpos p) * 2 ^ Zpos p)).
    2: { assert (E : 2 ^ Zpos p~1 = 2 * (2 ^ Zpos p * 2 ^ Zpos p)).
         { rewrite <- Z.pow_add_r, <- Z.pow_succ_r by lia. f_equal. lia. }
         rewrite E. ring. }
    rewrite Hstep by nia. rewrite IH by nia. apply IH. lia.
  - assert (H2 : 0 < 2 ^ Zpos p) by (apply Z.pow_pos_nonneg; lia).
    replace (m * 2 ^ Zpos p~0) with ((m * 2 ^ Zpos p) * 2 ^ Zpos p).
    2: { assert (E : 2 ^ Zpos p~0 = 2 ^ Zpos p * 2 ^ Zpos p).
         { rewrite <- Z.pow_add_r by lia. f_equal. lia. }
         rewrite E. ring. }
    rewrite IH by nia. apply IH. lia.
  - rewrite Z.pow_1_r, Z.mul_comm. by apply Hstep.
Qed.

Lemma fexp_normal e : -1021 <= e -> fexp PyFloat.prec PyFloat.emax e = e - 53.
Proof. intros He. unfold fexp, emin, PyFloat.prec, PyFloat.emax. lia. Qed.

Lemma binary_round_aux_exact M u E :
  2 ^ 52 <= M < 2 ^ 53 -> 0 <= u -> -1074 <= E <= 971 ->
  binary_round_aux PyFloat.prec PyFloat.emax false (M * 2 ^ u) (E - u) loc_Exact =
  S754_finite false (Z.to_pos M) E.
Proof.
  intros HM Hu HE.
  assert (HdM : Zdigits2 M = 53) by (apply Zdigits2_unique; [lia|exact HM]).
  assert (Hd : Zdigits2 (M * 2 ^ u) = 53 + u).
  { rewrite Zdigits2_mul_pow2 by lia. lia. }
  unfold binary_round_aux, shr_fexp.
  rewrite Hd. replace (53 + u + (E - u)) with (53 + E) by lia.
  rewrite fexp_normal by lia.
  replace (53 + E - 53 - (E - u)) with u by lia.
  assert (Hshr : shr (shr_record_of_loc (M * 2 ^ u) loc_Exact) (E - u) u =
                 ({| shr_m := M; shr_r := false; shr_s := false |}, E)).
  { unfold shr. destruct u as [|p|p]; try lia.
    - cbn [shr_record_of_loc]. rewrite Z.pow_0_r, Z.mul_1_r. f_equal. lia.
    - cbn [shr_record_of_loc]. rewrite iter_shr_exact by lia. f_equal. lia. }
  rewrite Hshr. cbn [shr_m loc_of_shr_record round_nearest_even].
  rewrite HdM, fexp_normal by lia.
  replace (53 + E - 53 - E) with 0 by lia.
  cbn [shr shr_record_of_loc shr_m].
  destruct M as [|m|m]; try lia.
  unfold PyFloat.emax, PyFloat.prec. replace (E <=? 1024 - 53) with true.
  - reflexivity.
  - symmetry. apply Z.leb_le. lia.
Qed.

Lemma pos_iter_xO m d : Zpos (Pos.iter xO m d) = Zpos m * 2 ^ Zpos d.
Proof.
  revert m. induction d as [|d IH] using Pos.peano_ind; intros m.
  - cbn [Pos.iter]. rewrite Pos2Z.inj_xO, Z.pow_1_r. ring.
  - rewrite Pos.iter_succ, Pos2Z.inj_xO, IH.
    rewrite Pos2Z.inj_succ, Z.pow_succ_r by lia. ring.
Qed.

Lemma digits_small z : 1 <= z < 2 ^ 53 -> 1 <= Zdigits2 z <= 53.
Proof.
  intros Hz. destruct (Zdigits2_bounds z ltac:(lia)) as (Hd & Hlo & Hhi).
  split; [done|].
  assert (Zdigits2 z - 1 < 53); [|lia].
  apply (Z.pow_lt_mono_r_iff 2); lia.
Qed.

Lemma normal_mantissa z :
  1 <= z < 2 ^ 53 ->
  2 ^ 52 <= z * 2 ^ (53 - Zdigits2 z) < 2 ^ 53.
Proof.
  intros Hz. destruct (Zdigits2_bounds z ltac:(lia)) as (Hd & Hlo & Hhi).
  pose proof (digits_small z Hz).
  assert (H52 : 2 ^ 52 = 2 ^ (Zdigits2 z - 1) * 2 ^ (53 - Zdigits2 z)).
  { rewrite <- Z.pow_add_r by lia. f_equal. lia. }
  assert (H53 : 2 ^ 53 = 2 ^ Zdigits2 z * 2 ^ (53 - Zdigits2 z)).
  { rewrite <- Z.pow_add_r by lia. f_equal. lia. }
  assert (0 < 2 ^ (53 - Zdigits2 z)) by (apply Z.pow_pos_nonneg; lia).
  rewrite H52, H53. nia.
Qed.

(** Rounding a value that fits in 53 bits is exact. *)
Lemma binary_round_exact z t :
  1 <= z < 2 ^ 53 -> 0 <= t ->
  binary_round PyFloat.prec PyFloat.emax false (Z.to_pos (z * 2 ^ t)) (- t)
  = normal z.
Proof.
  intros Hz Ht.
  pose proof (digits_small z Hz) as Hd.
  pose proof (normal_mantissa z Hz) as HM.
  assert (H2t : 0 < 2 ^ t) by (apply Z.pow_pos_nonneg; lia).
  unfold binary_round.
  change (Zpos (digits2_pos (Z.to_pos (z * 2 ^ t))))
    with (Zdigits2 (Zpos (Z.to_pos (z * 2 ^ t)))).
  rewrite Z2Pos.id by nia.
  rewrite Zdigits2_mul_pow2 by lia.
  replace (Zdigits2 z + t + - t) with (Zdigits2 z) by lia.
  rewrite fexp_normal by lia.
  unfold shl_align.
  destruct (Zdigits2 z - 53 - - t) as [|d|d] eqn:Hshift.
  - rewrite Z2Pos.id by nia.
    replace (z * 2 ^ t) with (z * 2 ^ (53 - Zdigits2 z) * 2 ^ 0)
      by (rewrite Z.pow_0_r, Z.mul_1_r; do 2 f_equal; lia).
    replace (- t) with (Zdigits2 z - 53 - 0) by lia.
    by rewrite binary_round_aux_exact by lia.
  - rewrite Z2Pos.id by nia.
    replace (z * 2 ^ t) with (z * 2 ^ (53 - Zdigits2 z) * 2 ^ Zpos d).
    2: { rewrite <- Z.mul_assoc, <- Z.pow_add_r by lia. do 2 f_equal. lia. }
    replace (- t) with (Zdigits2 z - 53 - Zpos d) by lia.
    by rewrite binary_round_aux_exact by lia.
  - rewrite pos_iter_xO, Z2Pos.id by nia.
    replace (z * 2 ^ t * 2 ^ Zpos d)
      with (z * 2 ^ (53 - Zdigits2 z) * 2 ^ 0).
    2: { rewrite Z.pow_0_r, Z.mul_1_r, <- Z.mul_assoc, <- Z.pow_add_r by lia.
         do 2 f_equal. lia. }
    replace (Zdigits2 z - 53) with (Zdigits2 z - 53 - 0) at 1 by lia.
    by rewrite binary_round_aux_exact by lia.
Qed.

Lemma of_int_exact z : 1 <= z < 2 ^ 53 -> PyFloat.of_int z = Ok (normal z).
Proof.
  intros Hz. unfold PyFloat.of_int, binary_normalize.
  destruct z as [|p|p]; try lia.
  pose proof (binary_round_exact (Zpos p) 0 Hz ltac:(lia)) as H.
  rewrite Z.pow_0_r, Z.mul_1_r in H. cbn [Z.to_pos] in H.
  change (- 0) with 0 in H. rewrite H.
  unfold normal. reflexivity.
Qed.

(** A power that fits in 53 bits is exact. *)
Lemma pow_exact d k :
  1 <= d < 2 ^ 53 -> d ^ Z.of_N k < 2 ^ 53 ->
  PyFloat.pow (normal d) k = Ok (normal (d ^ Z.of_N k)).
Proof.
  intros Hd Hk. destruct k as [|p]; [reflexivity|].
  pose proof (digits_small d Hd) as Hdd.
  pose proof (normal_mantissa d Hd) as HM.
  assert (Hpow : 1 <= d ^ Zpos p).
  { pose proof (Z.pow_le_mono_l 1 d (Zpos p) ltac:(lia)) as H.
    rewrite Z.pow_1_l in H; lia. }
  cbn [Z.of_N] in *. unfold PyFloat.pow, normal at 1. cbn [andb].
  set (s := 53 - Zdigits2 d) in *.
  assert (Hsp : 0 <= s * Zpos p) by nia.
  assert (H2sp : 0 < 2 ^ (s * Zpos p)) by (apply Z.pow_pos_nonneg; lia).
  replace (Z.to_pos (d * 2 ^ s) ^ p)%positive
    with (Z.to_pos (d ^ Zpos p * 2 ^ (s * Zpos p))).
  2: { apply Pos2Z.inj. rewrite Pos2Z.inj_pow, !Z2Pos.id.
       - rewrite Z.pow_mul_l, Z.pow_mul_r by lia. reflexivity.
       - lia.
       - nia. }
  replace ((Zdigits2 d - 53) * Zpos p) with (- (s * Zpos p)) by lia.
  rewrite binary_round_exact by lia.
  reflexivity.
Qed.

(** *** Division *)

Lemma binary_round_aux_split mx ex lx :
  binary_round_aux PyFloat.prec PyFloat.emax false mx ex lx =
  round_finish
    (round_nearest_even
       (shr_m (shr_fexp PyFloat.prec PyFloat.emax mx ex lx).1)
       (loc_of_shr_record (shr_fexp PyFloat.prec PyFloat.emax mx ex lx).1))
    (shr_fexp PyFloat.prec PyFloat.emax mx ex lx).2.
Proof.
  unfold binary_round_aux, round_finish.
  by destruct (shr_fexp _ _ mx ex lx).
Qed.

Lemma round_finish_to_int q1 e :
  2 ^ 52 <= q1 <= 2 ^ 53 -> -1000 <= e <= 0 ->
  PyFloat.to_int (round_finish q1 e) = Ok (q1 / 2 ^ (- e)).
Proof.
  intros Hq He. unfold round_finish, shr_fexp.
  destruct (decide (q1 = 2 ^ 53)) as [->|Hne].
  - change (Zdigits2 (2 ^ 53)) with 54.
    rewrite fexp_normal by lia.
    replace (54 + e - 53 - e) with 1 by lia.
    cbn [shr shr_record_of_loc SpecFloat.iter_pos].
    change (shr_m (shr_1 _)) with (2 ^ 52).
    change (2 ^ 52) with (Zpos (Z.to_pos (2 ^ 52))) at 1.
    cbv iota beta.
    replace (e + 1 <=? PyFloat.emax - PyFloat.prec) with true
      by (symmetry; apply Z.leb_le; unfold PyFloat.emax, PyFloat.prec; lia).
    cbn [PyFloat.to_int cond_Zopp]. f_equal.
    destruct (Z.leb_spec 0 (e + 1)).
    + assert (e = 0 \/ e = -1) as [-> | ->] by lia; reflexivity.
    + change (Zpos (Z.to_pos (2 ^ 52))) with (2 ^ 52).
      replace (2 ^ 53) with (2 * 2 ^ 52) by reflexivity.
      replace (2 ^ (- e)) with (2 * 2 ^ (- (e + 1))).
      2: { rewrite <- Z.pow_succ_r by lia. f_equal. lia. }
      rewrite Z.div_mul_cancel_l; [done| |lia].
      apply Z.pow_nonzero; lia.
  - assert (Hd : Zdigits2 q1 = 53) by (apply Zdigits2_unique; lia).
    rewrite Hd, fexp_normal by lia.
    replace (53 + e - 53 - e) with 0 by lia.
    cbn [shr shr_record_of_loc shr_m].
    destruct q1 as [|m|m]; try lia.
    replace (e <=? PyFloat.emax - PyFloat.prec) with true
      by (symmetry; apply Z.leb_le; unfold PyFloat.emax, PyFloat.prec; lia).
    cbn [PyFloat.to_int cond_Zopp]. f_equal.
    destruct (Z.leb_spec 0 e); [|done].
    assert (e = 0) as -> by lia.
    change (- 0) with 0. rewrite !Z.pow_0_r, Z.div_1_r. lia.
Qed.

Lemma loc_of_shr_record_of_loc m l :
  loc_of_shr_record (shr_record_of_loc m l) = l.
Proof. by destruct l as [|[]]. Qed.

(** The mantissa the rounding step leaves, for a quotient of 53 or 54
    digits: [q'] is the value it stands for, in units of the quotient. *)
Lemma round_step q ez lz :
  2 ^ 52 <= q < 2 ^ 54 -> -1000 <= ez <= -1 ->
  exists q1 q',
    round_nearest_even
      (shr_m (shr_fexp PyFloat.prec PyFloat.emax q ez lz).1)
      (loc_of_shr_record (shr_fexp PyFloat.prec PyFloat.emax q ez lz).1)
      = q1 /\
    2 ^ 52 <= q1 <= 2 ^ 53 /\
    q1 / 2 ^ (- (shr_fexp PyFloat.prec PyFloat.emax q ez lz).2)
      = q' / 2 ^ (- ez) /\
    -1000 <= (shr_fexp PyFloat.prec PyFloat.emax q ez lz).2 <= 0 /\
    (q' = q \/
     (q' = q - 1 /\ q mod 2 = 1) \/
     (q' = q + 1 /\
      ((q < 2 ^ 53 /\ (lz = loc_Inexact Eq \/ lz = loc_Inexact Gt))
       \/ 2 ^ 53 <= q))).
Proof.
  intros Hq Hez. unfold shr_fexp.
  destruct (Z.lt_ge_cases q (2 ^ 53)) as [Hlt|Hge].
  - assert (Hd : Zdigits2 q = 53) by (apply Zdigits2_unique; lia).
    rewrite Hd, fexp_normal by lia.
    replace (53 + ez - 53 - ez) with 0 by lia.
    cbn [shr fst snd]. rewrite loc_of_shr_record_of_loc.
    replace (shr_m (shr_record_of_loc q lz)) with q by (by destruct lz as [|[]]).
    destruct lz as [|[]]; cbn [round_nearest_even];
      try destruct (Z.even q).
    all: first
      [ exists q, q; split; [reflexivity|]; split; [lia|];
        split; [reflexivity|]; split; [lia|]; by left
      | exists (q + 1), (q + 1); split; [reflexivity|]; split; [lia|];
        split; [reflexivity|]; split; [lia|]; right; right;
        split; [reflexivity|]; left; split; [done|]; auto ].
  - assert (Hd : Zdigits2 q = 54) by (apply Zdigits2_unique; lia).
    rewrite Hd, fexp_normal by lia.
    replace (54 + ez - 53 - ez) with 1 by lia.
    cbn [shr fst snd SpecFloat.iter_pos].
    assert (Hcancel : forall x, (2 * x) / 2 ^ (- ez) = x / 2 ^ (- (ez + 1))).
    { intros x. replace (2 ^ (- ez)) with (2 * 2 ^ (- (ez + 1))).
      2: { rewrite <- Z.pow_succ_r by lia. f_equal. lia. }
      rewrite Z.div_mul_cancel_l; [done| |lia]. apply Z.pow_nonzero; lia. }
    destruct q as [|[p|p|]|]; try lia.
    + (* q = 2p + 1 *)
      assert (Hp : 2 ^ 52 <= Zpos p < 2 ^ 53) by lia.
      assert (Hodd : Zpos p~1 mod 2 = 1).
      { rewrite Pos2Z.inj_xI, Z.add_comm, Z.mul_comm. by rewrite Z.mod_add. }
      destruct lz as [|[]]; cbn [shr_record_of_loc shr_1 orb shr_m
        loc_of_shr_record round_nearest_even];
        try destruct (Z.even (Zpos p)).
      all: first
        [ exists (Zpos p), (Zpos p~1 - 1); split; [reflexivity|];
          split; [lia|]; split; [rewrite <- Hcancel; f_equal; lia|];
          split; [lia|]; right; left; by split
        | exists (Zpos p + 1), (Zpos p~1 + 1); split; [reflexivity|];
          split; [lia|]; split; [rewrite <- Hcancel; f_equal; lia|];
          split; [lia|]; right; right; split; [done|]; by right ].
    + (* q = 2p *)
      assert (Hp : 2 ^ 52 <= Zpos p < 2 ^ 53) by lia.
      exists (Zpos p), (Zpos p~0).
      destruct lz as [|[]]; cbn [shr_record_of_loc shr_1 orb shr_m
        loc_of_shr_record round_nearest_even].
      all: split; [reflexivity|]; split; [lia|];
        split; [rewrite <- Hcancel; f_equal; lia|]; split; [lia|]; by left.
Qed.

Lemma new_location_half n k :
  0 < n -> 0 <= k < n ->
  new_location n k = loc_Inexact Eq \/ new_location n k = loc_Inexact Gt ->
  n <= 2 * k.
Proof.
  intros Hn Hk. unfold new_location, new_location_even, new_location_odd.
  destruct (Z.even n); destruct (Z.eqb_spec k 0) as [->|_];
    try (intros [?|?]; discriminate).
  - destruct (Z.compare_spec (2 * k) n); intros [?|?]; try discriminate; lia.
  - destruct (Z.compare_spec (2 * k + 1) n); intros [?|?];
      try discriminate; lia.
Qed.

(** The integer part survives the rounding of the quotient. *)
Lemma div_round_floor a b K q' :
  1 <= a -> 1 <= b -> 1 <= K ->
  let q := (a * 2 ^ K) / b in
  let r := (a * 2 ^ K) mod b in
  (q' = q \/
   (q' = q - 1 /\ q mod 2 = 1) \/
   (q' = q + 1 /\ ((b <= 2 * r /\ b < 2 ^ (K + 1)) \/ b < 2 ^ K))) ->
  q' / 2 ^ K = a / b.
Proof.
  intros Ha Hb HK q r Hcases.
  assert (H2K : 0 < 2 ^ K) by (apply Z.pow_pos_nonneg; lia).
  assert (H2K' : 2 ^ K = 2 * 2 ^ (K - 1)).
  { rewrite <- Z.pow_succ_r by lia. f_equal. lia. }
  assert (H2K1 : 2 ^ (K + 1) = 2 * 2 ^ K).
  { rewrite <- Z.pow_succ_r by lia. f_equal; lia. }
  assert (0 < 2 ^ (K - 1)) by (apply Z.pow_pos_nonneg; lia).
  assert (Hq : q / 2 ^ K = a / b).
  { subst q. rewrite Z.div_div by lia.
    rewrite Z.div_mul_cancel_r by lia. done. }
  pose proof (Z.div_mod (a * 2 ^ K) b ltac:(lia)) as Hqr.
  pose proof (Z.mod_pos_bound (a * 2 ^ K) b ltac:(lia)) as Hr.
  pose proof (Z.div_mod a b ltac:(lia)) as Hab.
  pose proof (Z.mod_pos_bound a b ltac:(lia)) as Hab'.
  pose proof (Z.div_mod q (2 ^ K) ltac:(lia)) as Hq2.
  pose proof (Z.mod_pos_bound q (2 ^ K) ltac:(lia)) as Hq2'.
  fold q r in Hqr, Hr.
  set (Q0 := a / b) in *. set (rho := a mod b) in *.
  set (v := q mod 2 ^ K) in *. rewrite Hq in Hq2.
  destruct Hcases as [->|[[-> Hodd]|[-> Hup]]]; [done| |].
  - (* rounded down from an odd quotient *)
    assert (v <> 0).
    { intros Hv. rewrite Hv, Z.add_0_r, H2K' in Hq2.
      rewrite Hq2 in Hodd.
      replace (2 * 2 ^ (K - 1) * Q0) with (2 ^ (K - 1) * Q0 * 2) in Hodd by ring.
      rewrite Z.mod_mul in Hodd by lia. lia. }
    symmetry. apply (Z.div_unique _ _ Q0 (v - 1)); lia.
  - (* rounded up *)
    destruct (decide (v + 1 < 2 ^ K)) as [Hlt|Hge].
    { symmetry. apply (Z.div_unique _ _ Q0 (v + 1)); lia. }
    exfalso. assert (Hv : v = 2 ^ K - 1) by lia.
    assert (Hgap : ((Q0 + 1) * b - a) * 2 ^ K = b - r) by nia.
    assert (1 <= (Q0 + 1) * b - a) by nia.
    assert (2 ^ K <= b - r) by nia.
    destruct Hup as [[Hhalf Hb1]|Hb0]; lia.
Qed.

(** [int(a / b)] for two integers below [2^53] held as floats is the
    integer quotient. *)
Lemma truediv_to_int a b :
  1 <= a < 2 ^ 53 -> 1 <= b < 2 ^ 53 ->
  exists f,
    PyFloat.truediv (normal a) (normal b) = Ok f /\
    PyFloat.to_int f = Ok (a / b).
Proof.
  intros Ha Hb.
  pose proof (digits_small a Ha) as Hda.
  pose proof (digits_small b Hb) as Hdb.
  pose proof (normal_mantissa a Ha) as HMA.
  pose proof (normal_mantissa b Hb) as HMB.
  eexists. split; [reflexivity|].
  unfold normal. cbn [SFdiv xorb].
  set (sa := 53 - Zdigits2 a) in *. set (sb := 53 - Zdigits2 b) in *.
  set (MA := a * 2 ^ sa) in *. set (MB := b * 2 ^ sb) in *.
  set (K := 53 + sa - sb).
  assert (H2sa : 0 < 2 ^ sa) by (apply Z.pow_pos_nonneg; lia).
  assert (H2sb : 0 < 2 ^ sb) by (apply Z.pow_pos_nonneg; lia).
  assert (H2K : 0 < 2 ^ K) by (apply Z.pow_pos_nonneg; lia).
  assert (HdA : Zdigits2 MA = 53) by (apply Zdigits2_unique; lia).
  assert (HdB : Zdigits2 MB = 53) by (apply Zdigits2_unique; lia).
  unfold SFdiv_core_binary.
  rewrite !Z2Pos.id by lia. rewrite HdA, HdB.
  replace (53 + (Zdigits2 a - 53) - (53 + (Zdigits2 b - 53)))
    with (- K + 53) by lia.
  rewrite fexp_normal by lia.
  replace (Zdigits2 a - 53 - (Zdigits2 b - 53)) with (- K + 53) by lia.
  replace (Z.min (- K + 53 - 53) (- K + 53)) with (- K) by lia.
  replace (- K + 53 - - K) with 53 by lia.
  cbv iota. rewrite Z.shiftl_mul_pow2 by lia.
  change (IntDef.Z.div_eucl (MA * 2 ^ 53) MB)
    with (Z.div_eucl (MA * 2 ^ 53) MB).
  assert (Heucl : Z.div_eucl (MA * 2 ^ 53) MB =
                  ((MA * 2 ^ 53) / MB, (MA * 2 ^ 53) mod MB)).
  { unfold Z.div, Z.modulo. by destruct (Z.div_eucl _ _). }
  rewrite Heucl. cbv iota beta.
  assert (Hnum : MA * 2 ^ 53 = (a * 2 ^ K) * 2 ^ sb).
  { subst MA K. replace (53 + sa - sb) with (sa + 53 - sb) by lia.
    rewrite <- !Z.mul_assoc, <- !Z.pow_add_r by lia.
    do 2 f_equal. lia. }
  assert (Hq : (MA * 2 ^ 53) / MB = (a * 2 ^ K) / b).
  { rewrite Hnum. subst MB. apply Z.div_mul_cancel_r; lia. }
  assert (Hr : (MA * 2 ^ 53) mod MB = ((a * 2 ^ K) mod b) * 2 ^ sb).
  { rewrite Hnum. subst MB. apply Z.mul_mod_distr_r; lia. }
  set (q := (MA * 2 ^ 53) / MB) in *.
  set (r := (MA * 2 ^ 53) mod MB) in *.
  assert (Hqrange : 2 ^ 52 <= q < 2 ^ 54).
  { subst q. split.
    - apply Z.div_le_lower_bound; [lia|].
      change (2 ^ 53) with (2 * 2 ^ 52) in *. nia.
    - apply Z.div_lt_upper_bound; [lia|].
      change (2 ^ 54) with (2 * 2 ^ 53) in *. nia. }
  rewrite binary_round_aux_split.
  destruct (round_step q (- K) (new_location MB r) Hqrange ltac:(lia))
    as (q1 & q' & -> & Hq1 & Hval & He & Hcases).
  rewrite round_finish_to_int by lia.
  rewrite Hval. replace (- - K) with K by lia. f_equal.
  apply div_round_floor; try lia.
  cbv zeta. rewrite <- Hq. fold q.
  destruct Hcases as [->|[[-> Hodd]|[-> Hup]]]; [by left|right; by left|].
  right. right. split; [done|].
  pose proof (Z.mod_pos_bound (MA * 2 ^ 53) MB ltac:(lia)) as Hrb.
  fold r in Hrb.
  destruct Hup as [[Hlt Hloc]|Hge].
  - left. split.
    + apply new_location_half in Hloc; [|lia|lia].
      rewrite Hr in Hloc. subst MB. nia.
    + assert (b < 2 ^ (53 - sb)).
      { apply (Z.mul_lt_mono_pos_r (2 ^ sb)); [lia|].
        rewrite <- Z.pow_add_r by lia.
        replace (53 - sb + sb) with 53 by lia. lia. }
      assert (2 ^ (53 - sb) <= 2 ^ (K + 1))
        by (apply Z.pow_le_mono_r; lia).
      lia.
  - right.
    pose proof (Z.mul_div_le (a * 2 ^ K) b ltac:(lia)) as Hle.
    rewrite <- Hq in Hle. fold q in Hle.
    change (2 ^ 53) with 9007199254740992 in *. nia.
Qed.

End FloatFacts.

(** ** Claims about a single rung *)

(** C7.  On a rung whose metrics list is sorted ascending,
    [_search_metric_index] returns (without raising and without touching
    the rung) the first position whose entry has a metric value strictly
    greater than the searched value: every entry before the index is at
    most the value, every entry from the index on exceeds it, so entries
    equal to the value all lie before the index and a new equal entry goes
    after them. *)
Theorem search_metric_index_first_greater (self : Rung) (x : Q) :
  sorted_metrics (metrics self) ->
  exists index,
    _search_metric_index x self = (Ok index, self) /\
    index <= length (metrics self) /\
    (forall k e, metrics self !! k = Some e -> k < index ->
       (TrialMetric.metric e <= x)%Q) /\
    (forall k e, metrics self !! k = Some e -> index <= k ->
       (x < TrialMetric.metric e)%Q) /\
    (forall k e, metrics self !! k = Some e ->
       (TrialMetric.metric e == x)%Q -> k < index).
Proof.
  intros Hs.
  destruct (search_metric_index_ok x self) as (index & Heq & Hle & Hinv).
  destruct (Hinv Hs) as [Hbefore Hafter].
  exists index. repeat split; auto.
  intros k e Hk Heqx.
  destruct (decide (k < index)) as [|Hge]; [done|].
  exfalso. apply (Qlt_irrefl x).
  rewrite <- Heqx at 2. apply (Hafter k e Hk). lia.
Qed.

Lemma search_metric_index_first_greater_witness :
  exists index,
    _search_metric_index 3 example_rung = (Ok index, example_rung) /\
    index <= length (metrics example_rung) /\
    (forall k e, metrics example_rung !! k = Some e -> k < index ->
       (TrialMetric.metric e <= 3)%Q) /\
    (forall k e, metrics example_rung !! k = Some e -> index <= k ->
       (3 < TrialMetric.metric e)%Q) /\
    (forall k e, metrics example_rung !! k = Some e ->
       (TrialMetric.metric e == 3)%Q -> k < index).
Proof.
  apply (search_metric_index_first_greater example_rung 3).
  apply sorted_metricsb_correct. vm_compute. reflexivity.
Defined.

Lemma insert_all_snoc d arrivals a self :
  insert_all d (arrivals ++ [a]) self =
  snd (promotions_async a.1 a.2 d (insert_all d arrivals self)).
Proof. unfold insert_all. by rewrite foldl_app. Qed.

(** C1 (as amended).  After [n] insertions through [promotions_async] with
    a reduction factor [d >= 1] into a fresh rung, the rung holds [n]
    entries sorted ascending and the [floor(n/d)] entries with the smallest
    metric values (the first [floor(n/d)] positions) all have
    [promoted = true], whatever the order of arrival.  (Entries beyond the
    quota may be promoted as well.) *)
Theorem promotions_async_quota_promoted (d : Z) (arrivals : list (UUID * Q))
    (units i : Z) :
  (1 <= d)%Z ->
  let self := insert_all d arrivals (new_rung units i) in
  length (metrics self) = length arrivals /\
  sorted_metrics (metrics self) /\
  forall k e,
    metrics self !! k = Some e ->
    (Z.of_nat k < Z.of_nat (length arrivals) / d)%Z ->
    TrialMetric.promoted e = true.
Proof.
  intros Hd. cbv zeta.
  induction arrivals as [|a arrivals IH] using rev_ind.
  - simpl. split; [done|]. split; [apply sorted_metrics_nil|].
    intros k e Hk. by rewrite lookup_nil in Hk.
  - destruct IH as (Hlen & Hs & Hp).
    rewrite insert_all_snoc.
    destruct (promotions_async_step a.1 a.2 d _ Hd Hs)
      as (ids & self' & -> & _ & Hlen' & Hs' & Hp').
    { intros k e Hk Hlt. apply (Hp k e Hk). by rewrite <- Hlen. }
    simpl. rewrite length_app. simpl.
    split; [lia|]. split; [done|].
    intros k e Hk Hlt. apply (Hp' k e Hk).
    rewrite Hlen', Hlen. by replace (S (length arrivals))
      with (length arrivals + 1) by lia.
Qed.

Lemma promotions_async_quota_promoted_witness :
  let self := insert_all 2 [(1%N, 5%Q); (2%N, 3%Q); (3%N, 1%Q)]
                (new_rung 4 0) in
  length (metrics self) = 3 /\
  sorted_metrics (metrics self) /\
  forall k e,
    metrics self !! k = Some e ->
    (Z.of_nat k < Z.of_nat 3 / 2)%Z ->
    TrialMetric.promoted e = true.
Proof.
  apply (promotions_async_quota_promoted 2
           [(1%N, 5%Q); (2%N, 3%Q); (3%N, 1%Q)] 4 0).
  lia.
Defined.

(** C1 as stated fails: with reduction factor 2 the arrivals 5, 3, 1 leave
    two promoted entries although [floor(3/2) = 1]; the same three values
    arriving as 1, 3, 5 leave one. *)
Lemma promotions_async_quota_counterexample :
  promoted_count
    (metrics (insert_all 2 [(1%N, 5%Q); (2%N, 3%Q); (3%N, 1%Q)]
                (new_rung 4 0))) = 2 /\
  Z.to_nat (Z.of_nat 3 / 2) = 1 /\
  promoted_count
    (metrics (insert_all 2 [(3%N, 1%Q); (2%N, 3%Q); (1%N, 5%Q)]
                (new_rung 4 0))) = 1.
Proof. vm_compute. done. Qed.

(** ** Weakest preconditions for the state monad *)

Lemma wp_bind {S A B} (m : M S A) (f : A -> M S B) Q s :
  wp m (wp_cont f Q) s -> wp (bind m f) Q s.
Proof.
  unfold wp, wp_cont, bind. destruct (m s) as [[a|e|] s']; simpl; auto.
Qed.

Lemma wp_mono {S A} (m : M S A) (Q Q' : Outcome A -> S -> Prop) s :
  wp m Q s -> (forall o s', Q o s' -> Q' o s') -> wp m Q' s.
Proof. unfold wp. auto. Qed.

Lemma wp_ret {S A} (a : A) (Q : Outcome A -> S -> Prop) s :
  Q (Ok a) s -> wp (ret a) Q s.
Proof. done. Qed.

Lemma wp_raise {S A} e (Q : Outcome A -> S -> Prop) s :
  Q (Raise e) s -> wp (raise e) Q s.
Proof. done. Qed.

Lemma wp_get {S} (Q : Outcome S -> S -> Prop) s :
  Q (Ok s) s -> wp get Q s.
Proof. done. Qed.

Lemma wp_modify {S} (f : S -> S) (Q : Outcome unit -> S -> Prop) s :
  Q (Ok tt) (f s) -> wp (modify f) Q s.
Proof. done. Qed.

Lemma wp_from_option {S A} e (o : option A) (Q : Outcome A -> S -> Prop) s :
  match o with Some a => Q (Ok a) s | None => Q (Raise e) s end ->
  wp (from_option e o) Q s.
Proof. by destruct o. Qed.

Lemma wp_lift {S A} (o : Outcome A) (Q : Outcome A -> S -> Prop) s :
  Q o s -> wp (lift o) Q s.
Proof. done. Qed.

Lemma wp_call_rung {A} i (method : M Rung A) (Q : Outcome A -> St -> Prop) s :
  match rungs s !! i with
  | None => Q (Raise IndexError) s
  | Some self =>
      Q (method self).1 (set_rungs (fun l => <[i := (method self).2]> l) s)
  end ->
  wp (call_rung i method) Q s.
Proof.
  unfold wp, call_rung. destruct (rungs s !! i) as [self|]; [|done].
  by destruct (method self).
Qed.

(** Projections of updated states and rungs. *)
Ltac st_simpl :=
  cbn [max_length max_trials num_rungs divisor max_concurrent_trials
       is_smaller_better rungs trial_rungs pending_trials completed_trials
       invalid_trials early_exit_trials closed_trials draws
       set_rungs set_trial_rungs set_pending_trials set_completed_trials
       set_invalid_trials set_early_exit_trials set_closed_trials set_draws
       units_needed idx metrics outstanding_trials
       set_metrics set_outstanding_trials new_rung].

Ltac st_simpl_in H :=
  cbn [max_length max_trials num_rungs divisor max_concurrent_trials
       is_smaller_better rungs trial_rungs pending_trials completed_trials
       invalid_trials early_exit_trials closed_trials draws
       set_rungs set_trial_rungs set_pending_trials set_completed_trials
       set_invalid_trials set_early_exit_trials set_closed_trials set_draws
       units_needed idx metrics outstanding_trials
       set_metrics set_outstanding_trials new_rung] in H.

(** A case split on an option, unless a hypothesis already tells. *)
Ltac wp_case_option o :=
  match goal with
  | H : o = Some _ |- _ => rewrite H
  | H : o = None |- _ => rewrite H
  | _ => destruct o eqn:?
  end.

(** One step of symbolic execution. *)
Ltac wp_step :=
  lazymatch goal with
  | |- wp (bind _ _) _ _ => apply wp_bind
  | |- wp (ret _) _ _ => apply wp_ret
  | |- wp (raise _) _ _ => apply wp_raise
  | |- wp get _ _ => apply wp_get
  | |- wp (modify _) _ _ => apply wp_modify
  | |- wp (from_option _ _) _ _ => apply wp_from_option
  | |- wp (lift _) _ _ => apply wp_lift
  | |- wp (call_rung _ _) _ _ => apply wp_call_rung
  | |- wp (trial_rung_of _) _ _ => unfold trial_rung_of
  | |- wp (rung_at _) _ _ => unfold rung_at
  | |- wp (update_rung _ _) _ _ => unfold update_rung
  | |- wp (new_create _ _) _ _ => unfold new_create
  | |- wp_cont _ _ (Ok _) _ => unfold wp_cont at 1
  | |- wp_cont _ _ (Raise _) _ => unfold wp_cont at 1
  | |- wp_cont _ _ OutOfFuel _ => unfold wp_cont at 1
  | |- wp (if ?b then _ else _) _ _ => destruct b eqn:?
  | |- wp (match ?o with Some _ => _ | None => _ end) _ _ =>
      wp_case_option o
  | |- match ?o with Some _ => _ | None => _ end => wp_case_option o
  end.

Ltac wp_steps := repeat (wp_step; cbn beta; st_simpl).

(** Symbolic execution up to the next lookup. *)
Ltac wp_step_to_lookup :=
  lazymatch goal with
  | |- match _ with Some _ => _ | None => _ end => fail
  | _ => wp_step
  end.

Ltac wp_steps_to_lookup := repeat (wp_step_to_lookup; cbn beta; st_simpl).

Lemma wp_run {S A} (m : M S A) s o s' :
  wp m (fun o' s'' => o' = o /\ s'' = s') s -> m s = (o, s').
Proof. unfold wp. destruct (m s). simpl. by intros [-> ->]. Qed.

Lemma wp_of_run {S A} (m : M S A) s o s' (Q : Outcome A -> S -> Prop) :
  m s = (o, s') -> Q o s' -> wp m Q s.
Proof. unfold wp. by intros ->. Qed.

(** ** Claims about single handlers *)

Section HandlerClaims.

Context (uuid4 : nat -> UUID) (search_space : nat -> HParams).

(** C5.  [on_trial_closed] never raises; it increments [completed_trials],
    adds the id to [closed_trials], and returns [[Shutdown]] exactly when,
    after the increment, [pending_trials = 0] and
    [completed_trials = max_trials]; otherwise it returns the empty list. *)
Theorem on_trial_closed_spec (request_id : UUID) (s : St) :
  let s' :=
    set_closed_trials (add_to_set request_id)
      (set_completed_trials (fun n => n + 1)%Z s) in
  on_trial_closed request_id s =
    (Ok (if (pending_trials s =? 0)%Z
            && (completed_trials s + 1 =? max_trials s)%Z
         then [Shutdown] else []), s') /\
  completed_trials s' = (completed_trials s + 1)%Z /\
  closed_trials s' = {[request_id]} ∪ closed_trials s /\
  pending_trials s' = pending_trials s /\
  rungs s' = rungs s /\
  trial_rungs s' = trial_rungs s.
Proof.
  cbv zeta. split; [|done].
  unfold on_trial_closed. cbn [bind modify get].
  cbn [set_closed_trials set_completed_trials pending_trials
       completed_trials max_trials].
  by destruct (_ && _).
Qed.

(** C10.  [on_validation_completed] asserts that the metric is a float:
    for a metric that is not one it raises [AssertionError] and the search
    state is the one it was called with. *)
Theorem on_validation_completed_asserts_float (request_id : UUID)
    (metric : PyValue) (train_length : Z) (s : St) :
  is_float metric = false ->
  on_validation_completed uuid4 search_space request_id metric
    train_length s = (Raise AssertionError, s).
Proof. by destruct metric. Qed.

(** C8 (as amended).  [on_trial_exited_early] compares the reason with
    [INVALID_HP] only: for every other value, whether [ERRORED],
    [USER_CANCELLED] or a value outside the enumeration, it decrements
    [pending_trials], adds the trial to [early_exit_trials] and
    [closed_trials] and hands it to the promotion procedure with the worst
    metric; nothing is raised on account of the reason. *)
Theorem on_trial_exited_early_other_reasons (request_id : UUID)
    (exited_reason : PyValue) (s : St) :
  is_INVALID_HP exited_reason = false ->
  on_trial_exited_early uuid4 search_space request_id exited_reason s =
  _promote_async uuid4 search_space request_id float_max
    (set_closed_trials (add_to_set request_id)
       (set_early_exit_trials (add_to_set request_id)
          (set_pending_trials (fun n => n - 1)%Z s))).
Proof.
  intros Hreason. unfold on_trial_exited_early.
  rewrite Hreason. reflexivity.
Qed.

End HandlerClaims.

(** *** The [INVALID_HP] branch *)

Lemma purge_loop_ok request_id range s :
  (forall i, i ∈ range -> i < length (rungs s)) ->
  purge_loop request_id range s =
    (Ok tt,
     set_rungs
       (fun l => foldl (fun l i => alter (purge_metrics request_id) i l)
                   l range) s).
Proof.
  revert s. induction range as [|i range IH]; intros s Hrange.
  - by destruct s.
  - apply wp_run. cbn [purge_loop]. wp_steps.
    + eapply wp_of_run; [apply IH|done].
      intros j Hj. cbn [set_rungs rungs]. rewrite length_alter.
      apply Hrange. set_solver.
    + exfalso.
      match goal with H : _ !! _ = None |- _ => apply lookup_ge_None in H end.
      specialize (Hrange i ltac:(set_solver)). lia.
Qed.

Lemma lookup_foldl_alter_seq {A} (f : A -> A) (l : list A) n i :
  foldl (fun l i => alter f i l) l (seq 0 n) !! i =
  if decide (i < n) then f <$> l !! i else l !! i.
Proof.
  induction n as [|n IH].
  - cbn [seq foldl]. case_decide; [lia|done].
  - rewrite seq_S, foldl_app. cbn [foldl Nat.add].
    rewrite list_lookup_alter.
    destruct (decide (n = i)) as [->|]; rewrite IH;
      repeat case_decide; try lia; done.
Qed.

Section InvalidHP.

Context (uuid4 : nat -> UUID) (search_space : nat -> HParams).

(** C4.  [on_trial_exited_early] with [INVALID_HP] for a trial registered
    at rung [r] returns exactly [Close] for the trial, [Create] for a
    replacement with the next fresh id and [ValidateAfter] for it with the
    threshold of rung 0.  In the state it leaves, the trial's entries are
    gone from the rungs 0..r, the rungs above are untouched, rung [r] has
    one outstanding trial less, the trial is in [closed_trials] and in
    [early_exit_trials], [invalid_trials] is one higher, the replacement is
    registered at rung 0, and [pending_trials] was decremented for the
    exit and incremented for the replacement. *)
Theorem on_trial_exited_early_invalid_hp (request_id : UUID) (r : nat)
    (s : St) :
  trial_rungs s !! request_id = Some r ->
  r < length (rungs s) ->
  exists rung0 s',
    rungs s !! 0 = Some rung0 /\
    on_trial_exited_early uuid4 search_space request_id
      (VExitedReason INVALID_HP) s =
      (Ok [Close request_id;
           Create (uuid4 (draws s)) (search_space (draws s));
           ValidateAfter (uuid4 (draws s)) (units_needed rung0)], s') /\
    length (rungs s') = length (rungs s) /\
    (forall i rung, rungs s !! i = Some rung ->
       rungs s' !! i = Some (purged_rung request_id r i rung)) /\
    closed_trials s' = {[request_id]} ∪ closed_trials s /\
    early_exit_trials s' = {[request_id]} ∪ early_exit_trials s /\
    invalid_trials s' = (invalid_trials s + 1)%Z /\
    trial_rungs s' = <[uuid4 (draws s) := 0]> (trial_rungs s) /\
    pending_trials s' = (pending_trials s - 1 + 1)%Z /\
    completed_trials s' = completed_trials s /\
    draws s' = S (draws s).
Proof.
  intros Hreg Hr.
  destruct (rungs s !! 0) as [rung0|] eqn:H0.
  2: { apply lookup_ge_None in H0. lia. }
  destruct (rungs s !! r) as [rung_r|] eqn:Hrung.
  2: { apply lookup_ge_None in Hrung. lia. }
  exists rung0. eexists. split; [done|].
  split.
  - apply wp_run. unfold on_trial_exited_early.
    cbn [is_INVALID_HP]. wp_steps.
    eapply wp_of_run.
    { apply purge_loop_ok.
      intros i Hi. st_simpl. rewrite length_alter.
      apply elem_of_seq in Hi. lia. }
    assert (Hu : units_needed <$> (purge_metrics request_id <$>
        (if decide (r = 0) then
           set_outstanding_trials (fun n => n - 1)%Z <$> rungs s !! r
         else rungs s !! 0)) = Some (units_needed rung0)).
    { case_decide; subst; rewrite ?H0; [|done].
      by rewrite Hrung in H0; injection H0 as ->. }
    wp_steps_to_lookup.
    rewrite lookup_foldl_alter_seq, decide_True by lia.
    rewrite list_lookup_alter.
    destruct (purge_metrics request_id <$> _) as [rung0'|] eqn:E; [|done].
    injection Hu as Hu. wp_steps.
    cbn [fst snd app]. rewrite Hu. split; reflexivity.
  - cbn [rungs set_rungs closed_trials early_exit_trials invalid_trials
         trial_rungs pending_trials completed_trials draws
         set_pending_trials set_early_exit_trials
         set_closed_trials set_invalid_trials set_draws set_trial_rungs].
    split.
    { clear. generalize (seq 0 (r + 1)).
      intros range. revert s.
      assert (Hlen : forall (f : Rung -> Rung) range (l : list Rung),
        length (foldl (fun l i => alter f i l) l range) = length l).
      { intros f range'. induction range' as [|i range' IH]; intros l; [done|].
        simpl. by rewrite IH, length_alter. }
      intros s. by rewrite Hlen, length_alter. }
    split; [|by repeat split; try lia].
    intros i rung Hi.
    rewrite lookup_foldl_alter_seq, list_lookup_alter.
    unfold purged_rung.
    destruct (decide (r = i)) as [->|]; rewrite Hi;
      repeat case_decide; try lia; destruct rung; reflexivity.
Qed.

End InvalidHP.

Lemma on_validation_completed_asserts_float_witness :
  is_float (VInt 1) = false /\
  on_validation_completed example_uuid4 example_search_space 100 (VInt 1) 4
    example_state_promoted = (Raise AssertionError, example_state_promoted).
Proof.
  split; [reflexivity|].
  apply (on_validation_completed_asserts_float example_uuid4
           example_search_space 100 (VInt 1) 4 example_state_promoted).
  reflexivity.
Defined.

Lemma on_trial_exited_early_other_reasons_witness :
  is_INVALID_HP (VStr "TIMEOUT") = false /\
  on_trial_exited_early example_uuid4 example_search_space 101
    (VStr "TIMEOUT") example_state_promoted =
  _promote_async example_uuid4 example_search_space 101 float_max
    (set_closed_trials (add_to_set 101)
       (set_early_exit_trials (add_to_set 101)
          (set_pending_trials (fun n => n - 1)%Z example_state_promoted))).
Proof.
  split; [reflexivity|].
  apply (on_trial_exited_early_other_reasons example_uuid4
           example_search_space 101 (VStr "TIMEOUT") example_state_promoted).
  reflexivity.
Defined.

(** C8 as stated fails: a reason outside the enumeration does not raise;
    the trial is recorded as an early exit and the handler returns
    normally. *)
Lemma on_trial_exited_early_foreign_reason_counterexample :
  exists s',
    on_trial_exited_early example_uuid4 example_search_space 101
      (VStr "TIMEOUT") example_state_promoted = (Ok [], s') /\
    101%N ∈ early_exit_trials s'.
Proof.
  eexists. split; [vm_compute; reflexivity|].
  vm_compute. set_solver.
Qed.

Lemma on_trial_exited_early_invalid_hp_witness :
  trial_rungs example_state_promoted !! 101%N = Some 1 /\
  1 < length (rungs example_state_promoted) /\
  exists rung0 s',
    rungs example_state_promoted !! 0 = Some rung0 /\
    on_trial_exited_early example_uuid4 example_search_space 101
      (VExitedReason INVALID_HP) example_state_promoted =
      (Ok [Close 101;
           Create (example_uuid4 (draws example_state_promoted))
             (example_search_space (draws example_state_promoted));
           ValidateAfter (example_uuid4 (draws example_state_promoted))
             (units_needed rung0)], s') /\
    length (rungs s') = length (rungs example_state_promoted) /\
    (forall i rung, rungs example_state_promoted !! i = Some rung ->
       rungs s' !! i = Some (purged_rung 101 1 i rung)) /\
    closed_trials s' = {[101%N]} ∪ closed_trials example_state_promoted /\
    early_exit_trials s'
      = {[101%N]} ∪ early_exit_trials example_state_promoted /\
    invalid_trials s' = (invalid_trials example_state_promoted + 1)%Z /\
    trial_rungs s'
      = <[example_uuid4 (draws example_state_promoted) := 0]>
          (trial_rungs example_state_promoted) /\
    pending_trials s'
      = (pending_trials example_state_promoted - 1 + 1)%Z /\
    completed_trials s' = completed_trials example_state_promoted /\
    draws s' = S (draws example_state_promoted).
Proof.
  split; [vm_compute; reflexivity|].
  split; [vm_compute; lia|].
  apply (on_trial_exited_early_invalid_hp example_uuid4 example_search_space
           101 1 example_state_promoted).
  - vm_compute. reflexivity.
  - vm_compute. lia.
Defined.

(** ** Termination of [_promote_async] *)

Lemma refines_refl {A} (m : M St A) : refines m m.
Proof. by intros s. Qed.

Lemma refines_bind {A B} (m m' : M St A) (f f' : A -> M St B) :
  refines m m' -> (forall a, refines (f a) (f' a)) ->
  refines (bind m f) (bind m' f').
Proof.
  intros Hm Hf s. unfold bind.
  destruct (m s) as [[a|e|] s1] eqn:E; simpl; intros Hne.
  - rewrite (Hm s), E by (by rewrite E). by apply Hf.
  - by rewrite (Hm s), E by (by rewrite E).
  - done.
Qed.

Lemma refines_trans {A} (m1 m2 m3 : M St A) :
  refines m1 m2 -> refines m2 m3 -> refines m1 m3.
Proof.
  intros H12 H23 s Hne.
  rewrite <- (H12 s Hne). apply H23. by rewrite (H12 s Hne).
Qed.

Section Fuel.

Context (uuid4 : nat -> UUID) (search_space : nat -> HParams).

Lemma close_metrics_loop_fueled entries ops s :
  wp (close_metrics_loop entries ops) fueled s.
Proof.
  revert ops s. induction entries as [|e entries IH]; intros ops s;
    cbn [close_metrics_loop]; wp_steps; done.
Qed.

Lemma close_rungs_loop_fueled ladder ops s :
  wp (close_rungs_loop ladder ops) fueled s.
Proof.
  revert ops s. induction ladder as [|rung ladder IH]; intros ops s;
    cbn [close_rungs_loop]; wp_steps; try done.
  eapply wp_mono; [apply close_metrics_loop_fueled|].
  intros [ops'| |] s' Hne; cbn [wp_cont]; done.
Qed.

Lemma promote_async_tail_fueled ops added s :
  wp (promote_async_tail uuid4 search_space ops added) fueled s.
Proof.
  unfold promote_async_tail, _get_close_rungs_ops. wp_steps; try done.
  all: eapply wp_mono; [apply close_rungs_loop_fueled|];
    intros [?| |] ? ?; cbn [wp_cont]; wp_steps; done.
Qed.

Lemma promote_loop_fueled rec rung_idx promotions ops added height s :
  (forall pid s',
     trial_rungs s' !! pid = Some (rung_idx + 1) ->
     length (rungs s') = height ->
     wp (rec pid float_max) fueled s') ->
  length (rungs s) = height ->
  wp (promote_loop rec rung_idx promotions ops added) fueled s.
Proof.
  intros Hrec. revert ops added s.
  induction promotions as [|pid promotions IH]; intros ops added s Hlen;
    cbn [promote_loop]; wp_steps; try done.
  - apply IH. st_simpl. by rewrite length_alter.
  - eapply wp_mono.
    + apply Hrec; st_simpl.
      * by rewrite lookup_insert_eq.
      * by rewrite length_alter.
    + intros [?| |] ? ?; cbn [wp_cont]; wp_steps; done.
Qed.

Lemma promote_async_fuel_fueled fuel request_id x s :
  (forall k, trial_rungs s !! request_id = Some k ->
     length (rungs s) <= fuel + k + 1) ->
  wp (promote_async_fuel uuid4 search_space fuel request_id x) fueled s.
Proof.
  revert request_id x s.
  induction fuel as [|fuel IH]; intros request_id x s Hheight;
    cbn [promote_async_fuel]; unfold promote_async_body; wp_steps;
    try done; try apply promote_async_tail_fueled.
  all: specialize (Hheight _ eq_refl).
  all: match goal with
       | H : _ !! (_ + 1) = Some _ |- _ =>
           pose proof (lookup_lt_Some _ _ _ H) as Hnext;
           st_simpl_in Hnext; rewrite length_alter in Hnext
       end.
  - (* no fuel: there is no rung above, the next rung is missing *)
    exfalso. lia.
  - match goal with
    | |- context [promotions_async ?a ?b ?c ?d] =>
        destruct (promotions_async_frame a b c d) as (Hne & _);
        destruct (promotions_async a b c d) as [[ids| |] self']
    end; cbn [fst snd] in *; cbn [wp_cont]; try done.
    wp_step. eapply wp_mono.
    + eapply promote_loop_fueled; [|reflexivity].
      intros pid s' Hpid Hlen. apply IH.
      intros k Hk. rewrite Hpid in Hk. injection Hk as <-.
      rewrite Hlen. st_simpl. rewrite length_insert, length_alter. lia.
    + intros [[]| |] ? ?; cbn [wp_cont]; wp_steps; try done.
      apply promote_async_tail_fueled.
Qed.

Lemma promote_loop_refines rec rec' rung_idx promotions ops added :
  (forall pid x, refines (rec pid x) (rec' pid x)) ->
  refines (promote_loop rec rung_idx promotions ops added)
    (promote_loop rec' rung_idx promotions ops added).
Proof.
  intros Hrec. revert ops added.
  induction promotions as [|pid promotions IH]; intros ops added;
    cbn [promote_loop]; [apply refines_refl|].
  repeat (apply refines_bind; [apply refines_refl|]; intros ?).
  destruct (negb _).
  - repeat (apply refines_bind; [apply refines_refl|]; intros ?). apply IH.
  - apply refines_bind; [apply Hrec|]. intros ?. apply refines_refl.
Qed.

Lemma promote_async_body_refines rec rec' request_id x :
  (forall pid y, refines (rec pid y) (rec' pid y)) ->
  refines (promote_async_body uuid4 search_space rec request_id x)
    (promote_async_body uuid4 search_space rec' request_id x).
Proof.
  intros Hrec. unfold promote_async_body.
  repeat (apply refines_bind; [apply refines_refl|]; intros ?).
  destruct (_ =? _)%Z; [apply refines_refl|].
  repeat (apply refines_bind; [apply refines_refl|]; intros ?).
  apply refines_bind; [by apply promote_loop_refines|].
  intros ?. apply refines_refl.
Qed.

Lemma promote_async_fuel_S fuel request_id x :
  refines (promote_async_fuel uuid4 search_space fuel request_id x)
    (promote_async_fuel uuid4 search_space (S fuel) request_id x).
Proof.
  revert request_id x. induction fuel as [|fuel IH]; intros request_id x.
  - apply promote_async_body_refines. by intros pid y s.
  - apply promote_async_body_refines. apply IH.
Qed.

Lemma promote_async_fuel_le fuel fuel' request_id x :
  fuel <= fuel' ->
  refines (promote_async_fuel uuid4 search_space fuel request_id x)
    (promote_async_fuel uuid4 search_space fuel' request_id x).
Proof.
  induction 1 as [|fuel' _ IH]; [apply refines_refl|].
  eapply refines_trans; [exact IH|apply promote_async_fuel_S].
Qed.

(** C9.  On a state whose ladder has [num_rungs] rungs, [_promote_async]
    terminates: cutting the recursion after [fuel] nested calls, for any
    [fuel] with [num_rungs <= fuel + 1], never hits the cut and gives the
    result of [_promote_async]; so the cascade is at most [num_rungs]
    invocations deep. *)
Theorem promote_async_terminates (request_id : UUID) (metric : Q) (s : St)
    (fuel : nat) :
  length (rungs s) = Z.to_nat (num_rungs s) ->
  Z.to_nat (num_rungs s) <= S fuel ->
  (promote_async_fuel uuid4 search_space fuel request_id metric s).1
    <> OutOfFuel /\
  promote_async_fuel uuid4 search_space fuel request_id metric s =
    _promote_async uuid4 search_space request_id metric s.
Proof.
  intros Hheight Hfuel.
  assert (Hany : forall fuel', length (rungs s) <= S fuel' ->
    (promote_async_fuel uuid4 search_space fuel' request_id metric s).1
      <> OutOfFuel).
  { intros fuel' Hle.
    apply (promote_async_fuel_fueled fuel' request_id metric s).
    intros k _. lia. }
  split; [apply Hany; lia|].
  unfold _promote_async. cbn [bind get].
  destruct (Nat.le_gt_cases fuel (length (rungs s))) as [Hle|Hgt].
  - symmetry. apply (promote_async_fuel_le _ _ _ _ Hle). apply Hany. lia.
  - apply (promote_async_fuel_le (length (rungs s)) fuel); [lia|].
    apply Hany. lia.
Qed.

End Fuel.

Lemma promote_async_terminates_witness :
  length (rungs example_state_promoted)
    = Z.to_nat (num_rungs example_state_promoted) /\
  Z.to_nat (num_rungs example_state_promoted) <= 2 /\
  (promote_async_fuel example_uuid4 example_search_space 1 101 (1 # 2)
     example_state_promoted).1 <> OutOfFuel /\
  promote_async_fuel example_uuid4 example_search_space 1 101 (1 # 2)
    example_state_promoted =
    _promote_async example_uuid4 example_search_space 101 (1 # 2)
      example_state_promoted.
Proof.
  split; [vm_compute; reflexivity|].
  split; [vm_compute; lia|].
  apply (promote_async_terminates example_uuid4 example_search_space
           101 (1 # 2) example_state_promoted 1);
    vm_compute; [reflexivity|lia].
Defined.

(** ** The ladder keeps its height *)

(** Closes a goal [height_inv h n s'] for a state [s'] built from a state
    that satisfies the invariant. *)
Ltac solve_height_inv :=
  lazymatch goal with
  | H : height_inv ?h ?n ?s |- height_inv ?h ?n _ =>
      let Hn := fresh in let Hl := fresh in
      destruct H as [Hn Hl]; split; st_simpl; [exact Hn|];
      rewrite ?length_insert, ?length_alter; exact Hl
  end.

Section Height.

Context (uuid4 : nat -> UUID) (search_space : nat -> HParams).

Lemma close_metrics_loop_height h n entries ops :
  keeps_height h n (close_metrics_loop entries ops).
Proof.
  revert ops. induction entries as [|e entries IH]; intros ops s Hs;
    cbn [close_metrics_loop]; wp_steps; try done.
  all: apply IH; solve_height_inv.
Qed.

Lemma close_rungs_loop_height h n ladder ops :
  keeps_height h n (close_rungs_loop ladder ops).
Proof.
  revert ops. induction ladder as [|rung ladder IH]; intros ops s Hs;
    cbn [close_rungs_loop]; wp_steps; try done.
  eapply wp_mono; [by apply (close_metrics_loop_height h n)|].
  intros [ops'| |] s' Hs'; cbn [wp_cont]; try done. by apply IH.
Qed.

Lemma promote_async_tail_height h n ops added :
  keeps_height h n (promote_async_tail uuid4 search_space ops added).
Proof.
  intros s Hs.
  unfold promote_async_tail, _get_close_rungs_ops. wp_steps;
    try solve_height_inv.
  all: eapply wp_mono;
    [apply (close_rungs_loop_height h n); solve_height_inv|];
    intros [?| |] ? ?; cbn [wp_cont]; wp_steps; done.
Qed.

Lemma promote_loop_height h n rec rung_idx promotions ops added :
  (forall pid x, keeps_height h n (rec pid x)) ->
  keeps_height h n (promote_loop rec rung_idx promotions ops added).
Proof.
  intros Hrec. revert ops added.
  induction promotions as [|pid promotions IH]; intros ops added s Hs;
    cbn [promote_loop]; wp_steps; try solve_height_inv.
  - apply IH. solve_height_inv.
  - eapply wp_mono; [apply (Hrec _ _ _); solve_height_inv|].
    intros [?| |] ? ?; cbn [wp_cont]; wp_steps; done.
Qed.

Lemma promote_async_body_height h n rec request_id x :
  (forall pid y, keeps_height h n (rec pid y)) ->
  keeps_height h n (promote_async_body uuid4 search_space rec request_id x).
Proof.
  intros Hrec s Hs. unfold promote_async_body. wp_steps;
    try solve_height_inv;
    try (apply promote_async_tail_height; solve_height_inv).
  match goal with
  | |- context [promotions_async ?a ?b ?c ?d] =>
      destruct (promotions_async a b c d) as [[ids| |] self']
  end; cbn [fst snd]; cbn [wp_cont]; try solve_height_inv.
  wp_step. eapply wp_mono.
  - apply (promote_loop_height h n); [done|]. solve_height_inv.
  - intros [[]| |] ? ?; cbn [wp_cont]; wp_steps; try done.
    by apply promote_async_tail_height.
Qed.

Lemma promote_async_fuel_height h n fuel request_id x :
  keeps_height h n (promote_async_fuel uuid4 search_space fuel request_id x).
Proof.
  revert request_id x. induction fuel as [|fuel IH]; intros request_id x;
    cbn [promote_async_fuel]; apply promote_async_body_height; [|done].
  by intros pid y s Hs.
Qed.

Lemma initial_operations_loop_height h n k ops :
  keeps_height h n (initial_operations_loop uuid4 search_space k ops).
Proof.
  revert ops. induction k as [|k IH]; intros ops s Hs;
    cbn [initial_operations_loop]; wp_steps; try solve_height_inv.
  apply IH. solve_height_inv.
Qed.

Lemma purge_loop_height h n request_id range :
  keeps_height h n (purge_loop request_id range).
Proof.
  induction range as [|i range IH]; intros s Hs;
    cbn [purge_loop]; wp_steps; try solve_height_inv.
  apply IH. solve_height_inv.
Qed.

Lemma handle_height h n ev :
  keeps_height h n (handle uuid4 search_space ev).
Proof.
  intros s Hs. destruct ev as [|id|id v len|id|id v]; cbn [handle].
  - unfold initial_operations, _get_max_concurrent_trials.
    wp_steps; try solve_height_inv.
    all: try (by apply initial_operations_loop_height).
    destruct (int_pow_to_int _ _); cbn [wp_cont]; wp_steps; try done.
    by apply initial_operations_loop_height.
  - unfold on_trial_created. wp_steps; solve_height_inv.
  - unfold on_validation_completed, _promote_async.
    destruct v; wp_steps; try done.
    all: apply promote_async_fuel_height; solve_height_inv.
  - unfold on_trial_closed. wp_steps; solve_height_inv.
  - unfold on_trial_exited_early, _promote_async.
    wp_steps; try solve_height_inv.
    + eapply wp_mono; [apply (purge_loop_height h n); solve_height_inv|].
      intros [[]| |] ? ?; cbn [wp_cont]; wp_steps; try solve_height_inv.
    + apply promote_async_fuel_height; solve_height_inv.
Qed.

(** Every state of a run has the ladder of the state the run started
    from. *)
Lemma run_height h n evs s :
  height_inv h n s -> height_inv h n (run uuid4 search_space evs s).2.
Proof.
  revert s. induction evs as [|ev evs IH]; intros s Hs; [done|].
  cbn [run].
  pose proof (handle_height h n ev s Hs) as Hstep. unfold wp in Hstep.
  destruct (handle uuid4 search_space ev s) as [o s1].
  specialize (IH s1 Hstep).
  by destruct (run uuid4 search_space evs s1).
Qed.

End Height.

(** ** The rungs below the final rung stay sorted *)

Lemma ladder_sorted_alter n (f : Rung -> Rung) i ladder :
  (forall rung, sorted_metrics (metrics rung) ->
     sorted_metrics (metrics (f rung))) ->
  ladder_sorted n ladder -> ladder_sorted n (alter f i ladder).
Proof.
  intros Hf Hl j rung Hj Hne.
  rewrite list_lookup_alter in Hj.
  destruct (decide (i = j)) as [->|]; [|by eauto].
  apply fmap_Some in Hj as (rung' & Hj & ->). by eauto.
Qed.

Lemma ladder_sorted_alter_final n (f : Rung -> Rung) i ladder :
  Z.of_nat i = (n - 1)%Z ->
  ladder_sorted n ladder -> ladder_sorted n (alter f i ladder).
Proof.
  intros Hi Hl j rung Hj Hne.
  rewrite list_lookup_alter_ne in Hj by (intros ->; lia). by eauto.
Qed.

Lemma ladder_sorted_insert n i rung rung' ladder :
  ladder !! i = Some rung ->
  (sorted_metrics (metrics rung) -> sorted_metrics (metrics rung')) ->
  ladder_sorted n ladder -> ladder_sorted n (<[i := rung']> ladder).
Proof.
  intros Hi Hs Hl j r Hj Hne.
  destruct (decide (i = j)) as [->|].
  - rewrite list_lookup_insert_eq in Hj by (by eapply lookup_lt_Some).
    injection Hj as <-. by eauto.
  - rewrite list_lookup_insert_ne in Hj by done. by eauto.
Qed.

Lemma sorted_metrics_outstanding f rung :
  sorted_metrics (metrics rung) ->
  sorted_metrics (metrics (set_outstanding_trials f rung)).
Proof. done. Qed.

Lemma sorted_metrics_purge (request_id : UUID) rung :
  sorted_metrics (metrics rung) ->
  sorted_metrics
    (metrics
       (set_metrics
          (filter (fun x => TrialMetric.request_id x ≠ request_id)) rung)).
Proof. apply sorted_filter. Qed.

(** Closes a goal [sorted_inv n s'] for a state [s'] built from a state
    that satisfies the invariant. *)
Ltac solve_sorted_inv :=
  lazymatch goal with
  | H : sorted_inv ?n ?s |- sorted_inv ?n _ =>
      let Hn := fresh in let Hl := fresh in
      destruct H as [Hn Hl]; split; st_simpl; [exact Hn|];
      repeat first
        [ exact Hl
        | apply ladder_sorted_alter;
            [first [ apply sorted_metrics_outstanding
                   | apply sorted_metrics_purge ]|]
        | apply ladder_sorted_alter_final;
            [rewrite <- Hn; by apply Z.eqb_eq|] ]
  end.

Section Sorted.

Context (uuid4 : nat -> UUID) (search_space : nat -> HParams).

Lemma close_metrics_loop_sorted n entries ops :
  keeps_sorted n (close_metrics_loop entries ops).
Proof.
  revert ops. induction entries as [|e entries IH]; intros ops s Hs;
    cbn [close_metrics_loop]; wp_steps; try done.
  all: apply IH; solve_sorted_inv.
Qed.

Lemma close_rungs_loop_sorted n ladder ops :
  keeps_sorted n (close_rungs_loop ladder ops).
Proof.
  revert ops. induction ladder as [|rung ladder IH]; intros ops s Hs;
    cbn [close_rungs_loop]; wp_steps; try done.
  eapply wp_mono; [by apply (close_metrics_loop_sorted n)|].
  intros [ops'| |] s' Hs'; cbn [wp_cont]; try done. by apply IH.
Qed.

Lemma promote_async_tail_sorted n ops added :
  keeps_sorted n (promote_async_tail uuid4 search_space ops added).
Proof.
  intros s Hs.
  unfold promote_async_tail, _get_close_rungs_ops. wp_steps;
    try solve_sorted_inv.
  all: eapply wp_mono;
    [apply (close_rungs_loop_sorted n); solve_sorted_inv|];
    intros [?| |] ? ?; cbn [wp_cont]; wp_steps; done.
Qed.

Lemma promote_loop_sorted n rec rung_idx promotions ops added :
  (forall pid x, keeps_sorted n (rec pid x)) ->
  keeps_sorted n (promote_loop rec rung_idx promotions ops added).
Proof.
  intros Hrec. revert ops added.
  induction promotions as [|pid promotions IH]; intros ops added s Hs;
    cbn [promote_loop]; wp_steps; try solve_sorted_inv.
  - apply IH. solve_sorted_inv.
  - eapply wp_mono; [apply (Hrec _ _ _); solve_sorted_inv|].
    intros [?| |] ? ?; cbn [wp_cont]; wp_steps; done.
Qed.

Lemma promote_async_body_sorted n rec request_id x :
  (forall pid y, keeps_sorted n (rec pid y)) ->
  keeps_sorted n (promote_async_body uuid4 search_space rec request_id x).
Proof.
  intros Hrec s Hs. unfold promote_async_body. wp_steps;
    try solve_sorted_inv;
    try (apply promote_async_tail_sorted; solve_sorted_inv).
  match goal with
  | |- context [promotions_async ?a ?b ?c ?d] =>
      destruct (promotions_async_frame a b c d) as (_ & _ & _ & _ & Hsorted);
      destruct (promotions_async a b c d) as [[ids| |] self']
  end; cbn [fst snd] in *; cbn [wp_cont].
  all: assert (sorted_inv n
         (set_rungs (fun l => <[n0 := self']> l)
            (set_rungs
               (alter (set_outstanding_trials (fun n => n - 1)%Z) n0) s))).
  all: try (destruct Hs as [Hn Hl]; split; st_simpl; [exact Hn|];
            eapply ladder_sorted_insert; [eassumption|exact Hsorted|];
            apply ladder_sorted_alter;
              [apply sorted_metrics_outstanding|exact Hl]).
  all: try done.
  wp_step. eapply wp_mono; [by apply (promote_loop_sorted n)|].
  intros [[]| |] ? ?; cbn [wp_cont]; wp_steps; try done.
  by apply promote_async_tail_sorted.
Qed.

Lemma promote_async_fuel_sorted n fuel request_id x :
  keeps_sorted n (promote_async_fuel uuid4 search_space fuel request_id x).
Proof.
  revert request_id x. induction fuel as [|fuel IH]; intros request_id x;
    cbn [promote_async_fuel]; apply promote_async_body_sorted; [|done].
  by intros pid y s Hs.
Qed.

Lemma initial_operations_loop_sorted n k ops :
  keeps_sorted n (initial_operations_loop uuid4 search_space k ops).
Proof.
  revert ops. induction k as [|k IH]; intros ops s Hs;
    cbn [initial_operations_loop]; wp_steps; try solve_sorted_inv.
  apply IH. solve_sorted_inv.
Qed.

Lemma purge_loop_sorted n request_id range :
  keeps_sorted n (purge_loop request_id range).
Proof.
  induction range as [|i range IH]; intros s Hs;
    cbn [purge_loop]; wp_steps; try solve_sorted_inv.
  apply IH. solve_sorted_inv.
Qed.

Lemma handle_sorted n ev :
  keeps_sorted n (handle uuid4 search_space ev).
Proof.
  intros s Hs. destruct ev as [|id|id v len|id|id v]; cbn [handle].
  - unfold initial_operations, _get_max_concurrent_trials.
    wp_steps; try solve_sorted_inv.
    all: try (by apply initial_operations_loop_sorted).
    destruct (int_pow_to_int _ _); cbn [wp_cont]; wp_steps; try done.
    by apply initial_operations_loop_sorted.
  - unfold on_trial_created. wp_steps; solve_sorted_inv.
  - unfold on_validation_completed, _promote_async.
    destruct v; wp_steps; try done.
    all: apply promote_async_fuel_sorted; solve_sorted_inv.
  - unfold on_trial_closed. wp_steps; solve_sorted_inv.
  - unfold on_trial_exited_early, _promote_async.
    wp_steps; try solve_sorted_inv.
    + eapply wp_mono; [apply (purge_loop_sorted n); solve_sorted_inv|].
      intros [[]| |] ? ?; cbn [wp_cont]; wp_steps; try solve_sorted_inv.
    + apply promote_async_fuel_sorted; solve_sorted_inv.
Qed.

Lemma run_sorted n evs s :
  sorted_inv n s -> sorted_inv n (run uuid4 search_space evs s).2.
Proof.
  revert s. induction evs as [|ev evs IH]; intros s Hs; [done|].
  cbn [run].
  pose proof (handle_sorted n ev s Hs) as Hstep. unfold wp in Hstep.
  destruct (handle uuid4 search_space ev s) as [o s1].
  specialize (IH s1 Hstep).
  by destruct (run uuid4 search_space evs s1).
Qed.

End Sorted.

(** *** Fresh states *)

Lemma rung_increment_fueled max_length num_rungs divisor i :
  rung_increment max_length num_rungs divisor i <> OutOfFuel.
Proof.
  unfold rung_increment.
  apply (wp_mono _ (fun o _ => o <> OutOfFuel) (fun o _ => o <> OutOfFuel));
    [|done].
  assert (Hof : forall z, PyFloat.of_int z <> OutOfFuel).
  { intros z. unfold PyFloat.of_int. by destruct (binary_normalize _ _ _ _ _). }
  assert (Hpow : forall x k, PyFloat.pow x k <> OutOfFuel).
  { intros x k. unfold PyFloat.pow.
    destruct k; [done|]. destruct x; try done.
    by destruct (binary_round _ _ _ _ _). }
  assert (Hdiv : forall x y, PyFloat.truediv x y <> OutOfFuel).
  { intros x y. unfold PyFloat.truediv. by destruct y. }
  assert (Hint : forall x, PyFloat.to_int x <> OutOfFuel).
  { intros x. unfold PyFloat.to_int. by destruct x. }
  wp_step. wp_step.
  destruct (PyFloat.of_int divisor) as [base| |] eqn:E1; cbn [wp_cont];
    [|done|exfalso; by eapply Hof].
  wp_step. wp_step.
  destruct (PyFloat.pow base _) as [rate| |] eqn:E2; cbn [wp_cont];
    [|done|exfalso; by eapply Hpow].
  wp_step. wp_step.
  destruct (PyFloat.of_int max_length) as [numerator| |] eqn:E3;
    cbn [wp_cont]; [|done|exfalso; by eapply Hof].
  wp_step. wp_step.
  destruct (PyFloat.truediv numerator rate) as [quotient| |] eqn:E4;
    cbn [wp_cont]; [|done|exfalso; by eapply Hdiv].
  wp_step. wp_step.
  destruct (PyFloat.to_int quotient) as [z| |] eqn:E5;
    cbn [wp_cont]; [|done|exfalso; by eapply Hint].
  by wp_step.
Qed.

Lemma init_rungs_loop_shape max_length num_rungs divisor range units ladder :
  wp (init_rungs_loop max_length num_rungs divisor range units)
    (fun o ladder' =>
       o <> OutOfFuel /\
       (Forall blank_rung ladder -> Forall blank_rung ladder') /\
       (o = Ok tt -> length ladder' = length ladder + length range))
    ladder.
Proof.
  revert units ladder. induction range as [|i range IH]; intros units ladder;
    cbn [init_rungs_loop].
  - wp_steps. cbn. repeat split; auto.
  - wp_step. wp_step.
    pose proof (rung_increment_fueled max_length num_rungs divisor i) as Hne.
    destruct (rung_increment _ _ _ _) as [increment|e|]; cbn [wp_cont];
      [|by repeat split|done].
    wp_steps. eapply wp_mono; [apply IH|].
    intros o ladder' (Ho & Hall & Hlen). split; [done|]. split.
    + intros Hl. apply Hall, Forall_app. split; [done|].
      by apply Forall_singleton.
    + intros Hok. rewrite (Hlen Hok), length_app. simpl. lia.
Qed.

Lemma new_state_fresh max_length max_trials num_rungs0 divisor
    max_concurrent_trials s :
  new_ASHASearchMethodState max_length max_trials num_rungs0 divisor
    max_concurrent_trials = Ok s ->
  num_rungs s = num_rungs0 /\
  length (rungs s) = Z.to_nat num_rungs0 /\
  Forall blank_rung (rungs s) /\
  trial_rungs s = ∅ /\ closed_trials s = ∅ /\ early_exit_trials s = ∅.
Proof.
  unfold new_ASHASearchMethodState, _init_rungs.
  destruct (init_rungs_loop_shape max_length num_rungs0 divisor
              (seq 0 (Z.to_nat num_rungs0)) 0 []) as (_ & Hall & Hlen).
  destruct (init_rungs_loop _ _ _ _ _ _) as [[[]|e|] ladder];
    intros Hs; try discriminate.
  injection Hs as <-. st_simpl. cbn [fst snd] in *.
  rewrite Hlen by done. rewrite length_seq.
  repeat split; auto.
Qed.

Lemma fresh_sorted_inv s :
  Forall blank_rung (rungs s) ->
  sorted_inv (num_rungs s) s.
Proof.
  intros Hall. split; [done|]. intros i rung Hi _.
  rewrite Forall_lookup in Hall. destruct (Hall i rung Hi) as [-> _].
  apply sorted_metrics_nil.
Qed.

(** In every state a run reaches from a freshly constructed state, the
    ladder has [num_rungs] rungs: the states [promote_async_terminates]
    speaks of. *)
Lemma run_ladder_height uuid4 search_space
    max_length max_trials num_rungs0 divisor max_concurrent_trials s0 evs :
  new_ASHASearchMethodState max_length max_trials num_rungs0 divisor
    max_concurrent_trials = Ok s0 ->
  length (rungs (run uuid4 search_space evs s0).2)
    = Z.to_nat (num_rungs (run uuid4 search_space evs s0).2).
Proof.
  intros Hfresh.
  destruct (new_state_fresh _ _ _ _ _ _ Hfresh) as (Hn & Hlen & _).
  destruct (run_height uuid4 search_space (Z.to_nat num_rungs0) num_rungs0
              evs s0 (conj Hn Hlen)) as [-> ->].
  done.
Qed.

(** C2 (as amended).  After every event of any run that starts from a
    freshly constructed search state, every rung below the final rung has
    its metrics sorted ascending by metric value.  (The final rung is
    appended to in arrival order.) *)
Theorem rungs_below_final_sorted (uuid4 : nat -> UUID)
    (search_space : nat -> HParams)
    (max_length max_trials num_rungs0 divisor max_concurrent_trials : Z)
    (s0 : St) (evs : list SearcherEvent) :
  new_ASHASearchMethodState max_length max_trials num_rungs0 divisor
    max_concurrent_trials = Ok s0 ->
  forall i rung,
    rungs (run uuid4 search_space evs s0).2 !! i = Some rung ->
    (Z.of_nat i < num_rungs (run uuid4 search_space evs s0).2 - 1)%Z ->
    sorted_metrics (metrics rung).
Proof.
  intros Hfresh i rung Hi Hlt.
  destruct (new_state_fresh _ _ _ _ _ _ Hfresh) as (Hn & _ & Hall & _).
  pose proof (run_sorted uuid4 search_space _ evs s0 (fresh_sorted_inv s0 Hall))
    as [Hn' Hl].
  apply (Hl i rung Hi). lia.
Qed.

Lemma rungs_below_final_sorted_witness :
  new_ASHASearchMethodState 8 3 2 2 0 = Ok example_state /\
  forall i rung,
    rungs (run example_uuid4 example_search_space
             [InitialOperations; TrialCreated 100; TrialCreated 101;
              ValidationCompleted 100 (VFloat 5) 4;
              ValidationCompleted 101 (VFloat 3) 4] example_state).2 !! i
      = Some rung ->
    (Z.of_nat i
       < num_rungs (run example_uuid4 example_search_space
             [InitialOperations; TrialCreated 100; TrialCreated 101;
              ValidationCompleted 100 (VFloat 5) 4;
              ValidationCompleted 101 (VFloat 3) 4] example_state).2 - 1)%Z ->
    sorted_metrics (metrics rung).
Proof.
  split; [vm_compute; reflexivity|].
  apply (rungs_below_final_sorted example_uuid4 example_search_space
           8 3 2 2 0 example_state).
  vm_compute. reflexivity.
Defined.

(** C2 as stated fails for the final rung: on a ladder of one rung the
    results 5 and 3 are recorded in arrival order. *)
Lemma final_rung_unsorted_counterexample :
  new_ASHASearchMethodState 8 3 1 2 0 = Ok example_state_single /\
  exists rung,
    rungs (run example_uuid4 example_search_space
             [InitialOperations; TrialCreated 100;
              ValidationCompleted 100 (VFloat 5) 8; TrialCreated 101;
              ValidationCompleted 101 (VFloat 3) 8]
             example_state_single).2 !! 0 = Some rung /\
    map TrialMetric.metric (metrics rung) = [5%Q; 3%Q] /\
    ~ sorted_metrics (metrics rung).
Proof.
  split; [vm_compute; reflexivity|].
  eexists. split; [vm_compute; reflexivity|].
  split; [reflexivity|].
  intros Hs.
  specialize (Hs 0 1 _ _ ltac:(lia) eq_refl eq_refl).
  vm_compute in Hs. by apply Hs.
Qed.

(** ** No trial is closed twice *)

Lemma closes_app ops1 ops2 : closes (ops1 ++ ops2) = closes ops1 ++ closes ops2.
Proof. apply omap_app. Qed.

Lemma close_acc_nil c0 s : c0 ⊆ closed_trials s -> close_acc c0 [] s.
Proof.
  intros Hc. split; [done|]. split; [constructor|].
  intros id Hid. by apply elem_of_nil in Hid.
Qed.

Lemma close_acc_post c0 ops s : close_acc c0 ops s -> close_post c0 (Ok ops) s.
Proof.
  intros Hacc. split; [apply Hacc|]. intros ? [= <-]. done.
Qed.

(** An operation other than [Close] does not change the account. *)
Lemma close_acc_snoc_other c0 ops op s :
  closes [op] = [] -> close_acc c0 ops s -> close_acc c0 (ops ++ [op]) s.
Proof.
  intros Hop Hacc. unfold close_acc.
  by rewrite closes_app, Hop, app_nil_r.
Qed.

(** A [Close] for a trial that is not in the closed set yet. *)
Lemma close_acc_snoc_close c0 ops id s :
  id ∉ closed_trials s ->
  close_acc c0 ops s ->
  close_acc c0 (ops ++ [Close id])
    (set_closed_trials (add_to_set id) s).
Proof.
  intros Hid (Hc & Hnd & Hin). unfold close_acc, add_to_set. st_simpl.
  rewrite closes_app. cbn [closes omap].
  split; [clear -Hc; set_solver|]. split.
  - apply NoDup_app. split; [done|]. split; [|apply NoDup_singleton].
    intros x Hx ->%list_elem_of_singleton.
    pose proof (Hin _ Hx) as [_ Hx']. done.
  - intros x [Hx| ->%list_elem_of_singleton]%elem_of_app.
    + pose proof (Hin _ Hx) as [Hx1 Hx2]. clear -Hx1 Hx2. set_solver.
    + clear -Hid Hc. set_solver.
Qed.

(** The account of a sweep joins the account of the operations before. *)
Lemma close_acc_app c0 ops close_ops s s' :
  close_acc c0 ops s ->
  close_acc (closed_trials s) close_ops s' ->
  close_acc c0 (ops ++ close_ops) s'.
Proof.
  intros (Hc & Hnd & Hin) (Hc' & Hnd' & Hin').
  unfold close_acc. rewrite closes_app.
  split; [clear -Hc Hc'; set_solver|]. split.
  - apply NoDup_app. split; [done|]. split; [|done].
    intros x Hx Hx'.
    pose proof (Hin _ Hx) as [_ H1]. pose proof (Hin' _ Hx') as [H2 _]. done.
  - intros x [Hx|Hx]%elem_of_app.
    + pose proof (Hin _ Hx) as [Hx1 Hx2]. clear -Hx1 Hx2 Hc'. set_solver.
    + pose proof (Hin' _ Hx) as [Hx1 Hx2]. clear -Hx1 Hx2 Hc. set_solver.
Qed.

(** The account does not depend on the fields other than the closed set. *)
Lemma close_acc_frame c0 ops s s' :
  closed_trials s' = closed_trials s ->
  close_acc c0 ops s -> close_acc c0 ops s'.
Proof. unfold close_acc. by intros ->. Qed.

Section Closes.

Context (uuid4 : nat -> UUID) (search_space : nat -> HParams).

Lemma close_metrics_loop_closes c0 entries ops s :
  close_acc c0 ops s ->
  wp (close_metrics_loop entries ops) (close_post c0) s.
Proof.
  revert ops s. induction entries as [|e entries IH]; intros ops s Hacc;
    cbn [close_metrics_loop]; wp_steps.
  - by apply close_acc_post.
  - apply IH. apply close_acc_snoc_close; [|done].
    apply andb_prop in Heqb as [_ Hnc].
    apply negb_true_iff, bool_decide_eq_false in Hnc. done.
  - by apply IH.
  - by apply IH.
Qed.

Lemma close_rungs_loop_closes c0 ladder ops s :
  close_acc c0 ops s ->
  wp (close_rungs_loop ladder ops) (close_post c0) s.
Proof.
  revert ops s. induction ladder as [|rung ladder IH]; intros ops s Hacc;
    cbn [close_rungs_loop]; wp_steps; try by apply close_acc_post.
  eapply wp_mono; [by apply (close_metrics_loop_closes c0)|].
  intros [ops'| |] s' [Hc Hpost]; cbn [wp_cont]; [|done..].
  apply IH. by apply Hpost.
Qed.

Lemma get_close_rungs_ops_closes s :
  wp _get_close_rungs_ops (close_post (closed_trials s)) s.
Proof.
  unfold _get_close_rungs_ops. wp_steps.
  apply close_rungs_loop_closes. by apply close_acc_nil.
Qed.

Lemma promote_async_tail_closes c0 ops added s :
  close_acc c0 ops s ->
  wp (promote_async_tail uuid4 search_space ops added) (close_post c0) s.
Proof.
  intros Hacc. unfold promote_async_tail. wp_steps;
    try (split; [apply Hacc|by intros ? [=]]).
  all: try (apply close_acc_post;
            repeat (apply close_acc_snoc_other; [done|]);
            by eapply close_acc_frame; [|exact Hacc]).
  all: eapply wp_mono; [apply get_close_rungs_ops_closes|];
    intros [close_ops| |] s' [Hc Hpost]; cbn [wp_cont]; wp_steps;
    try (split; [st_simpl_in Hc; destruct Hacc as (Hc0 & _ & _);
                 clear -Hc Hc0; set_solver|by intros ? [=]]).
  all: apply close_acc_post; eapply close_acc_app; [|by apply Hpost].
  all: repeat (apply close_acc_snoc_other; [done|]).
  all: by eapply close_acc_frame; [|exact Hacc].
Qed.

Lemma promote_loop_closes rec rung_idx promotions ops added c0 s :
  closes_once rec ->
  close_acc c0 ops s ->
  wp (promote_loop rec rung_idx promotions ops added)
    (fun o s' =>
       c0 ⊆ closed_trials s' /\
       forall exit, o = Ok exit ->
         match exit with
         | Completed ops' _ => close_acc c0 ops' s'
         | Returned result => close_acc c0 result s'
         end) s.
Proof.
  intros Hrec. revert ops added s.
  induction promotions as [|pid promotions IH]; intros ops added s Hacc;
    cbn [promote_loop]; wp_steps;
    try (split; [apply Hacc|by intros ? [=]]).
  - split; [apply Hacc|]. by intros ? [= <-].
  - apply IH. apply close_acc_snoc_other; [done|].
    by eapply close_acc_frame; [|exact Hacc].
  - eapply wp_mono.
    + apply (Hrec c0); [apply Hacc|]. left. st_simpl.
      by apply negb_false_iff, bool_decide_eq_true in Heqb.
    + intros [result| |] s' [Hc Hpost]; cbn [wp_cont]; wp_steps;
        try (split; [done|by intros ? [=]]).
      split; [done|]. intros ? [= <-]. by apply Hpost.
Qed.

Lemma promote_async_body_closes rec :
  closes_once rec ->
  closes_once (promote_async_body uuid4 search_space rec).
Proof.
  intros Hrec c0 request_id x s Hc Hclosable.
  assert (Hacc : close_acc c0 [] s) by by apply close_acc_nil.
  unfold promote_async_body. wp_steps;
    try (split; [exact Hc|by intros ? [=]]).
  - (* final rung, the trial has not exited early: it is closed here *)
    apply promote_async_tail_closes.
    apply (close_acc_snoc_close c0 [] request_id) in Hacc.
    + by eapply close_acc_frame; [|exact Hacc].
    + destruct Hclosable as [He|Hnc]; [|done].
      apply negb_true_iff, bool_decide_eq_false in Heqb0. done.
  - apply promote_async_tail_closes.
    by eapply close_acc_frame; [|exact Hacc].
  - match goal with
    | |- context [promotions_async ?a ?b ?c ?d] =>
        destruct (promotions_async a b c d) as [[ids| |] self']
    end; cbn [fst snd]; cbn [wp_cont];
      try (split; [exact Hc|by intros ? [=]]).
    wp_step. eapply wp_mono.
    + apply (promote_loop_closes rec _ _ [] false c0); [done|].
      by eapply close_acc_frame; [|exact Hacc].
    + intros [[ops' added|result]| |] s' [Hc' Hpost]; cbn [wp_cont];
        wp_steps; try (split; [done|by intros ? [=]]).
      * apply promote_async_tail_closes. by apply (Hpost _ eq_refl).
      * apply close_acc_post. by apply (Hpost _ eq_refl).
Qed.

Lemma promote_async_fuel_closes fuel :
  closes_once (promote_async_fuel uuid4 search_space fuel).
Proof.
  induction fuel as [|fuel IH]; intros c0 request_id x;
    cbn [promote_async_fuel]; apply promote_async_body_closes; [|done].
  intros ? ? ? s Hc _. split; [done|by intros ? [=]].
Qed.

Lemma initial_operations_loop_closes c0 k ops s :
  close_acc c0 ops s ->
  wp (initial_operations_loop uuid4 search_space k ops) (close_post c0) s.
Proof.
  revert ops s. induction k as [|k IH]; intros ops s Hacc;
    cbn [initial_operations_loop]; wp_steps;
    try (split; [apply Hacc|by intros ? [=]]).
  - by apply close_acc_post.
  - apply IH. repeat (apply close_acc_snoc_other; [done|]).
    by eapply close_acc_frame; [|exact Hacc].
Qed.

Lemma purge_loop_closed request_id range s :
  wp (purge_loop request_id range)
    (fun _ s' => closed_trials s' = closed_trials s) s.
Proof.
  revert s. induction range as [|i range IH]; intros s;
    cbn [purge_loop]; wp_steps; try done.
  eapply wp_mono; [apply IH|]. by intros ? ? ->.
Qed.

(** What one event adds to the [Close] operations emitted so far. *)
Lemma handle_closes ev s :
  event_allowed ev s = true ->
  wp (handle uuid4 search_space ev) (close_post (closed_trials s)) s.
Proof.
  intros Hallowed.
  assert (Hacc : close_acc (closed_trials s) [] s) by by apply close_acc_nil.
  destruct ev as [|id|id v len|id|id v]; cbn [handle].
  - unfold initial_operations, _get_max_concurrent_trials. wp_steps.
    + by apply initial_operations_loop_closes.
    + destruct (int_pow_to_int _ _); cbn [wp_cont]; wp_steps;
        try (split; [done|by intros ? [=]]).
      by apply initial_operations_loop_closes.
  - unfold on_trial_created. wp_steps;
      try (split; [done|by intros ? [=]]).
    by apply close_acc_post.
  - unfold on_validation_completed, _promote_async.
    destruct v; wp_steps; try (split; [done|by intros ? [=]]).
    apply promote_async_fuel_closes; [done|]. right. st_simpl.
    by apply negb_true_iff, bool_decide_eq_false in Hallowed.
  - unfold on_trial_closed. wp_steps.
    all: apply close_acc_post, close_acc_nil; unfold add_to_set; set_solver.
  - unfold on_trial_exited_early, _promote_async.
    cbn [event_allowed] in Hallowed.
    destruct (is_INVALID_HP v); cbn [negb orb] in Hallowed; wp_steps;
      try (split; [unfold add_to_set; set_solver|by intros ? [=]]).
    + eapply wp_mono; [apply purge_loop_closed|].
      intros [[]| |] s' Hs'; cbn [wp_cont]; wp_steps; st_simpl_in Hs';
        try (split; [st_simpl; rewrite Hs'; unfold add_to_set;
                     clear; set_solver
                    |by intros ? [=]]).
      apply close_acc_post.
      repeat (apply close_acc_snoc_other; [done|]).
      apply (close_acc_snoc_close (closed_trials s) [] id) in Hacc.
      * eapply close_acc_frame; [|exact Hacc]. st_simpl. by rewrite Hs'.
      * by apply negb_true_iff, bool_decide_eq_false in Hallowed.
    + apply (promote_async_fuel_closes _ (closed_trials s)).
      * st_simpl. unfold add_to_set. set_solver.
      * left. st_simpl. unfold add_to_set. set_solver.
Qed.

End Closes.

Lemma run_closes uuid4 search_space evs s emitted :
  NoDup emitted ->
  (forall id, id ∈ emitted -> id ∈ closed_trials s) ->
  respects_closure uuid4 search_space evs s = true ->
  NoDup (emitted ++ emitted_closes (run uuid4 search_space evs s).1).
Proof.
  revert s emitted.
  induction evs as [|ev evs IH]; intros s emitted Hnd Hin Hresp.
  - cbn. by rewrite app_nil_r.
  - cbn [respects_closure] in Hresp.
    apply andb_prop in Hresp as [Hallowed Hresp].
    pose proof (handle_closes uuid4 search_space ev s Hallowed) as Hstep.
    unfold wp in Hstep. cbn [run].
    destruct (handle uuid4 search_space ev s) as [o s1].
    cbn [fst snd] in *. destruct Hstep as [Hsub Hpost].
    set (new := match o with Ok ops => closes ops | _ => [] end).
    assert (Hnew : NoDup new /\
              forall id, id ∈ new ->
                (id ∉ closed_trials s) /\ id ∈ closed_trials s1).
    { subst new. destruct o as [ops| |].
      - destruct (Hpost ops eq_refl) as (_ & ? & ?). done.
      - split; [constructor|]. by intros ? ?%elem_of_nil.
      - split; [constructor|]. by intros ? ?%elem_of_nil. }
    destruct Hnew as [Hnd' Hin'].
    specialize (IH s1 (emitted ++ new)).
    destruct (run uuid4 search_space evs s1) as [outcomes s2].
    cbn [fst snd] in *. unfold emitted_closes. cbn [map concat].
    fold (emitted_closes outcomes). fold new.
    rewrite app_assoc. apply IH; [| |done].
    + apply NoDup_app. split; [done|]. split; [|done].
      intros id Hid Hid'. pose proof (Hin _ Hid) as H1.
      pose proof (Hin' _ Hid') as [H2 _]. done.
    + intros id [Hid|Hid]%elem_of_app.
      * apply Hsub. by apply Hin.
      * by apply Hin'.
Qed.

(** C3 (as amended).  Across any run that starts from a freshly
    constructed search state and in which no validation result and no
    [INVALID_HP] exit is delivered for a trial that is in [closed_trials]
    at that moment, no trial id is the subject of more than one emitted
    [Close] operation. *)
Theorem close_emitted_once (uuid4 : nat -> UUID)
    (search_space : nat -> HParams)
    (max_length max_trials num_rungs0 divisor max_concurrent_trials : Z)
    (s0 : St) (evs : list SearcherEvent) :
  new_ASHASearchMethodState max_length max_trials num_rungs0 divisor
    max_concurrent_trials = Ok s0 ->
  respects_closure uuid4 search_space evs s0 = true ->
  NoDup (emitted_closes (run uuid4 search_space evs s0).1).
Proof.
  intros _ Hresp.
  apply (run_closes uuid4 search_space evs s0 []); [constructor| |done].
  by intros ? ?%elem_of_nil.
Qed.

Lemma close_emitted_once_witness :
  new_ASHASearchMethodState 8 3 2 2 0 = Ok example_state /\
  respects_closure example_uuid4 example_search_space
    [InitialOperations; TrialCreated 100; TrialCreated 101;
     ValidationCompleted 100 (VFloat 5) 4;
     ValidationCompleted 101 (VFloat 3) 4; TrialCreated 102;
     ValidationCompleted 102 (VFloat 1) 4;
     ValidationCompleted 101 (VFloat 1) 8; TrialClosed 100; TrialClosed 101;
     TrialExitedEarly 102 (VExitedReason ERRORED)] example_state = true /\
  NoDup
    (emitted_closes
       (run example_uuid4 example_search_space
          [InitialOperations; TrialCreated 100; TrialCreated 101;
           ValidationCompleted 100 (VFloat 5) 4;
           ValidationCompleted 101 (VFloat 3) 4; TrialCreated 102;
           ValidationCompleted 102 (VFloat 1) 4;
           ValidationCompleted 101 (VFloat 1) 8; TrialClosed 100;
           TrialClosed 101;
           TrialExitedEarly 102 (VExitedReason ERRORED)] example_state).1).
Proof.
  split; [vm_compute; reflexivity|].
  split; [vm_compute; reflexivity|].
  apply (close_emitted_once example_uuid4 example_search_space
           8 3 2 2 0 example_state).
  - vm_compute. reflexivity.
  - vm_compute. reflexivity.
Defined.

(** C3 as stated fails: a trial closed on the final rung is closed a second
    time when an [INVALID_HP] exit is delivered for it afterwards. *)
Lemma close_emitted_twice_counterexample :
  new_ASHASearchMethodState 8 3 1 2 0 = Ok example_state_single /\
  emitted_closes
    (run example_uuid4 example_search_space
       [InitialOperations; TrialCreated 100;
        ValidationCompleted 100 (VFloat 5) 8;
        TrialExitedEarly 100 (VExitedReason INVALID_HP)]
       example_state_single).1 = [100%N; 100%N] /\
  ~ NoDup
      (emitted_closes
         (run example_uuid4 example_search_space
            [InitialOperations; TrialCreated 100;
             ValidationCompleted 100 (VFloat 5) 8;
             TrialExitedEarly 100 (VExitedReason INVALID_HP)]
            example_state_single).1).
Proof.
  split; [vm_compute; reflexivity|].
  assert (Heq : emitted_closes
    (run example_uuid4 example_search_space
       [InitialOperations; TrialCreated 100;
        ValidationCompleted 100 (VFloat 5) 8;
        TrialExitedEarly 100 (VExitedReason INVALID_HP)]
       example_state_single).1 = [100%N; 100%N])
    by (vm_compute; reflexivity).
  split; [exact Heq|]. rewrite Heq.
  intros Hnd. apply NoDup_cons in Hnd as [Hnot _].
  apply Hnot. by left.
Qed.

(** ** Rung ladder construction *)

Section Ladder.

Local Open Scope Z_scope.

Lemma rung_increment_exact max_length num_rungs divisor (i : nat) :
  1 <= max_length < 2 ^ 53 ->
  1 <= divisor < 2 ^ 53 ->
  0 <= num_rungs - Z.of_nat i - 1 ->
  divisor ^ (num_rungs - Z.of_nat i - 1) < 2 ^ 53 ->
  rung_increment max_length num_rungs divisor i =
  Ok (spec_increment max_length num_rungs divisor i).
Proof.
  intros Hml Hd Hk Hpow.
  set (k := num_rungs - Z.of_nat i - 1) in *.
  assert (Hpow1 : 1 <= divisor ^ k).
  { pose proof (Z.pow_le_mono_l 1 divisor k ltac:(lia)) as H.
    rewrite Z.pow_1_l in H; lia. }
  destruct (truediv_to_int max_length (divisor ^ k) Hml ltac:(lia))
    as (quotient & Hdiv & Hint).
  unfold rung_increment, spec_increment. fold k.
  unfold bind, lift, ret. cbn [fst snd].
  rewrite (of_int_exact divisor Hd).
  rewrite (pow_exact divisor (Z.to_N k)) by (rewrite ?Z2N.id; lia).
  rewrite Z2N.id by lia.
  rewrite (of_int_exact max_length Hml).
  rewrite Hdiv, Hint. reflexivity.
Qed.

Lemma foldr_add_init (l : list Z) (z : Z) :
  foldr Z.add z l = foldr Z.add 0 l + z.
Proof. induction l as [|x l IH]; cbn [foldr]; lia. Qed.

Lemma spec_sum_S max_length num_rungs divisor (i : nat) :
  spec_sum max_length num_rungs divisor (S i) =
  spec_sum max_length num_rungs divisor i
  + spec_increment max_length num_rungs divisor i.
Proof.
  unfold spec_sum. rewrite seq_S, map_app, foldr_app. cbn [map foldr plus].
  rewrite foldr_add_init. lia.
Qed.

Lemma spec_increment_pos max_length num_rungs divisor i :
  1 <= spec_increment max_length num_rungs divisor i.
Proof. unfold spec_increment. lia. Qed.

Lemma spec_units_needed_increasing max_length num_rungs divisor (i j : nat) :
  (i < j)%nat ->
  spec_units_needed max_length num_rungs divisor i
  < spec_units_needed max_length num_rungs divisor j.
Proof.
  unfold spec_units_needed. induction 1 as [|j _ IH].
  - rewrite (spec_sum_S _ _ _ (S i)).
    pose proof (spec_increment_pos max_length num_rungs divisor (S i)). lia.
  - rewrite (spec_sum_S _ _ _ (S j)).
    pose proof (spec_increment_pos max_length num_rungs divisor (S j)). lia.
Qed.

Lemma init_rungs_loop_exact max_length num_rungs divisor n :
  1 <= max_length < 2 ^ 53 ->
  1 <= divisor < 2 ^ 53 ->
  divisor ^ (num_rungs - 1) < 2 ^ 53 ->
  forall (i0 : nat) ladder,
    Z.of_nat (i0 + n) <= num_rungs ->
    exists added,
      init_rungs_loop max_length num_rungs divisor (seq i0 n)
        (spec_sum max_length num_rungs divisor i0) ladder
        = (Ok tt, ladder ++ added) /\
      length added = n /\
      forall (j : nat) rung,
        added !! j = Some rung ->
        units_needed rung
          = spec_units_needed max_length num_rungs divisor (i0 + j) /\
        idx rung = Z.of_nat (i0 + j).
Proof.
  intros Hml Hd Hpow.
  induction n as [|n IH]; intros i0 ladder Hrange; cbn [seq init_rungs_loop].
  - exists []. rewrite app_nil_r. split; [done|]. split; [done|].
    intros j rung Hj. by rewrite lookup_nil in Hj.
  - assert (Hk : 0 <= num_rungs - Z.of_nat i0 - 1) by lia.
    assert (Hpowk : divisor ^ (num_rungs - Z.of_nat i0 - 1) < 2 ^ 53).
    { eapply Z.le_lt_trans; [|exact Hpow].
      apply Z.pow_le_mono_r; lia. }
    unfold bind at 1. unfold lift at 1.
    rewrite rung_increment_exact by done.
    unfold bind at 1. unfold modify at 1.
    rewrite <- spec_sum_S.
    destruct (IH (S i0)
                (ladder ++
                 [new_rung (spec_sum max_length num_rungs divisor (S i0))
                    (Z.of_nat i0)]) ltac:(lia))
      as (added & -> & Hlen & Hat).
    exists (new_rung (spec_sum max_length num_rungs divisor (S i0))
              (Z.of_nat i0) :: added).
    split; [by rewrite <- app_assoc|]. split; [cbn; lia|].
    intros [|j] rung Hj; cbn in Hj.
    + injection Hj as <-. cbn [units_needed idx new_rung].
      rewrite Nat.add_0_r. done.
    + destruct (Hat j rung Hj) as [Hu Hi].
      replace (i0 + S j)%nat with (S i0 + j)%nat by lia. done.
Qed.

(** C6 (as amended).  For [1 <= maxLength < 2^53], [numRungs >= 1] and
    [2 <= reductionFactor < 2^53] with
    [reductionFactor^(numRungs-1) < 2^53], the range in which the double
    precision arithmetic of [_init_rungs] is exact, the construction
    succeeds, yields exactly [numRungs] rungs, [unitsNeeded[i]] is the
    cumulative sum for [j = 0..i] of
    [max(floor(maxLength / reductionFactor^(numRungs-j-1)), 1)], and the
    thresholds are strictly increasing. *)
Theorem init_rungs_ladder (max_length num_rungs divisor : Z) :
  1 <= max_length < 2 ^ 53 ->
  1 <= num_rungs ->
  2 <= divisor < 2 ^ 53 ->
  divisor ^ (num_rungs - 1) < 2 ^ 53 ->
  exists ladder,
    _init_rungs max_length num_rungs divisor [] = (Ok tt, ladder) /\
    length ladder = Z.to_nat num_rungs /\
    (forall (i : nat) rung,
       ladder !! i = Some rung ->
       units_needed rung
         = spec_units_needed max_length num_rungs divisor i) /\
    (forall (i j : nat) rung_i rung_j,
       (i < j)%nat ->
       ladder !! i = Some rung_i -> ladder !! j = Some rung_j ->
       units_needed rung_i < units_needed rung_j).
Proof.
  intros Hml Hnr Hd Hpow.
  destruct (init_rungs_loop_exact max_length num_rungs divisor
              (Z.to_nat num_rungs) Hml ltac:(lia) Hpow 0%nat [] ltac:(lia))
    as (ladder & Hrun & Hlen & Hat).
  exists ladder. unfold _init_rungs.
  split; [exact Hrun|]. split; [exact Hlen|]. split.
  - intros i rung Hi. by destruct (Hat i rung Hi).
  - intros i j ri rj Hij Hi Hj.
    destruct (Hat i ri Hi) as [-> _]. destruct (Hat j rj Hj) as [-> _].
    by apply spec_units_needed_increasing.
Qed.

End Ladder.

Lemma init_rungs_ladder_witness :
  (1 <= 100 < 2 ^ 53)%Z /\ (1 <= 4)%Z /\ (2 <= 3 < 2 ^ 53)%Z /\
  (3 ^ (4 - 1) < 2 ^ 53)%Z /\
  exists ladder,
    _init_rungs 100 4 3 [] = (Ok tt, ladder) /\
    length ladder = Z.to_nat 4 /\
    (forall (i : nat) rung,
       ladder !! i = Some rung ->
       units_needed rung = spec_units_needed 100 4 3 i) /\
    (forall (i j : nat) rung_i rung_j,
       i < j ->
       ladder !! i = Some rung_i -> ladder !! j = Some rung_j ->
       (units_needed rung_i < units_needed rung_j)%Z).
Proof.
  split; [lia|]. split; [lia|]. split; [lia|]. split; [lia|].
  apply (init_rungs_ladder 100 4 3); lia.
Defined.

(** C6 as stated fails outside the range in which doubles are exact:
    [maxLength = 2^53 + 1] on a ladder of one rung gives the threshold
    [2^53], not [2^53 + 1]; and with 1026 rungs and reduction factor 2 the
    construction raises [OverflowError]. *)
Lemma init_rungs_ladder_counterexample :
  (exists rung,
     _init_rungs (2 ^ 53 + 1) 1 2 [] = (Ok tt, [rung]) /\
     units_needed rung = 9007199254740992%Z /\
     spec_units_needed (2 ^ 53 + 1) 1 2 0 = 9007199254740993%Z) /\
  (_init_rungs 8 1026 2 []).1 = Raise OverflowError.
Proof.
  split.
  - eexists. split; [vm_compute; reflexivity|]. split; reflexivity.
  - vm_compute. reflexivity.
Qed.

(** ** Further properties of [Rung] *)

Lemma search_loop_all_le ms x i j :
  i <= j <= length ms ->
  (forall e, e ∈ ms -> (TrialMetric.metric e <= x)%Q) ->
  search_loop ms x i j = Ok j.
Proof.
  funelim (search_loop ms x i j); intros Hij Hall; clear Heqcall.
  - f_equal. lia.
  - assert (Hhi : Nat.shiftr (i + j) 1 < j).
    { rewrite Nat.shiftr_div_pow2. change (2 ^ 1) with 2.
      apply Nat.Div0.div_lt_upper_bound; lia. }
    assert (Hcmp : Qle_bool (TrialMetric.metric tm) x = true).
    { apply Qle_bool_iff, Hall. by eapply list_elem_of_lookup_2. }
    rewrite Hcmp. apply H; [lia|done].
  - exfalso.
    assert (Nat.shiftr (i + j) 1 < j).
    { rewrite Nat.shiftr_div_pow2. change (2 ^ 1) with 2.
      apply Nat.Div0.div_lt_upper_bound; lia. }
    apply lookup_ge_None in Heq. lia.
Qed.

Lemma search_loop_all_gt ms x i j :
  i <= j <= length ms ->
  (forall e, e ∈ ms -> (x < TrialMetric.metric e)%Q) ->
  search_loop ms x i j = Ok i.
Proof.
  funelim (search_loop ms x i j); intros Hij Hall; clear Heqcall.
  - done.
  - assert (Hlo : i <= Nat.shiftr (i + j) 1).
    { rewrite Nat.shiftr_div_pow2. change (2 ^ 1) with 2.
      apply Nat.div_le_lower_bound; lia. }
    assert (Hhi : Nat.shiftr (i + j) 1 < j).
    { rewrite Nat.shiftr_div_pow2. change (2 ^ 1) with 2.
      apply Nat.Div0.div_lt_upper_bound; lia. }
    assert (Hcmp : Qle_bool (TrialMetric.metric tm) x = false).
    { apply not_true_is_false. intros Hc. apply Qle_bool_iff in Hc.
      apply (Qlt_not_le x (TrialMetric.metric tm)); [|done].
      apply Hall. by eapply list_elem_of_lookup_2. }
    rewrite Hcmp. apply H0; [lia|done].
  - exfalso.
    assert (Nat.shiftr (i + j) 1 < j).
    { rewrite Nat.shiftr_div_pow2. change (2 ^ 1) with 2.
      apply Nat.Div0.div_lt_upper_bound; lia. }
    apply lookup_ge_None in Heq. lia.
Qed.

Lemma promoted_count_app l1 l2 :
  promoted_count (l1 ++ l2) = promoted_count l1 + promoted_count l2.
Proof. unfold promoted_count. by rewrite filter_app, length_app. Qed.

Lemma promoted_count_cons e l :
  promoted_count (e :: l) =
  (if TrialMetric.promoted e then 1 else 0) + promoted_count l.
Proof.
  unfold promoted_count. rewrite filter_cons.
  destruct (TrialMetric.promoted e); by case_decide.
Qed.

Lemma promoted_count_insert_at index e l :
  promoted_count (list_insert_at index e l) =
  promoted_count l + (if TrialMetric.promoted e then 1 else 0).
Proof.
  unfold list_insert_at.
  rewrite promoted_count_app, promoted_count_cons.
  rewrite <- (take_drop index l) at 3. rewrite promoted_count_app. lia.
Qed.

Lemma promoted_count_alter k l e :
  l !! k = Some e -> TrialMetric.promoted e = false ->
  promoted_count (alter (set_promoted true) k l) = S (promoted_count l).
Proof.
  revert k. induction l as [|a l IH]; intros [|k] Hk He; try done.
  - injection Hk as ->. cbn [alter list_alter].
    rewrite !promoted_count_cons, He. done.
  - cbn [alter list_alter]. rewrite !promoted_count_cons.
    change (list_alter (set_promoted true) k l)
      with (alter (set_promoted true) k l).
    rewrite (IH k) by done. lia.
Qed.

(** The index of [self.metrics[old_num_promote]] exists in the list that
    holds the new entry, for every divisor other than zero. *)
Lemma py_index_quota (len : nat) (d : Z) :
  d <> 0%Z ->
  exists k, py_index (S len) (Z.of_nat len / d) = Some k /\ k < S len.
Proof.
  intros Hd. unfold py_index.
  assert (Hbound : (- Z.of_nat len <= Z.of_nat len / d <= Z.of_nat len)%Z).
  { destruct (Z.lt_total d 0) as [Hneg|[->|Hpos]]; [|done|].
    - assert (H1 := Z.div_mod (Z.of_nat len) d ltac:(lia)).
      assert (H2 := Z.mod_neg_bound (Z.of_nat len) d ltac:(lia)). nia.
    - assert (H1 := Z.div_mod (Z.of_nat len) d ltac:(lia)).
      assert (H2 := Z.mod_pos_bound (Z.of_nat len) d ltac:(lia)). nia. }
  destruct (0 <=? Z.of_nat len / d)%Z eqn:E.
  - apply Z.leb_le in E.
    rewrite (proj2 (Z.ltb_lt _ _)) by lia. eexists. split; [done|]. lia.
  - apply Z.leb_gt in E.
    rewrite (proj2 (Z.leb_le _ _)) by lia. eexists. split; [done|]. lia.
Qed.

(** X1.  For every divisor other than zero, negative ones included,
    [promotions_async] returns normally: it adds exactly one entry to the
    rung, returns at most one trial, and the number of promoted entries of
    the rung grows by exactly the number of trials returned; every trial
    returned has a promoted entry in the rung. *)
Theorem promotions_async_accounting (request_id : UUID) (x : Q) (d : Z)
    (self : Rung) :
  d <> 0%Z ->
  exists ids self',
    promotions_async request_id x d self = (Ok ids, self') /\
    length ids <= 1 /\
    length (metrics self') = S (length (metrics self)) /\
    promoted_count (metrics self')
      = promoted_count (metrics self) + length ids /\
    forall id, id ∈ ids ->
      exists e, e ∈ metrics self' /\ TrialMetric.request_id e = id /\
                TrialMetric.promoted e = true.
Proof.
  intros Hd.
  destruct (promotions_async_unfold request_id x d self Hd)
    as (index & Hle & _ & ->).
  unfold promotions_async_at.
  set (e := {| TrialMetric.request_id := request_id;
               TrialMetric.metric := x; TrialMetric.promoted := _ |}).
  destruct (Z.of_nat index <? _)%Z eqn:Hnow.
  - eexists _, _. split; [done|]. cbn [set_metrics metrics length].
    rewrite length_list_insert_at, promoted_count_insert_at.
    repeat split; try done.
    intros id ->%list_elem_of_singleton. exists e. repeat split.
    unfold list_insert_at. set_solver.
  - destruct (negb _) eqn:Hgrow.
    + destruct (py_index_quota (length (metrics self)) d Hd)
        as (k & -> & Hk).
      cbn [set_metrics metrics].
      destruct (list_insert_at index e (metrics self) !! k) as [old|] eqn:Hold.
      2: { apply lookup_ge_None in Hold.
           rewrite length_list_insert_at in Hold. lia. }
      destruct (negb (TrialMetric.promoted old)) eqn:Hflag.
      * apply negb_true_iff in Hflag.
        eexists _, _. split; [done|]. cbn [set_metrics metrics length].
        rewrite length_alter, length_list_insert_at.
        rewrite (promoted_count_alter _ _ old) by done.
        rewrite promoted_count_insert_at. cbn [TrialMetric.promoted e].
        repeat split; try done; try lia.
        intros id ->%list_elem_of_singleton.
        exists (set_promoted true old). repeat split.
        apply list_elem_of_lookup. exists k.
        by rewrite list_lookup_alter_eq, Hold.
      * eexists _, _. split; [done|]. cbn [set_metrics metrics length].
        rewrite length_list_insert_at, promoted_count_insert_at.
        cbn [TrialMetric.promoted e].
        repeat split; try done; try lia. by intros id ?%elem_of_nil.
    + eexists _, _. split; [done|]. cbn [set_metrics metrics length].
      rewrite length_list_insert_at, promoted_count_insert_at.
      cbn [TrialMetric.promoted e].
      repeat split; try done; try lia. by intros id ?%elem_of_nil.
Qed.

Lemma promotions_async_accounting_witness :
  (-2 <> 0)%Z /\
  exists ids self',
    promotions_async 9 (7 # 2) (-2) example_rung = (Ok ids, self') /\
    length ids <= 1 /\
    length (metrics self') = S (length (metrics example_rung)) /\
    promoted_count (metrics self')
      = promoted_count (metrics example_rung) + length ids /\
    forall id, id ∈ ids ->
      exists e, e ∈ metrics self' /\ TrialMetric.request_id e = id /\
                TrialMetric.promoted e = true.
Proof.
  split; [lia|].
  apply (promotions_async_accounting 9 (7 # 2) (-2) example_rung). lia.
Defined.

Lemma records_insert_at index e l :
  records (list_insert_at index e l) =
  list_insert_at index
    (TrialMetric.request_id e, TrialMetric.metric e) (records l).
Proof.
  unfold records, list_insert_at.
  by rewrite map_app, map_cons, firstn_map, skipn_map.
Qed.

Lemma records_alter_promoted b k l :
  records (alter (set_promoted b) k l) = records l.
Proof.
  revert k. induction l as [|a l IH]; intros [|k]; try done.
  cbn [alter list_alter records map]. f_equal. apply IH.
Qed.

(** X2.  [promotions_async] keeps what the rung has recorded: the earlier
    results stay in their order, the new result is inserted among them, and
    an entry that was promoted stays in the list as it is, so a promotion
    is never taken back. *)
Theorem promotions_async_keeps_records (request_id : UUID) (x : Q) (d : Z)
    (self self' : Rung) (ids : list UUID) :
  promotions_async request_id x d self = (Ok ids, self') ->
  (exists index,
     index <= length (metrics self) /\
     records (metrics self')
       = list_insert_at index (request_id, x) (records (metrics self))) /\
  forall e, e ∈ metrics self -> TrialMetric.promoted e = true ->
            e ∈ metrics self'.
Proof.
  destruct (decide (d = 0%Z)) as [->|Hd].
  { by rewrite promotions_async_zero. }
  destruct (promotions_async_unfold request_id x d self Hd)
    as (index & Hle & _ & ->).
  unfold promotions_async_at.
  set (e0 := {| TrialMetric.request_id := request_id;
                TrialMetric.metric := x; TrialMetric.promoted := _ |}).
  assert (Hin : forall e, e ∈ metrics self ->
            e ∈ list_insert_at index e0 (metrics self)).
  { intros e He. unfold list_insert_at.
    rewrite <- (take_drop index (metrics self)) in He.
    apply elem_of_app in He as [He|He]; apply elem_of_app;
      [by left|right; by apply list_elem_of_further]. }
  intros Hrun.
  repeat case_match; try discriminate Hrun; injection Hrun as <- <-;
    cbn [set_metrics metrics].
  all: split;
    [exists index; split; [done|];
     by rewrite ?records_alter_promoted, records_insert_at|].
  all: intros e He Hp; try (by apply Hin).
  specialize (Hin e He).
  apply list_elem_of_lookup in Hin as [k Hk].
  apply list_elem_of_lookup. exists k.
  match goal with
  | H : metrics _ !! ?n = Some ?t, Hflag : negb (TrialMetric.promoted ?t) = true
    |- _ =>
      cbn [set_metrics metrics] in H;
      destruct (decide (n = k)) as [->|Hne];
      [rewrite Hk in H; injection H as <-; by rewrite Hp in Hflag|]
  end.
  by rewrite list_lookup_alter_ne.
Qed.

Lemma promotions_async_keeps_records_witness :
  (exists index,
     index <= length (metrics example_rung) /\
     records (metrics (promotions_async 9 2 2 example_rung).2)
       = list_insert_at index (9%N, 2%Q) (records (metrics example_rung))) /\
  forall e, e ∈ metrics example_rung -> TrialMetric.promoted e = true ->
            e ∈ metrics (promotions_async 9 2 2 example_rung).2.
Proof.
  apply (promotions_async_keeps_records 9 2 2 example_rung
           (promotions_async 9 2 2 example_rung).2 [9%N]).
  vm_compute. reflexivity.
Defined.

Lemma promotions_async_with_index request_id x d index self :
  d <> 0%Z ->
  search_loop (metrics self) x 0 (length (metrics self)) = Ok index ->
  promotions_async request_id x d self =
    promotions_async_at request_id x d index self.
Proof.
  intros Hd Hsearch.
  unfold promotions_async, promotions_async_at.
  cbn [bind get].
  apply Z.eqb_neq in Hd. rewrite Hd.
  assert (Hsearch' : _search_metric_index x self = (Ok index, self)).
  { unfold _search_metric_index. by rewrite Hsearch. }
  rewrite (bind_ok _ _ _ _ _ Hsearch').
  cbn [bind modify].
  destruct (Z.of_nat index <? _)%Z; [done|].
  destruct (negb _); [|done].
  cbn [bind get set_metrics metrics].
  rewrite length_list_insert_at.
  destruct (py_index _ _) as [k|]; [|done].
  cbn [bind from_option ret raise].
  destruct (_ !! k) as [entry|]; [|done].
  cbn [bind from_option ret raise].
  destruct (negb _); done.
Qed.

(** X3.  With a divisor of at least two, a result that is at least as
    large as every result of the rung (as the [sys.float_info.max] of an
    early exit is) is recorded behind all of them and is not promoted; when
    the trial has no earlier entry in the rung it is not among the trials
    returned. *)
Theorem promotions_async_worst_result (request_id : UUID) (x : Q) (d : Z)
    (self : Rung) :
  (2 <= d)%Z ->
  (forall e, e ∈ metrics self ->
     (TrialMetric.metric e <= x)%Q /\ TrialMetric.request_id e <> request_id) ->
  exists ids self',
    promotions_async request_id x d self = (Ok ids, self') /\
    metrics self' !! length (metrics self) = Some (entry request_id x false) /\
    request_id ∉ ids.
Proof.
  intros Hd Hall.
  rewrite (promotions_async_with_index request_id x d (length (metrics self)))
    by (first [lia | apply search_loop_all_le; [lia|]; intros e He;
                     by apply Hall]).
  unfold promotions_async_at.
  set (len := length (metrics self)).
  assert (H1 := Z.div_mod (Z.of_nat len) d ltac:(lia)).
  assert (H2 := Z.mod_pos_bound (Z.of_nat len) d ltac:(lia)).
  assert (H3 := Z.div_mod (Z.of_nat len + 1) d ltac:(lia)).
  assert (H4 := Z.mod_pos_bound (Z.of_nat len + 1) d ltac:(lia)).
  assert (Hnow : (Z.of_nat len <? (Z.of_nat len + 1) / d)%Z = false).
  { apply Z.ltb_ge. nia. }
  rewrite Hnow.
  assert (Hlast : forall f,
    (forall k, f k = alter (set_promoted true) k) ->
    forall k, k < len ->
      f k (list_insert_at len
             {| TrialMetric.request_id := request_id;
                TrialMetric.metric := x; TrialMetric.promoted := false |}
             (metrics self)) !! len = Some (entry request_id x false)).
  { intros f Hf k Hk. rewrite Hf, list_lookup_alter_ne by lia.
    rewrite lookup_list_insert_at by done.
    rewrite decide_False, decide_True by lia. done. }
  assert (Hnew : list_insert_at len
             {| TrialMetric.request_id := request_id;
                TrialMetric.metric := x; TrialMetric.promoted := false |}
             (metrics self) !! len = Some (entry request_id x false)).
  { rewrite lookup_list_insert_at by done.
    rewrite decide_False, decide_True by lia. done. }
  destruct (negb _) eqn:Hgrow.
  - apply negb_true_iff, Z.eqb_neq in Hgrow.
    assert (Hold : (0 <= Z.of_nat len / d < Z.of_nat len)%Z) by nia.
    rewrite py_index_nonneg by lia.
    cbn [set_metrics metrics].
    rewrite lookup_list_insert_at by done.
    rewrite decide_True by lia.
    destruct (metrics self !! Z.to_nat (Z.of_nat len / d)) as [old|] eqn:Eold.
    2: { apply lookup_ge_None in Eold. fold len in Eold. lia. }
    destruct (negb (TrialMetric.promoted old)).
    + eexists _, _. split; [done|]. cbn [set_metrics metrics]. split.
      * apply (Hlast (fun k => alter (set_promoted true) k)); [done|lia].
      * intros ->%list_elem_of_singleton.
        apply list_elem_of_lookup_2, Hall in Eold as [_ Hne]. done.
    + eexists _, _. split; [done|]. cbn [set_metrics metrics].
      split; [done|]. by intros ?%elem_of_nil.
  - eexists _, _. split; [done|]. cbn [set_metrics metrics].
    split; [done|]. by intros ?%elem_of_nil.
Qed.

Lemma promotions_async_worst_result_witness :
  exists ids self',
    promotions_async 9 float_max 2 example_rung = (Ok ids, self') /\
    metrics self' !! length (metrics example_rung)
      = Some (entry 9 float_max false) /\
    9%N ∉ ids.
Proof.
  apply (promotions_async_worst_result 9 float_max 2 example_rung); [lia|].
  intros e He. cbn [example_rung metrics] in He.
  repeat (apply elem_of_cons in He as [->|He]);
    [| | | |by apply elem_of_nil in He].
  all: split; [vm_compute; discriminate|discriminate].
Defined.

(** X4.  With a divisor of at least one, a result that is strictly better
    than every result of the rung is put first, and it is promoted at once
    exactly when the rung, the new result included, holds at least
    [divisor] results. *)
Theorem promotions_async_best_result (request_id : UUID) (x : Q) (d : Z)
    (self : Rung) :
  (1 <= d)%Z ->
  (forall e, e ∈ metrics self -> (x < TrialMetric.metric e)%Q) ->
  let promote_now :=
    bool_decide (d <= Z.of_nat (length (metrics self)) + 1)%Z in
  promotions_async request_id x d self =
    (Ok (if promote_now then [request_id] else []),
     set_metrics (cons (entry request_id x promote_now)) self).
Proof.
  intros Hd Hall promote_now.
  rewrite (promotions_async_with_index request_id x d 0)
    by (first [lia | apply search_loop_all_gt; [lia|done]]).
  unfold promotions_async_at.
  set (len := length (metrics self)) in *.
  subst promote_now. case_bool_decide as Hroom.
  - assert (Hpos : (0 < (Z.of_nat len + 1) / d)%Z)
      by (apply Z.div_str_pos; lia).
    rewrite (proj2 (Z.ltb_lt _ _)) by lia. done.
  - rewrite (Z.div_small (Z.of_nat len + 1) d) by lia.
    rewrite (Z.div_small (Z.of_nat len) d) by lia. done.
Qed.

Lemma promotions_async_best_result_witness :
  promotions_async 9 (1 # 2) 2 example_rung =
    (Ok [9%N], set_metrics (cons (entry 9 (1 # 2) true)) example_rung).
Proof.
  apply (promotions_async_best_result 9 (1 # 2) 2 example_rung); [lia|].
  intros e He. cbn [example_rung metrics] in He.
  repeat (apply elem_of_cons in He as [->|He]);
    [| | | |by apply elem_of_nil in He].
  all: vm_compute; reflexivity.
Defined.

(** ** Further properties of [_get_close_rungs_ops] *)

Lemma set_closed_trials_union (new : list UUID) (id : UUID) (s : St) :
  set_closed_trials (fun c => list_to_set new ∪ c)
    (set_closed_trials (add_to_set id) s)
  = set_closed_trials (fun c => list_to_set (id :: new) ∪ c) s.
Proof.
  destruct s. unfold set_closed_trials, add_to_set. st_simpl. f_equal.
  rewrite list_to_set_cons, (assoc_L (∪)).
  by rewrite (comm_L (∪) (list_to_set new)).
Qed.

Lemma set_closed_trials_app (new1 new2 : list UUID) (s : St) :
  set_closed_trials (fun c => list_to_set new2 ∪ c)
    (set_closed_trials (fun c => list_to_set new1 ∪ c) s)
  = set_closed_trials (fun c => list_to_set (new1 ++ new2) ∪ c) s.
Proof.
  destruct s. unfold set_closed_trials. st_simpl. f_equal.
  rewrite list_to_set_app_L, (assoc_L (∪)).
  by rewrite (comm_L (∪) (list_to_set new2)).
Qed.

Lemma set_closed_trials_nil (s : St) :
  set_closed_trials (fun c => list_to_set [] ∪ c) s = s.
Proof.
  destruct s. unfold set_closed_trials. st_simpl. f_equal.
  by rewrite list_to_set_nil, (left_id_L ∅ (∪)).
Qed.

(** The inner loop closes the trials of the unpromoted entries that are
    neither closed nor early exits, each once. *)
Lemma close_metrics_loop_spec entries ops s :
  exists new,
    close_metrics_loop entries ops s =
      (Ok (ops ++ map Close new),
       set_closed_trials (fun c => list_to_set new ∪ c) s) /\
    NoDup new /\
    forall id, id ∈ new <->
      (id ∉ closed_trials s) /\ (id ∉ early_exit_trials s) /\
      exists e, e ∈ entries /\ TrialMetric.request_id e = id /\
                TrialMetric.promoted e = false.
Proof.
  revert ops s. induction entries as [|e entries IH]; intros ops s.
  - exists []. cbn [close_metrics_loop map].
    rewrite app_nil_r, set_closed_trials_nil. split; [done|].
    split; [constructor|]. intros id. split; [by intros ?%elem_of_nil|].
    intros (_ & _ & e & ?%elem_of_nil & _). done.
  - cbn [close_metrics_loop bind get].
    destruct (TrialMetric.promoted e) eqn:Hp; cbn [negb andb].
    { destruct (IH ops s) as (new & -> & Hnd & Hnew). exists new.
      split; [done|]. split; [done|]. intros id. rewrite Hnew.
      split; intros (Hc & He & e' & Hin & Hid & Hp'); repeat split; auto.
      - exists e'. repeat split; auto. by apply list_elem_of_further.
      - exists e'. repeat split; auto.
        apply elem_of_cons in Hin as [->|Hin]; [congruence|done]. }
    case_bool_decide as Hclosed; cbn [negb].
    { destruct (IH ops s) as (new & -> & Hnd & Hnew). exists new.
      split; [done|]. split; [done|]. intros id. rewrite Hnew.
      split; intros (Hc & He & e' & Hin & Hid & Hp'); repeat split; auto.
      - exists e'. repeat split; auto. by apply list_elem_of_further.
      - exists e'. repeat split; auto.
        apply elem_of_cons in Hin as [->|Hin]; [congruence|done]. }
    case_bool_decide as Hearly; cbn [negb].
    { destruct (IH ops s) as (new & -> & Hnd & Hnew). exists new.
      split; [done|]. split; [done|]. intros id. rewrite Hnew.
      split; intros (Hc & He & e' & Hin & Hid & Hp'); repeat split; auto.
      - exists e'. repeat split; auto. by apply list_elem_of_further.
      - exists e'. repeat split; auto.
        apply elem_of_cons in Hin as [->|Hin]; [congruence|done]. }
    cbn [bind modify].
    destruct (IH (ops ++ [Close (TrialMetric.request_id e)])
                (set_closed_trials (add_to_set (TrialMetric.request_id e)) s))
      as (new & -> & Hnd & Hnew).
    exists (TrialMetric.request_id e :: new).
    rewrite set_closed_trials_union, <- app_assoc. split; [done|].
    assert (Hfresh : TrialMetric.request_id e ∉ new).
    { intros (Hc & _)%Hnew. apply Hc. st_simpl. unfold add_to_set.
      apply elem_of_union. left. by apply elem_of_singleton. }
    split; [by constructor|].
    intros id. rewrite elem_of_cons, Hnew. st_simpl. unfold add_to_set.
    split.
    + intros [->|(Hc & He & e' & Hin & Hid & Hp')].
      * repeat split; auto. exists e. repeat split; auto.
        apply list_elem_of_here.
      * repeat split; auto; [clear -Hc; set_solver|].
        exists e'. repeat split; auto. by apply list_elem_of_further.
    + intros (Hc & He & e' & Hin & Hid & Hp').
      destruct (decide (id = TrialMetric.request_id e)) as [->|Hne];
        [by left|right].
      repeat split; auto; [by intros [?%elem_of_singleton|?]%elem_of_union|].
      exists e'. repeat split; auto.
      apply elem_of_cons in Hin as [->|Hin]; [congruence|done].
Qed.

(** The same for the whole sweep, over the rungs it visits. *)
Lemma close_rungs_loop_spec ladder ops s :
  exists new,
    close_rungs_loop ladder ops s =
      (Ok (ops ++ map Close new),
       set_closed_trials (fun c => list_to_set new ∪ c) s) /\
    NoDup new /\
    forall id, id ∈ new <->
      (id ∉ closed_trials s) /\ (id ∉ early_exit_trials s) /\
      exists e, e ∈ swept_entries ladder /\ TrialMetric.request_id e = id /\
                TrialMetric.promoted e = false.
Proof.
  revert ops s. induction ladder as [|rung ladder IH]; intros ops s;
    cbn [close_rungs_loop swept_entries].
  - exists []. cbn [map]. rewrite app_nil_r, set_closed_trials_nil.
    split; [done|]. split; [constructor|].
    intros id. split; [by intros ?%elem_of_nil|].
    intros (_ & _ & e & ?%elem_of_nil & _). done.
  - destruct (0 <? outstanding_trials rung)%Z.
    { exists []. cbn [map]. rewrite app_nil_r, set_closed_trials_nil.
      split; [done|]. split; [constructor|].
      intros id. split; [by intros ?%elem_of_nil|].
      intros (_ & _ & e & ?%elem_of_nil & _). done. }
    destruct (close_metrics_loop_spec (metrics rung) ops s)
      as (new1 & Hrun1 & Hnd1 & Hnew1).
    rewrite (bind_ok _ _ _ _ _ Hrun1).
    destruct (IH (ops ++ map Close new1)
                (set_closed_trials (fun c => list_to_set new1 ∪ c) s))
      as (new2 & -> & Hnd2 & Hnew2).
    exists (new1 ++ new2).
    rewrite set_closed_trials_app, map_app, app_assoc. split; [done|].
    st_simpl_in Hnew2.
    split.
    + apply NoDup_app. split; [done|]. split; [|done].
      intros id Hin1 (Hc & _)%Hnew2. apply Hc. clear -Hin1. set_solver.
    + intros id. rewrite elem_of_app, Hnew1, Hnew2. split.
      * intros [(Hc & He & e & Hin & Hid & Hp)
               |(Hc & He & e & Hin & Hid & Hp)].
        -- repeat split; auto. exists e. repeat split; auto.
           apply elem_of_app. by left.
        -- repeat split; auto; [clear -Hc; set_solver|].
           exists e. repeat split; auto. apply elem_of_app. by right.
      * intros (Hc & He & e & Hin & Hid & Hp).
        apply elem_of_app in Hin as [Hin|Hin].
        -- left. repeat split; auto. by exists e.
        -- destruct (decide (id ∈ new1)) as [Hin1|Hout1].
           ++ left. by apply Hnew1.
           ++ right. repeat split; auto; [by intros [?%elem_of_list_to_set|?]%elem_of_union|].
              by exists e.
Qed.

(** X5.  [_get_close_rungs_ops] never fails.  It returns [Close]
    operations only, one for each trial that is neither closed nor an
    early exit and has an unpromoted entry in a rung before the first rung
    with outstanding trials; it adds exactly these trials to
    [closed_trials] and changes nothing else. *)
Theorem get_close_rungs_ops_spec (s : St) :
  exists new,
    _get_close_rungs_ops s =
      (Ok (map Close new),
       set_closed_trials (fun c => list_to_set new ∪ c) s) /\
    NoDup new /\
    forall id, id ∈ new <->
      (id ∉ closed_trials s) /\ (id ∉ early_exit_trials s) /\
      exists e, e ∈ swept_entries (rungs s) /\
                TrialMetric.request_id e = id /\
                TrialMetric.promoted e = false.
Proof.
  unfold _get_close_rungs_ops. cbn [bind get].
  destruct (close_rungs_loop_spec (rungs s) [] s) as (new & Hrun & Hrest).
  by exists new.
Qed.

(** X6.  [_get_close_rungs_ops] is idempotent: called again on the state
    it leaves, it returns no operation and changes nothing. *)
Theorem get_close_rungs_ops_idempotent (s : St) :
  _get_close_rungs_ops (_get_close_rungs_ops s).2
  = (Ok [], (_get_close_rungs_ops s).2).
Proof.
  unfold _get_close_rungs_ops. cbn [bind get].
  destruct (close_rungs_loop_spec (rungs s) [] s)
    as (new & -> & _ & Hnew). cbn [snd]. st_simpl.
  destruct (close_rungs_loop_spec (rungs s) []
              (set_closed_trials (fun c => list_to_set new ∪ c) s))
    as (new' & -> & _ & Hnew').
  assert (Hnone : new' = []).
  { destruct new' as [|id new']; [done|]. exfalso.
    destruct (proj1 (Hnew' id) (list_elem_of_here _ _))
      as (Hc & He & e & Hin & Hid & Hp).
    st_simpl_in Hc. st_simpl_in He.
    apply Hc, elem_of_union. left. apply elem_of_list_to_set, Hnew.
    repeat split; [clear -Hc; set_solver|done|]. by exists e. }
  rewrite Hnone. cbn [map app]. by rewrite set_closed_trials_nil.
Qed.

(** ** Further properties of the construction *)

Lemma rung_increment_pos max_length num_rungs divisor i z :
  rung_increment max_length num_rungs divisor i = Ok z -> (1 <= z)%Z.
Proof.
  unfold rung_increment, bind, lift, ret. cbn [fst].
  repeat case_match; cbn [fst]; intros [=]; lia.
Qed.

Lemma increasing_from_app z l x :
  increasing_from z l -> (z < x)%Z -> (forall y, y ∈ l -> (y < x)%Z) ->
  increasing_from z (l ++ [x]).
Proof.
  revert z. induction l as [|a l IH]; intros z Hl Hz Hall; cbn.
  - done.
  - destruct Hl as [Hza Hl]. split; [done|]. apply IH; [done| |].
    + apply Hall, list_elem_of_here.
    + intros y Hy. by apply Hall, list_elem_of_further.
Qed.

(** The loop appends one blank rung per index of its range, each with a
    threshold above the one before. *)
Lemma init_rungs_loop_increasing max_length num_rungs divisor range :
  forall units ladder,
  increasing_from 0 (map units_needed ladder) ->
  (0 <= units)%Z ->
  (forall y, y ∈ map units_needed ladder -> (y <= units)%Z) ->
  wp (init_rungs_loop max_length num_rungs divisor range units)
    (fun o ladder' =>
       o = Ok tt ->
       increasing_from 0 (map units_needed ladder') /\
       map idx ladder' = map idx ladder ++ map Z.of_nat range)
    ladder.
Proof.
  induction range as [|i range IH]; intros units ladder Hinc Hpos Hall;
    cbn [init_rungs_loop].
  - wp_steps. intros _. by rewrite app_nil_r.
  - wp_step. wp_step.
    destruct (rung_increment _ _ _ _) as [increment|e|] eqn:Einc;
      cbn [wp_cont]; [|done|done].
    apply rung_increment_pos in Einc.
    wp_steps. eapply wp_mono.
    + apply (IH (units + increment)%Z).
      * rewrite map_app. cbn [map new_rung units_needed].
        apply increasing_from_app; [done|lia|].
        intros y Hy. specialize (Hall y Hy). lia.
      * lia.
      * rewrite map_app. cbn [map new_rung units_needed].
        intros y [Hy| ->%list_elem_of_singleton]%elem_of_app; [|lia].
        specialize (Hall y Hy). lia.
    + intros o ladder' Hpost Hok. destruct (Hpost Hok) as [Hinc' Hidx].
      split; [done|]. rewrite Hidx, map_app, <- app_assoc. done.
Qed.

Lemma fresh_ladder_increasing
    (max_length max_trials num_rungs0 divisor max_concurrent_trials : Z)
    (s : St) :
  new_ASHASearchMethodState max_length max_trials num_rungs0 divisor
    max_concurrent_trials = Ok s ->
  length (rungs s) = Z.to_nat num_rungs0 /\
  map idx (rungs s) = map Z.of_nat (seq 0 (Z.to_nat num_rungs0)) /\
  Forall blank_rung (rungs s) /\
  increasing_from 0 (map units_needed (rungs s)).
Proof.
  intros Hnew.
  destruct (new_state_fresh _ _ _ _ _ _ Hnew) as (_ & Hlen & Hblank & _).
  revert Hnew. unfold new_ASHASearchMethodState, _init_rungs.
  pose proof (init_rungs_loop_increasing max_length num_rungs0 divisor
                (seq 0 (Z.to_nat num_rungs0)) 0 [] I ltac:(lia)
                ltac:(by intros y ?%elem_of_nil))
    as Hloop.
  unfold wp in Hloop.
  destruct (init_rungs_loop _ _ _ _ _ _) as [[[]|e|] ladder];
    intros Hs; try discriminate.
  injection Hs as <-. st_simpl. cbn [fst snd] in *.
  destruct Hloop as [Hinc Hidx]; [done|].
  repeat split; auto.
Qed.

(** X7.  Whatever the parameters, a construction that succeeds builds a
    ladder of [num_rungs] blank rungs (none when [num_rungs <= 0]), numbered
    from zero, whose thresholds [units_needed] are positive and strictly
    increasing, also where the double-precision arithmetic is not exact. *)
Theorem new_state_ladder_increasing
    (max_length max_trials num_rungs0 divisor max_concurrent_trials : Z)
    (s : St) :
  new_ASHASearchMethodState max_length max_trials num_rungs0 divisor
    max_concurrent_trials = Ok s ->
  length (rungs s) = Z.to_nat num_rungs0 /\
  map idx (rungs s) = map Z.of_nat (seq 0 (Z.to_nat num_rungs0)) /\
  Forall blank_rung (rungs s) /\
  increasing_from 0 (map units_needed (rungs s)).
Proof. apply fresh_ladder_increasing. Qed.

Lemma new_state_ladder_increasing_witness :
  length (rungs example_state) = Z.to_nat 2 /\
  map idx (rungs example_state) = map Z.of_nat (seq 0 (Z.to_nat 2)) /\
  Forall blank_rung (rungs example_state) /\
  increasing_from 0 (map units_needed (rungs example_state)).
Proof.
  apply (new_state_ladder_increasing 8 3 2 2 0 example_state).
  vm_compute. reflexivity.
Defined.

(** X8.  The constructor does not reject [num_rungs <= 0]: it builds a
    state without rungs, and in every state a run reaches from it
    [on_trial_created] raises [IndexError] and changes nothing, so no trial
    is ever registered through it. *)
Theorem new_state_without_rungs (uuid4 : nat -> UUID)
    (search_space : nat -> HParams)
    (max_length max_trials num_rungs0 divisor max_concurrent_trials : Z) :
  (num_rungs0 <= 0)%Z ->
  exists s0,
    new_ASHASearchMethodState max_length max_trials num_rungs0 divisor
      max_concurrent_trials = Ok s0 /\
    rungs s0 = [] /\
    forall evs request_id,
      on_trial_created request_id (run uuid4 search_space evs s0).2
      = (Raise IndexError, (run uuid4 search_space evs s0).2).
Proof.
  intros Hn. unfold new_ASHASearchMethodState, _init_rungs.
  replace (Z.to_nat num_rungs0) with 0 by lia. cbn [seq init_rungs_loop ret].
  eexists. split; [done|]. split; [done|].
  intros evs request_id.
  destruct (run_height uuid4 search_space 0 num_rungs0 evs
              {| max_length := max_length; max_trials := max_trials;
                 num_rungs := num_rungs0; divisor := divisor;
                 max_concurrent_trials := max_concurrent_trials;
                 is_smaller_better := true; rungs := [];
                 trial_rungs := ∅; pending_trials := 0;
                 completed_trials := 0; invalid_trials := 0;
                 early_exit_trials := ∅; closed_trials := ∅; draws := 0 |})
    as [_ Hlen]; [done|].
  apply nil_length_inv in Hlen.
  revert Hlen. generalize (run uuid4 search_space evs
    {| max_length := max_length; max_trials := max_trials;
       num_rungs := num_rungs0; divisor := divisor;
       max_concurrent_trials := max_concurrent_trials;
       is_smaller_better := true; rungs := [];
       trial_rungs := ∅; pending_trials := 0;
       completed_trials := 0; invalid_trials := 0;
       early_exit_trials := ∅; closed_trials := ∅; draws := 0 |}).2.
  intros s Hlen.
  unfold on_trial_created, rung_at, bind, get. by rewrite Hlen.
Qed.

Lemma new_state_without_rungs_witness :
  exists s0,
    new_ASHASearchMethodState 8 3 0 2 0 = Ok s0 /\
    rungs s0 = [] /\
    forall evs request_id,
      on_trial_created request_id
        (run example_uuid4 example_search_space evs s0).2
      = (Raise IndexError, (run example_uuid4 example_search_space evs s0).2).
Proof.
  apply (new_state_without_rungs example_uuid4 example_search_space 8 3 0 2 0).
  lia.
Defined.

Lemma zero_divisor_raises
    (max_length max_trials num_rungs0 max_concurrent_trials : Z) :
  (2 <= num_rungs0)%Z ->
  new_ASHASearchMethodState max_length max_trials num_rungs0 0
    max_concurrent_trials
  = Raise (match PyFloat.of_int max_length with
           | Ok _ => ZeroDivisionError
           | _ => OverflowError
           end).
Proof.
  intros Hn. unfold new_ASHASearchMethodState, _init_rungs.
  destruct (Z.to_nat num_rungs0) as [|n] eqn:En; [lia|].
  cbn [seq init_rungs_loop].
  assert (Hinc : rung_increment max_length num_rungs0 0 0 =
            Raise (match PyFloat.of_int max_length with
                   | Ok _ => ZeroDivisionError
                   | _ => OverflowError
                   end)).
  { unfold rung_increment, bind, lift, ret. cbn [fst].
    change (PyFloat.of_int 0) with (@Ok PyFloat.float (S754_zero false)).
    cbn [fst snd].
    destruct (Z.to_N (num_rungs0 - Z.of_nat 0 - 1)) as [|p] eqn:Ep; [lia|].
    cbn [PyFloat.pow fst snd].
    unfold PyFloat.of_int.
    destruct (binary_normalize _ _ max_length _ _); done. }
  unfold bind at 1, lift. by rewrite Hinc.
Qed.




(** ** Further properties of single handlers *)

Section HandlerFacts.

Context (uuid4 : nat -> UUID) (search_space : nat -> HParams).

Lemma get_max_concurrent_trials_ok (s : St) :
  (1 <= num_rungs s)%Z ->
  exists N,
    _get_max_concurrent_trials s = (Ok N, s) /\
    (1 <= max_trials s -> 1 <= N <= max_trials s)%Z /\
    (0 < max_concurrent_trials s -> N <= max_concurrent_trials s)%Z /\
    (max_concurrent_trials s <= 0 ->
     N <= Z.max 1 (divisor s ^ (num_rungs s - 1)))%Z.
Proof.
  intros Hn. unfold _get_max_concurrent_trials, int_pow_to_int.
  cbn [bind get].
  destruct (0 <? max_concurrent_trials s)%Z eqn:Hc.
  - apply Z.ltb_lt in Hc. eexists. split; [done|]. repeat split; lia.
  - apply Z.ltb_ge in Hc.
    rewrite (proj2 (Z.leb_le 0 (num_rungs s - 1))) by lia.
    cbn [bind lift ret]. eexists. split; [done|]. repeat split; lia.
Qed.

(** X10.  On a ladder of at least one rung [_get_max_concurrent_trials]
    never fails and leaves the state alone; with [max_trials >= 1] the
    number of trials to start is between one and [max_trials], at most
    [max_concurrent_trials] when that is set, and at most
    [divisor ^ (num_rungs - 1)] (or one) when it is not. *)
Theorem get_max_concurrent_trials_bounds (s : St) :
  (1 <= num_rungs s)%Z -> (1 <= max_trials s)%Z ->
  exists N,
    _get_max_concurrent_trials s = (Ok N, s) /\
    (1 <= N <= max_trials s)%Z /\
    (0 < max_concurrent_trials s -> N <= max_concurrent_trials s)%Z /\
    (max_concurrent_trials s <= 0 ->
     N <= Z.max 1 (divisor s ^ (num_rungs s - 1)))%Z.
Proof.
  intros Hn Ht.
  destruct (get_max_concurrent_trials_ok s Hn) as (N & Hrun & HN & Hrest).
  exists N. split; [done|]. split; [by apply HN|done].
Qed.

(** The operations and the registrations of [count] trials created from
    draw [first] on. *)
Lemma initial_operations_loop_spec count : forall ops s rung0,
  rungs s !! 0 = Some rung0 ->
  initial_operations_loop uuid4 search_space count ops s =
    (Ok (ops ++ initial_ops uuid4 search_space (units_needed rung0)
                  (seq (draws s) count)),
     set_pending_trials (fun n => n + Z.of_nat count)%Z
       (set_trial_rungs
          (fun m => foldl (fun m k => <[uuid4 k := 0]> m) m
                      (seq (draws s) count))
          (set_draws (fun n => n + count) s))).
Proof.
  induction count as [|count IH]; intros ops s rung0 Hrung0.
  - cbn [initial_operations_loop seq initial_ops flat_map foldl ret].
    rewrite app_nil_r. destruct s as [ml mt nr dv mc sb rs tr pt ct it ee cl dr].
    unfold set_pending_trials. st_simpl.
    f_equal. f_equal; lia.
  - apply wp_run. cbn [initial_operations_loop]. wp_steps.
    eapply wp_of_run; [by apply (IH _ _ rung0)|]. st_simpl.
    cbn [seq initial_ops flat_map foldl app fst snd].
    rewrite <- !app_assoc. cbn [app]. split; [done|].
    destruct s as [ml mt nr dv mc sb rs tr pt ct it ee cl dr].
    unfold set_pending_trials, set_trial_rungs, set_draws. st_simpl.
    f_equal; lia.
Qed.

(** X11.  [initial_operations] on a ladder with a first rung: for the
    number [N] that [_get_max_concurrent_trials] gives, it returns [N]
    pairs of a [Create] with a fresh id and hyperparameters and the
    [ValidateAfter] of that trial up to the threshold of rung 0; it
    registers each of these trials at rung 0 and raises [pending_trials] by
    [N], changing nothing else. *)
Theorem initial_operations_spec (s : St) (N : Z) (rung0 : Rung) :
  _get_max_concurrent_trials s = (Ok N, s) ->
  rungs s !! 0 = Some rung0 ->
  initial_operations uuid4 search_space s =
    (Ok (initial_ops uuid4 search_space (units_needed rung0)
           (seq (draws s) (Z.to_nat N))),
     set_pending_trials (fun n => n + Z.of_nat (Z.to_nat N))%Z
       (set_trial_rungs
          (fun m => foldl (fun m k => <[uuid4 k := 0]> m) m
                      (seq (draws s) (Z.to_nat N)))
          (set_draws (fun n => n + Z.to_nat N) s))).
Proof.
  intros HN Hrung0. unfold initial_operations.
  rewrite (bind_ok _ _ _ _ _ HN).
  by rewrite (initial_operations_loop_spec _ _ _ rung0).
Qed.

(** X12.  A result or an early exit for a trial that is not in
    [trial_rungs] raises [KeyError], and the handler's updates up to the
    lookup stay: [pending_trials] has been decremented, and the early exit
    has been recorded in [early_exit_trials] and [closed_trials], and for
    [INVALID_HP] counted in [invalid_trials]. *)
Theorem unknown_trial_key_error (request_id : UUID) (x : Q)
    (train_length : Z) (exited_reason : PyValue) (s : St) :
  trial_rungs s !! request_id = None ->
  on_validation_completed uuid4 search_space request_id (VFloat x)
    train_length s
  = (Raise KeyError, set_pending_trials (fun n => n - 1)%Z s) /\
  on_trial_exited_early uuid4 search_space request_id exited_reason s
  = (Raise KeyError,
     let s1 :=
       set_closed_trials (add_to_set request_id)
         (set_early_exit_trials (add_to_set request_id)
            (set_pending_trials (fun n => n - 1)%Z s)) in
     if is_INVALID_HP exited_reason
     then set_invalid_trials (fun n => n + 1)%Z s1
     else s1).
Proof.
  intros Hunknown.
  assert (Hpromote : forall y s',
    trial_rungs s' !! request_id = None ->
    _promote_async uuid4 search_space request_id y s' = (Raise KeyError, s')).
  { intros y s' Hnone. apply wp_run. unfold _promote_async. wp_steps.
    destruct (length (rungs s')); cbn [promote_async_fuel];
      unfold promote_async_body; by wp_steps. }
  split; apply wp_run.
  - unfold on_validation_completed. wp_steps.
    all: by eapply wp_of_run; [apply Hpromote|].
  - unfold on_trial_exited_early. wp_steps; try done.
    by eapply wp_of_run; [apply Hpromote|].
Qed.

End HandlerFacts.

Lemma get_max_concurrent_trials_bounds_witness :
  exists N,
    _get_max_concurrent_trials example_state = (Ok N, example_state) /\
    (1 <= N <= max_trials example_state)%Z /\
    (0 < max_concurrent_trials example_state ->
     N <= max_concurrent_trials example_state)%Z /\
    (max_concurrent_trials example_state <= 0 ->
     N <= Z.max 1 (divisor example_state ^ (num_rungs example_state - 1)))%Z.
Proof.
  apply (get_max_concurrent_trials_bounds example_state);
    vm_compute; discriminate.
Defined.

Lemma initial_operations_spec_witness :
  initial_operations example_uuid4 example_search_space example_state =
    (Ok (initial_ops example_uuid4 example_search_space 4 (seq 0 2)),
     set_pending_trials (fun n => n + 2)%Z
       (set_trial_rungs
          (fun m => foldl (fun m k => <[example_uuid4 k := 0]> m) m (seq 0 2))
          (set_draws (fun n => n + 2) example_state))).
Proof.
  apply (initial_operations_spec example_uuid4 example_search_space
           example_state 2 (new_rung 4 0)); reflexivity.
Defined.

Lemma unknown_trial_key_error_witness :
  on_validation_completed example_uuid4 example_search_space 7 (VFloat 1) 4
    example_state
  = (Raise KeyError, set_pending_trials (fun n => n - 1)%Z example_state) /\
  on_trial_exited_early example_uuid4 example_search_space 7
    (VExitedReason INVALID_HP) example_state
  = (Raise KeyError,
     set_invalid_trials (fun n => n + 1)%Z
       (set_closed_trials (add_to_set 7)
          (set_early_exit_trials (add_to_set 7)
             (set_pending_trials (fun n => n - 1)%Z example_state)))).
Proof.
  apply (unknown_trial_key_error example_uuid4 example_search_space 7 1 4
           (VExitedReason INVALID_HP) example_state).
  reflexivity.
Defined.

(** ** Invariants of the state machine *)

Lemma is_Some_lookup_alter {A} (f : A -> A) (l : list A) i k :
  is_Some (l !! k) -> is_Some (alter f i l !! k).
Proof.
  intros [x Hx]. rewrite list_lookup_alter.
  destruct (decide (i = k)) as [->|]; rewrite ?Hx; eauto.
Qed.

(** A stable invariant is kept by every handler, whatever the outcome, and
    so by every run. *)
Section Invariant.

Context (uuid4 : nat -> UUID) (search_space : nat -> HParams).
Context (I : St -> Prop) (HI : stable_invariant I).

Lemma stable_pending f s : I s -> I (set_pending_trials f s).
Proof. apply HI. Qed.

Lemma stable_completed s : I s -> I (set_completed_trials (fun n => n + 1)%Z s).
Proof. apply HI. Qed.

Lemma stable_invalid s : I s -> I (set_invalid_trials (fun n => n + 1)%Z s).
Proof. apply HI. Qed.

Lemma stable_early id s : I s -> I (set_early_exit_trials (add_to_set id) s).
Proof. apply HI. Qed.

Lemma stable_closed id s : I s -> I (set_closed_trials (add_to_set id) s).
Proof. apply HI. Qed.

Lemma stable_draws s : I s -> I (set_draws S s).
Proof. apply HI. Qed.

Lemma stable_outstanding i f s :
  I s -> I (set_rungs (alter (set_outstanding_trials f) i) s).
Proof. apply HI. Qed.

Lemma stable_register id k s :
  I s -> is_Some (rungs s !! k) -> I (set_trial_rungs (<[id := k]>) s).
Proof. apply HI. Qed.

Lemma stable_promotions id x i self s :
  I s -> trial_rungs s !! id = Some i -> rungs s !! i = Some self ->
  Z.of_nat i <> (num_rungs s - 1)%Z ->
  I (set_rungs
       (fun l => <[i := (promotions_async id x (divisor s) self).2]> l) s).
Proof. apply HI. Qed.

Lemma stable_append id x i s :
  I s -> trial_rungs s !! id = Some i ->
  Z.of_nat i = (num_rungs s - 1)%Z ->
  I (set_rungs
       (alter (set_metrics
                 (fun l => l ++ [{| TrialMetric.request_id := id;
                                    TrialMetric.metric := x;
                                    TrialMetric.promoted := false |}])) i)
       s).
Proof. apply HI. Qed.

Lemma stable_purge id i s :
  I s ->
  (exists s1, I s1 /\ invalid_trials s = (invalid_trials s1 + 1)%Z) ->
  I (set_rungs (alter (purge_metrics id) i) s).
Proof. apply HI. Qed.

Ltac solve_I :=
  repeat first
    [ assumption
    | apply stable_pending | apply stable_completed | apply stable_invalid
    | apply stable_early | apply stable_closed | apply stable_draws
    | apply stable_outstanding
    | apply stable_register;
        [|st_simpl; repeat apply is_Some_lookup_alter; by eauto] ].

Lemma close_metrics_loop_keeps entries ops s :
  I s -> wp (close_metrics_loop entries ops) (fun _ s' => I s') s.
Proof.
  revert ops s. induction entries as [|e entries IH]; intros ops s Hs;
    cbn [close_metrics_loop]; wp_steps; try done.
  all: apply IH; solve_I.
Qed.

Lemma close_rungs_loop_keeps ladder ops s :
  I s -> wp (close_rungs_loop ladder ops) (fun _ s' => I s') s.
Proof.
  revert ops s. induction ladder as [|rung ladder IH]; intros ops s Hs;
    cbn [close_rungs_loop]; wp_steps; try done.
  eapply wp_mono; [by apply close_metrics_loop_keeps|].
  intros [ops'| |] s' Hs'; cbn [wp_cont]; try done. by apply IH.
Qed.

Lemma promote_async_tail_keeps ops added s :
  I s ->
  wp (promote_async_tail uuid4 search_space ops added) (fun _ s' => I s') s.
Proof.
  intros Hs.
  unfold promote_async_tail, _get_close_rungs_ops. wp_steps; try solve_I.
  all: eapply wp_mono; [apply close_rungs_loop_keeps; solve_I|];
    intros [?| |] ? ?; cbn [wp_cont]; wp_steps; done.
Qed.

Lemma promote_loop_keeps rec rung_idx promotions ops added s :
  (forall pid x s', I s' -> wp (rec pid x) (fun _ s'' => I s'') s') ->
  I s -> is_Some (rungs s !! (rung_idx + 1)) ->
  wp (promote_loop rec rung_idx promotions ops added) (fun _ s' => I s') s.
Proof.
  intros Hrec. revert ops added s.
  induction promotions as [|pid promotions IH]; intros ops added s Hs Hnext;
    cbn [promote_loop]; wp_steps; try solve_I.
  - apply IH; [solve_I|]. st_simpl. by apply is_Some_lookup_alter.
  - eapply wp_mono; [apply Hrec; solve_I|].
    intros [?| |] ? ?; cbn [wp_cont]; wp_steps; done.
Qed.

Lemma promote_async_body_keeps rec request_id x s :
  (forall pid y s', I s' -> wp (rec pid y) (fun _ s'' => I s'') s') ->
  I s ->
  wp (promote_async_body uuid4 search_space rec request_id x)
    (fun _ s' => I s') s.
Proof.
  intros Hrec Hs. unfold promote_async_body. wp_steps; try solve_I.
  - apply promote_async_tail_keeps. apply stable_closed.
    apply stable_append; [solve_I|done|by apply Z.eqb_eq].
  - apply promote_async_tail_keeps.
    apply stable_append; [solve_I|done|by apply Z.eqb_eq].
  - match goal with
    | |- context [set_rungs
                    (fun l => <[?i := (promotions_async ?a ?b ?c ?d).2]> l)
                    ?s'] =>
        assert (Hnew : I (set_rungs
                  (fun l => <[i := (promotions_async a b c d).2]> l) s'))
          by (refine (stable_promotions a b i d s' _ _ _ _); st_simpl;
              [solve_I|done|done|by apply Z.eqb_neq])
    end.
    match goal with
    | |- context [promotions_async ?a ?b ?c ?d] =>
        destruct (promotions_async a b c d) as [[ids| |] self']
    end; cbn [fst snd] in *; cbn [wp_cont]; try done.
    wp_step. eapply wp_mono.
    + apply promote_loop_keeps; [done|done|]. st_simpl. cbn beta.
      rewrite list_lookup_insert_ne by lia. by eexists.
    + intros [[]| |] ? ?; cbn [wp_cont]; wp_steps; try done.
      by apply promote_async_tail_keeps.
Qed.

Lemma promote_async_fuel_keeps fuel request_id x s :
  I s ->
  wp (promote_async_fuel uuid4 search_space fuel request_id x)
    (fun _ s' => I s') s.
Proof.
  revert request_id x s. induction fuel as [|fuel IH]; intros request_id x s;
    cbn [promote_async_fuel]; apply promote_async_body_keeps; [|done].
  by intros pid y s' Hs'.
Qed.

Lemma initial_operations_loop_keeps k ops s :
  I s ->
  wp (initial_operations_loop uuid4 search_space k ops) (fun _ s' => I s') s.
Proof.
  revert ops s. induction k as [|k IH]; intros ops s Hs;
    cbn [initial_operations_loop]; wp_steps; try solve_I.
  apply IH. solve_I.
Qed.

Lemma purge_loop_keeps request_id range s :
  I s ->
  (exists s1, I s1 /\ invalid_trials s = (invalid_trials s1 + 1)%Z) ->
  wp (purge_loop request_id range) (fun _ s' => I s') s.
Proof.
  revert s. induction range as [|i range IH]; intros s Hs Hraised;
    cbn [purge_loop]; wp_steps; try solve_I.
  apply IH; [by apply stable_purge|]. by st_simpl.
Qed.

Lemma handle_keeps ev s :
  I s -> wp (handle uuid4 search_space ev) (fun _ s' => I s') s.
Proof.
  intros Hs. destruct ev as [|id|id v len|id|id v]; cbn [handle].
  - unfold initial_operations, _get_max_concurrent_trials.
    wp_steps; try solve_I.
    all: try (by apply initial_operations_loop_keeps).
    destruct (int_pow_to_int _ _); cbn [wp_cont]; wp_steps; try done.
    by apply initial_operations_loop_keeps.
  - unfold on_trial_created. wp_steps; solve_I.
  - unfold on_validation_completed, _promote_async.
    destruct v; wp_steps; try done.
    all: apply promote_async_fuel_keeps; solve_I.
  - unfold on_trial_closed. wp_steps; solve_I.
  - unfold on_trial_exited_early, _promote_async.
    wp_steps; try solve_I.
    + eapply wp_mono.
      * apply purge_loop_keeps; [solve_I|].
        eexists. split; [|st_simpl; reflexivity]. solve_I.
      * intros [[]| |] ? ?; cbn [wp_cont]; wp_steps; try solve_I.
    + apply promote_async_fuel_keeps; solve_I.
Qed.

Lemma run_keeps evs s :
  I s -> I (run uuid4 search_space evs s).2.
Proof.
  revert s. induction evs as [|ev evs IH]; intros s Hs; [done|].
  cbn [run].
  pose proof (handle_keeps ev s Hs) as Hstep. unfold wp in Hstep.
  destruct (handle uuid4 search_space ev s) as [o s1].
  specialize (IH s1 Hstep).
  by destruct (run uuid4 search_space evs s1).
Qed.

End Invariant.

(** ** What the handlers keep and what only grows *)

Lemma map_alter_same {A B} (g : A -> B) (f : A -> A) i l :
  (forall a, g (f a) = g a) -> map g (alter f i l) = map g l.
Proof.
  intros Hf. revert i. induction l as [|a l IH]; intros [|i]; cbn; try done.
  - by rewrite Hf.
  - f_equal. apply IH.
Qed.

Lemma map_insert_same {A B} (g : A -> B) i a a' l :
  l !! i = Some a -> g a' = g a -> map g (<[i := a']> l) = map g l.
Proof.
  intros Hi Ha. revert i Hi. induction l as [|b l IH]; intros [|i] Hi;
    cbn in *; try done.
  - injection Hi as ->. by rewrite Ha.
  - f_equal. by apply IH.
Qed.

Section Evolution.

Context (uuid4 : nat -> UUID) (search_space : nat -> HParams).

Lemma stable_same_setup s : stable_invariant (same_setup s).
Proof.
  unfold stable_invariant. split_and!.
  all: try (intros; unfold same_setup in *; st_simpl;
            first [done | by rewrite !map_alter_same by done]).
  - intros id x i self s' Hs' _ Hself _. unfold same_setup in *. st_simpl.
    destruct (promotions_async_frame id x (divisor s') self)
      as (_ & Hu & Hi & _).
    rewrite (map_insert_same units_needed _ self) by done.
    rewrite (map_insert_same idx _ self) by done. done.
Qed.

Lemma run_same_setup evs s :
  same_setup s (run uuid4 search_space evs s).2.
Proof.
  apply (run_keeps uuid4 search_space _ (stable_same_setup s)).
  by repeat split.
Qed.

Lemma stable_grown s : stable_invariant (grown s).
Proof.
  unfold stable_invariant. split_and!.
  all: try (intros; unfold grown in *; st_simpl; done).
  - intros s' (?&?&?&?&?). unfold grown. st_simpl. repeat split; auto. lia.
  - intros s' (?&?&?&?&?). unfold grown. st_simpl. repeat split; auto. lia.
  - intros id s' (?&?&?&?&?). unfold grown, add_to_set. st_simpl.
    repeat split; auto. by apply union_subseteq_r'.
  - intros id s' (?&?&?&?&?). unfold grown, add_to_set. st_simpl.
    repeat split; auto. by apply union_subseteq_r'.
  - intros id k s' (?&?&?&?&?) _. unfold grown. st_simpl.
    repeat split; auto. rewrite dom_insert_L. by apply union_subseteq_r'.
Qed.

Lemma run_grown evs s :
  grown s (run uuid4 search_space evs s).2.
Proof.
  apply (run_keeps uuid4 search_space _ (stable_grown s)).
  by repeat split.
Qed.

Lemma stable_registered_valid : stable_invariant registered_valid.
Proof.
  unfold stable_invariant. split_and!.
  all: try (intros; unfold registered_valid in *; st_simpl;
            rewrite ?length_alter, ?length_insert; done).
  intros id k s' Hs' Hk id' k'. st_simpl.
  intros [[-> <-]|[_ Hid']]%lookup_insert_Some; [|by eauto].
  by apply lookup_lt_is_Some.
Qed.

Lemma run_registered_valid evs s :
  registered_valid s -> registered_valid (run uuid4 search_space evs s).2.
Proof. apply (run_keeps uuid4 search_space _ stable_registered_valid). Qed.

(** X13.  No handler ever changes the parameters of the search
    ([max_length], [max_trials], [num_rungs], [divisor],
    [max_concurrent_trials], [is_smaller_better]) or the threshold or the
    number of a rung: after any run, failed handlers included, they are
    what they were. *)
Theorem run_keeps_setup (evs : list SearcherEvent) (s : St) :
  same_setup s (run uuid4 search_space evs s).2.
Proof. apply run_same_setup. Qed.

(** X14.  Along any run, failed handlers included, [closed_trials],
    [early_exit_trials] and the set of registered trials only grow, and
    [completed_trials] and [invalid_trials] never decrease: a trial is
    never reopened or forgotten. *)
Theorem run_only_grows (evs : list SearcherEvent) (s : St) :
  grown s (run uuid4 search_space evs s).2.
Proof. apply run_grown. Qed.

(** X15.  In every state a run reaches from a freshly constructed state,
    every registered trial is registered at a rung of the ladder: its rung
    index is below [num_rungs]. *)
Theorem registered_rung_exists
    (max_length max_trials num_rungs0 divisor max_concurrent_trials : Z)
    (s0 : St) (evs : list SearcherEvent) :
  new_ASHASearchMethodState max_length max_trials num_rungs0 divisor
    max_concurrent_trials = Ok s0 ->
  forall id k,
    trial_rungs (run uuid4 search_space evs s0).2 !! id = Some k ->
    (Z.of_nat k < num_rungs (run uuid4 search_space evs s0).2)%Z.
Proof.
  intros Hnew id k Hk.
  pose proof (run_ladder_height uuid4 search_space _ _ _ _ _ _ evs Hnew)
    as Hheight.
  destruct (new_state_fresh _ _ _ _ _ _ Hnew) as (_ & _ & _ & Hempty & _).
  assert (Hvalid : registered_valid s0).
  { intros id' k'. by rewrite Hempty, lookup_empty. }
  apply (run_registered_valid evs) in Hvalid.
  specialize (Hvalid id k Hk). lia.
Qed.

End Evolution.

Lemma registered_rung_exists_witness :
  trial_rungs
    (run example_uuid4 example_search_space
       [InitialOperations] example_state).2 !! 100%N = Some 0 /\
  (Z.of_nat 0
   < num_rungs (run example_uuid4 example_search_space
                  [InitialOperations] example_state).2)%Z.
Proof.
  split; [vm_compute; reflexivity|].
  apply (registered_rung_exists example_uuid4 example_search_space
           8 3 2 2 0 example_state [InitialOperations] ltac:(reflexivity)
           100%N 0).
  vm_compute. reflexivity.
Defined.

(** ** Handlers that do not fail *)

Lemma promotions_async_returns request_id x d self :
  d <> 0%Z -> returned (promotions_async request_id x d self).1.
Proof.
  intros Hd.
  destruct (promotions_async_unfold request_id x d self Hd)
    as (index & Hle & _ & ->).
  unfold promotions_async_at.
  destruct (Z.of_nat index <? _)%Z; [by eexists|].
  destruct (negb _); [|by eexists].
  destruct (py_index_quota (length (metrics self)) d Hd) as (k & -> & Hk).
  cbn [set_metrics metrics].
  destruct (list_insert_at _ _ _ !! k) as [old|] eqn:Hold.
  2: { apply lookup_ge_None in Hold.
       rewrite length_list_insert_at in Hold. lia. }
  destruct (negb _); by eexists.
Qed.

Section Safety.

Context (uuid4 : nat -> UUID) (search_space : nat -> HParams).

Lemma close_rungs_loop_returns ladder ops s :
  wp (close_rungs_loop ladder ops) (fun o _ => returned o) s.
Proof.
  unfold wp.
  destruct (close_rungs_loop_spec ladder ops s) as (new & -> & _).
  by eexists.
Qed.

Lemma promote_async_tail_returns ops added s :
  is_Some (rungs s !! 0) ->
  wp (promote_async_tail uuid4 search_space ops added)
    (fun o _ => returned o) s.
Proof.
  intros [rung0 Hrung0].
  unfold promote_async_tail, _get_close_rungs_ops. wp_steps;
    try (by eexists).
  all: eapply wp_mono; [apply close_rungs_loop_returns|];
    intros [?| |] ? [? [=]]; cbn [wp_cont]; wp_steps; by eexists.
Qed.

Lemma promote_loop_returns rec rung_idx promotions ops added s :
  (forall pid s',
     trial_rungs s' !! pid = Some (rung_idx + 1) ->
     length (rungs s') = length (rungs s) ->
     num_rungs s' = num_rungs s -> divisor s' = divisor s ->
     wp (rec pid float_max) (fun o _ => returned o) s') ->
  rung_idx + 1 < length (rungs s) ->
  wp (promote_loop rec rung_idx promotions ops added)
    (fun o s' =>
       match o with
       | Ok (Completed _ _) => length (rungs s') = length (rungs s)
       | Ok (Returned _) => True
       | _ => False
       end) s.
Proof.
  revert ops added s.
  induction promotions as [|pid promotions IH]; intros ops added s Hrec Hlen;
    cbn [promote_loop]; wp_steps; try done.
  - eapply wp_mono.
    + apply IH; st_simpl; rewrite ?length_alter; [|done].
      intros pid' s' ? ? ? ?.
      apply Hrec; st_simpl; by rewrite ?length_alter in *.
    + intros [[]| |] s'; try done.
      st_simpl. by rewrite length_alter.
  - exfalso.
    match goal with H : _ !! rung_idx = None |- _ =>
      apply lookup_ge_None in H; rewrite length_alter in H end. lia.
  - exfalso.
    match goal with H : _ !! (rung_idx + 1) = None |- _ =>
      apply lookup_ge_None in H; rewrite length_alter in H end. lia.
  - eapply wp_mono.
    + apply Hrec; st_simpl; rewrite ?length_alter; try done.
      by rewrite lookup_insert_eq.
    + intros [?| |] s' [? [=]]. cbn [wp_cont]. by wp_steps.
Qed.

Lemma promote_async_fuel_returns fuel request_id x s k :
  trial_rungs s !! request_id = Some k ->
  k < length (rungs s) ->
  length (rungs s) = Z.to_nat (num_rungs s) ->
  (divisor s <> 0%Z \/ num_rungs s = 1%Z) ->
  length (rungs s) <= fuel + k + 1 ->
  wp (promote_async_fuel uuid4 search_space fuel request_id x)
    (fun o _ => returned o) s.
Proof.
  revert request_id x s k.
  induction fuel as [|fuel IH]; intros request_id x s k Hk Hlt Hheight Hd Hfuel;
    cbn [promote_async_fuel]; unfold promote_async_body; wp_steps.
  all: try (apply promote_async_tail_returns; st_simpl;
            apply lookup_lt_is_Some; rewrite ?length_alter; lia).
  all: try (exfalso;
            match goal with H : _ !! _ = None |- _ =>
              apply lookup_ge_None in H; rewrite ?length_alter in H
            end;
            try match goal with H : (_ =? _)%Z = false |- _ =>
                  apply Z.eqb_neq in H
                end; lia).
  all: match goal with
       | |- context [promotions_async ?a ?b ?c ?d] =>
           destruct (promotions_async_returns a b c d) as [ids Hids];
           [destruct Hd as [Hd|Hd]; [done|];
            match goal with H : (_ =? _)%Z = false |- _ =>
              apply Z.eqb_neq in H
            end; lia|];
           destruct (promotions_async a b c d) as [o self'];
           cbn [fst snd] in *; subst o
       end; cbn [wp_cont]; wp_step.
  all: match goal with H : _ !! (_ + 1) = Some _ |- _ =>
         pose proof (lookup_lt_Some _ _ _ H) as Hnext;
         rewrite length_alter in Hnext
       end.
  all: eapply wp_mono;
    [apply promote_loop_returns; st_simpl; cbn beta;
     rewrite ?length_insert, ?length_alter; [|done]|].
  - intros pid s' Hpid Hlen' Hn' Hd'. exfalso. lia.
  - intros [[]| |] s'; try done; cbn [wp_cont]; wp_steps; [|by eexists].
    intros Hlen'. apply promote_async_tail_returns.
    apply lookup_lt_is_Some. rewrite Hlen'. st_simpl. cbn beta.
    rewrite length_insert, length_alter. lia.
  - intros pid s' Hpid Hlen' Hn' Hd'.
    apply (IH _ _ _ (k + 1)); rewrite ?Hlen', ?Hn', ?Hd'; try done; lia.
  - intros [[]| |] s'; try done; cbn [wp_cont]; wp_steps; [|by eexists].
    intros Hlen'. apply promote_async_tail_returns.
    apply lookup_lt_is_Some. rewrite Hlen'. st_simpl. cbn beta.
    rewrite length_insert, length_alter. lia.
Qed.

Lemma handle_returns ev s :
  safe_state s -> event_known ev s = true ->
  returned (handle uuid4 search_space ev s).1.
Proof.
  intros (Hn & Hheight & Hvalid & Hd) Hknown.
  assert (Hrung0 : is_Some (rungs s !! 0)).
  { apply lookup_lt_is_Some. lia. }
  assert (Hpromote : forall request_id x s',
    request_id ∈ dom (trial_rungs s) ->
    trial_rungs s' = trial_rungs s -> rungs s' = rungs s ->
    num_rungs s' = num_rungs s -> divisor s' = divisor s ->
    returned (_promote_async uuid4 search_space request_id x s').1).
  { intros request_id x s' [k Hk]%elem_of_dom Ht Hr Hn' Hd'.
    unfold _promote_async. cbn [bind get].
    apply (promote_async_fuel_returns _ _ _ _ k);
      rewrite ?Ht, ?Hr, ?Hn', ?Hd'; auto; [by eapply Hvalid|lia]. }
  destruct ev as [|id|id v len|id|id v]; cbn [handle event_known] in *.
  - destruct (get_max_concurrent_trials_ok s Hn) as (N & HN & _).
    destruct Hrung0 as [rung0 Hrung0].
    unfold initial_operations. rewrite (bind_ok _ _ _ _ _ HN).
    rewrite (initial_operations_loop_spec _ _ _ _ _ rung0) by done.
    by eexists.
  - destruct Hrung0 as [rung0 Hrung0].
    unfold on_trial_created, rung_at, update_rung, bind, get, modify.
    rewrite Hrung0. by eexists.
  - apply andb_prop in Hknown as [Hfloat Hid]. apply bool_decide_eq_true in Hid.
    destruct v; try discriminate.
    unfold on_validation_completed. cbn [bind get modify].
    destruct (is_smaller_better _); by apply Hpromote.
  - unfold on_trial_closed, bind, get, modify. cbn [fst snd].
    destruct (_ && _); by eexists.
  - apply bool_decide_eq_true in Hknown.
    unfold on_trial_exited_early. cbn [bind get modify].
    destruct (is_INVALID_HP v); [|by apply Hpromote].
    apply elem_of_dom in Hknown as [k Hk].
    pose proof (Hvalid _ _ Hk) as Hlt.
    destruct (lookup_lt_is_Some_2 (rungs s) k Hlt) as [rung Hrung].
    destruct Hrung0 as [rung0 Hrung0].
    apply (wp_mono _ (fun o _ => returned o) (fun o _ => returned o));
      [|done].
    wp_steps; try (by eexists).
    + eapply wp_of_run.
      * apply purge_loop_ok. intros i Hi. st_simpl. rewrite length_alter.
        apply elem_of_seq in Hi. lia.
      * cbn [wp_cont]. wp_steps; try (by eexists).
        exfalso.
        match goal with H : _ !! 0 = None |- _ =>
          apply lookup_ge_None in H; revert H end.
        generalize (seq 0 (k + 1)). intros range.
        assert (Hlen : forall (l : list Rung),
          length (foldl (fun l i => alter (purge_metrics id) i l) l range)
          = length l).
        { induction range as [|i range IH]; intros l; cbn [foldl]; [done|].
          by rewrite IH, length_alter. }
        rewrite Hlen, length_alter. lia.
Qed.

Lemma run_safe_state evs s :
  safe_state s -> safe_state (run uuid4 search_space evs s).2.
Proof.
  intros (Hn & Hheight & Hvalid & Hd).
  destruct (run_same_setup uuid4 search_space evs s)
    as (_ & _ & Hn' & Hd' & _).
  destruct (run_height uuid4 search_space (length (rungs s)) (num_rungs s)
              evs s (conj eq_refl eq_refl)) as [_ Hlen'].
  unfold safe_state. rewrite Hn', Hd', Hlen'.
  split; [done|]. split; [done|]. split; [|done].
  by apply run_registered_valid.
Qed.

Lemma run_returns evs s :
  safe_state s ->
  events_allowed event_known uuid4 search_space evs s = true ->
  Forall returned (run uuid4 search_space evs s).1.
Proof.
  revert s. induction evs as [|ev evs IH]; intros s Hs Hall;
    cbn [run events_allowed] in *; [by constructor|].
  apply andb_prop in Hall as [Hknown Hall].
  pose proof (handle_returns ev s Hs Hknown) as Hret.
  pose proof (run_safe_state [ev] s Hs) as Hs1. cbn [run] in Hs1.
  destruct (handle uuid4 search_space ev s) as [o s1]. cbn [fst snd] in *.
  specialize (IH s1 Hs1 Hall).
  destruct (run uuid4 search_space evs s1) as [os s2]. cbn [fst snd] in *.
  by constructor.
Qed.

Lemma fresh_safe_state
    max_length max_trials num_rungs0 divisor0 max_concurrent_trials s0 :
  new_ASHASearchMethodState max_length max_trials num_rungs0 divisor0
    max_concurrent_trials = Ok s0 ->
  (1 <= num_rungs0)%Z -> safe_state s0.
Proof.
  intros Hnew Hn.
  destruct (new_state_fresh _ _ _ _ _ _ Hnew)
    as (Hn0 & Hlen & _ & Hempty & _).
  assert (Hd0 : divisor s0 = divisor0).
  { revert Hnew. unfold new_ASHASearchMethodState.
    destruct (_init_rungs _ _ _ _) as [[[]| |] ?]; intros [=].
    match goal with H : _ = s0 |- _ => rewrite <- H end. reflexivity. }
  unfold safe_state. rewrite Hn0, Hd0, Hlen.
  split; [done|]. split; [done|]. split.
  - intros id k. by rewrite Hempty, lookup_empty.
  - destruct (decide (divisor0 = 0%Z)) as [->|]; [|by left]. right.
    destruct (decide (num_rungs0 = 1%Z)) as [|Hne]; [done|].
    rewrite zero_divisor_raises in Hnew by lia. done.
Qed.

(** X16.  On a ladder of at least one rung no handler fails as long as the
    events are about registered trials and report floats: in a run from a
    freshly constructed state in which every [ValidationCompleted] and
    every [TrialExitedEarly] is for a trial that is in [trial_rungs] when
    the event is delivered, and every reported metric is a float, every
    handler returns its list of operations. *)
Theorem known_trials_never_raise
    (max_length max_trials num_rungs0 divisor max_concurrent_trials : Z)
    (s0 : St) (evs : list SearcherEvent) :
  new_ASHASearchMethodState max_length max_trials num_rungs0 divisor
    max_concurrent_trials = Ok s0 ->
  (1 <= num_rungs0)%Z ->
  events_allowed event_known uuid4 search_space evs s0 = true ->
  Forall returned (run uuid4 search_space evs s0).1.
Proof.
  intros Hnew Hn Hall. apply run_returns; [|done].
  by eapply fresh_safe_state.
Qed.

End Safety.

Lemma known_trials_never_raise_witness :
  Forall returned
    (run example_uuid4 example_search_space
       [InitialOperations; TrialCreated 100; TrialCreated 101;
        ValidationCompleted 100 (VFloat 5) 4;
        ValidationCompleted 101 (VFloat 3) 4;
        TrialExitedEarly 101 (VExitedReason ERRORED);
        TrialClosed 100]
       example_state).1.
Proof.
  apply (known_trials_never_raise example_uuid4 example_search_space
           8 3 2 2 0 example_state); [vm_compute; reflexivity|lia|].
  vm_compute. reflexivity.
Defined.

(** ** The operations the handlers return *)

Lemma wp_conj {S A} (m : M S A) (P Q : Outcome A -> S -> Prop) s :
  wp m P s -> wp m Q s -> wp m (fun o s' => P o s' /\ Q o s') s.
Proof. unfold wp. auto. Qed.

Lemma rung0_above_alter lo (f : Rung -> Rung) i s :
  (forall rung, units_needed (f rung) = units_needed rung) ->
  rung0_above lo s -> rung0_above lo (set_rungs (alter f i) s).
Proof.
  intros Hf Hs rung0. st_simpl. rewrite list_lookup_alter.
  destruct (decide (i = 0)) as [->|]; [|by apply Hs].
  intros (rung & Hrung & ->)%fmap_Some. rewrite Hf. by apply Hs.
Qed.

Lemma stable_rung0_above lo : stable_invariant (rung0_above lo).
Proof.
  unfold stable_invariant. split_and!; try done.
  - intros i f s' Hs'. by apply rung0_above_alter.
  - intros id x i self s' Hs' _ Hself _ rung0. st_simpl.
    destruct (decide (i = 0)) as [->|].
    + rewrite list_lookup_insert_eq by (by eapply lookup_lt_Some).
      intros [= <-].
      destruct (promotions_async_frame id x (divisor s') self)
        as (_ & -> & _). by apply Hs'.
    + rewrite list_lookup_insert_ne by done. apply Hs'.
  - intros id x i s' Hs' _ _. by apply rung0_above_alter.
  - intros id i s' Hs' _. by apply rung0_above_alter.
Qed.

Lemma rung0_above_same_units lo s s' :
  map units_needed (rungs s') = map units_needed (rungs s) ->
  rung0_above lo s -> rung0_above lo s'.
Proof.
  intros Hmap Hs rung0 Hrung0.
  destruct (rungs s) as [|rung ladder] eqn:Hladder;
    destruct (rungs s') as [|rung' ladder'] eqn:Hladder'; try done.
  cbn in Hmap, Hrung0. injection Hmap as Hunits _. injection Hrung0 as <-.
  rewrite Hunits. apply Hs. by rewrite Hladder.
Qed.

(** Closes a goal [rung0_above lo s'] for a state [s'] that a state with
    the property was updated to. *)
Ltac solve_rung0 :=
  lazymatch goal with
  | H : rung0_above ?lo ?s |- rung0_above ?lo _ =>
      apply (rung0_above_same_units lo s); [|exact H];
      st_simpl; by rewrite ?map_alter_same by done
  end.

Lemma Forall_snoc {A} (P : A -> Prop) l x :
  Forall P l -> P x -> Forall P (l ++ [x]).
Proof. intros Hl Hx. apply Forall_app. split; [done|]. by constructor. Qed.

Section Operations.

Context (uuid4 : nat -> UUID) (search_space : nat -> HParams).
Context (lo : Z) (Hlo : (lo <= 1)%Z).

Lemma close_rungs_loop_bounded ladder ops s :
  Forall (op_bounded lo) ops ->
  wp (close_rungs_loop ladder ops) (ops_bounded lo) s.
Proof.
  intros Hops. unfold wp.
  destruct (close_rungs_loop_spec ladder ops s) as (new & -> & _).
  intros ops' [= <-]. apply Forall_app. split; [done|].
  clear. induction new as [|id new IH]; by constructor.
Qed.

Lemma promote_async_tail_bounded ops added s :
  Forall (op_bounded lo) ops -> rung0_above lo s ->
  wp (promote_async_tail uuid4 search_space ops added) (ops_bounded lo) s.
Proof.
  intros Hops Hs.
  unfold promote_async_tail, _get_close_rungs_ops. wp_steps;
    try (by intros ? [=]).
  all: try (intros ? [= <-]; repeat apply Forall_snoc; try done;
            by apply Hs).
  all: eapply wp_mono;
    [apply close_rungs_loop_bounded; constructor|].
  all: intros [close_ops| |] ? Hclose; cbn [wp_cont]; wp_steps;
    try (by intros ? [=]).
  all: intros ? [= <-]; apply Forall_app; split; [|by apply Hclose].
  all: repeat apply Forall_snoc; try done; by apply Hs.
Qed.


Lemma promote_loop_bounded rec rung_idx promotions ops added s :
  (forall pid x s', rung0_above lo s' -> wp (rec pid x) (ops_bounded lo) s') ->
  Forall (op_bounded lo) ops -> rung0_above lo s ->
  wp (promote_loop rec rung_idx promotions ops added)
    (fun o _ =>
       match o with
       | Ok (Completed ops' _) | Ok (Returned ops') =>
           Forall (op_bounded lo) ops'
       | _ => True
       end) s.
Proof.
  intros Hrec. revert ops added s.
  induction promotions as [|pid promotions IH]; intros ops added s Hops Hs;
    cbn [promote_loop]; wp_steps; try done.
  - apply IH.
    + apply Forall_snoc; [done|]. cbn [op_bounded]. lia.
    + solve_rung0.
  - eapply wp_mono.
    + apply Hrec. solve_rung0.
    + intros [?| |] ? Hres; cbn [wp_cont]; wp_steps; try done.
      by apply Hres.
Qed.


Lemma promote_async_body_bounded rec request_id x s :
  (forall pid y s', rung0_above lo s' ->
     wp (rec pid y) (ops_bounded lo) s') ->
  (forall pid y s', rung0_above lo s' ->
     wp (rec pid y) (fun _ s'' => rung0_above lo s'') s') ->
  rung0_above lo s ->
  wp (promote_async_body uuid4 search_space rec request_id x)
    (ops_bounded lo) s.
Proof.
  intros Hrec Hkeeps Hs. unfold promote_async_body. wp_steps;
    try (by intros ? [=]).
  - apply promote_async_tail_bounded; [by repeat constructor|solve_rung0].
  - apply promote_async_tail_bounded; [constructor|solve_rung0].
  - match goal with
    | |- context [set_rungs
                    (fun l => <[?i := (promotions_async ?a ?b ?c ?d).2]> l)
                    ?s'] =>
        assert (Hnew : rung0_above lo (set_rungs
                  (fun l => <[i := (promotions_async a b c d).2]> l) s'));
        [destruct (promotions_async_frame a b c d) as (_ & Hunits & _);
         apply (rung0_above_same_units lo s); [|exact Hs]; st_simpl;
         rewrite (map_insert_same units_needed _ d) by done;
         by rewrite map_alter_same by done|]
    end.
    match goal with
    | |- context [promotions_async ?a ?b ?c ?d] =>
        destruct (promotions_async a b c d) as [[ids| |] self']
    end; cbn [fst snd] in *; cbn [wp_cont]; try (by intros ? [=]).
    wp_step. eapply wp_mono.
    + apply wp_conj.
      * apply (promote_loop_bounded rec); [done|constructor|exact Hnew].
      * apply (promote_loop_keeps _ (stable_rung0_above lo) rec);
          [done|exact Hnew|].
        st_simpl. cbn beta. rewrite list_lookup_insert_ne by lia.
        by eexists.
    + intros [[]| |] s' [Hops Hs']; cbn [wp_cont]; wp_steps;
        try (by intros ? [=]).
      * by apply promote_async_tail_bounded.
      * by intros ? [= <-].
Qed.

Lemma promote_async_fuel_bounded fuel request_id x s :
  rung0_above lo s ->
  wp (promote_async_fuel uuid4 search_space fuel request_id x)
    (ops_bounded lo) s.
Proof.
  revert request_id x s. induction fuel as [|fuel IH]; intros request_id x s;
    cbn [promote_async_fuel]; apply promote_async_body_bounded.
  - by intros pid y s' _ ? [=].
  - by intros pid y s' Hs'.
  - done.
  - intros pid y s' Hs'.
    by apply (promote_async_fuel_keeps uuid4 search_space _
                (stable_rung0_above lo)).
Qed.

Lemma initial_operations_loop_bounded k ops s :
  Forall (op_bounded lo) ops -> rung0_above lo s ->
  wp (initial_operations_loop uuid4 search_space k ops) (ops_bounded lo) s.
Proof.
  revert ops s. induction k as [|k IH]; intros ops s Hops Hs;
    cbn [initial_operations_loop]; wp_steps; try (by intros ? [=]).
  - by intros ? [= <-].
  - apply IH; [|solve_rung0].
    repeat apply Forall_snoc; try done. by apply Hs.
Qed.

(** Every handler but [on_trial_closed] returns bounded operations. *)
Lemma handle_bounded ev s :
  rung0_above lo s ->
  (forall request_id, ev <> TrialClosed request_id) ->
  wp (handle uuid4 search_space ev) (ops_bounded lo) s.
Proof.
  intros Hs Hev. destruct ev as [|id|id v len|id|id v]; cbn [handle].
  - unfold initial_operations, _get_max_concurrent_trials.
    wp_steps; try (by intros ? [=]).
    all: try (apply initial_operations_loop_bounded; [constructor|done]).
    destruct (int_pow_to_int _ _); cbn [wp_cont]; wp_steps;
      try (by intros ? [=]).
    by apply initial_operations_loop_bounded; [constructor|].
  - unfold on_trial_created. wp_steps; try (by intros ? [=]).
    intros ? [= <-]. constructor.
  - unfold on_validation_completed, _promote_async.
    destruct v; wp_steps; try (by intros ? [=]).
    all: apply promote_async_fuel_bounded; solve_rung0.
  - by destruct (Hev id).
  - unfold on_trial_exited_early, _promote_async.
    wp_steps; try (by intros ? [=]).
    + eapply wp_mono.
      * apply (purge_loop_keeps _ (stable_rung0_above lo)).
        -- solve_rung0.
        -- exists s. split; [done|]. by st_simpl.
      * intros [[]| |] s' Hs'; cbn [wp_cont]; wp_steps;
          try (by intros ? [=]).
        intros ? [= <-].
        repeat constructor. by apply Hs'.
    + apply promote_async_fuel_bounded. solve_rung0.
Qed.


Lemma closed_or_not (ev : SearcherEvent) :
  (exists request_id, ev = TrialClosed request_id) \/
  (forall request_id, ev <> TrialClosed request_id).
Proof. destruct ev; try (by right); left; by eexists. Qed.

Lemma on_trial_closed_ops request_id s :
  exists ops,
    (on_trial_closed request_id s).1 = Ok ops /\
    (ops = [] \/
     ops = [Shutdown] /\ pending_trials s = 0%Z /\
     (completed_trials s + 1)%Z = max_trials s).
Proof.
  unfold on_trial_closed, bind, get, modify. cbn [fst snd]. st_simpl.
  destruct (_ && _) eqn:Hdone; eexists; (split; [done|]); [|by left].
  apply andb_prop in Hdone as [?%Z.eqb_eq ?%Z.eqb_eq]. by right.
Qed.

Lemma run_validate_after evs s :
  rung0_above lo s ->
  Forall
    (fun o => forall ops id len,
       o = Ok ops -> ValidateAfter id len ∈ ops -> (lo <= len)%Z)
    (run uuid4 search_space evs s).1.
Proof.
  revert s. induction evs as [|ev evs IH]; intros s Hs; cbn [run];
    [by constructor|].
  pose proof (handle_keeps uuid4 search_space _ (stable_rung0_above lo)
                ev s Hs) as Hs1.
  assert (Hev : forall ops id len,
    (handle uuid4 search_space ev s).1 = Ok ops ->
    ValidateAfter id len ∈ ops -> (lo <= len)%Z).
  { intros ops id len Hops Hin.
    destruct (closed_or_not ev) as [[request_id ->]|Hne].
    - cbn [handle] in Hops.
      destruct (on_trial_closed_ops request_id s)
        as (ops' & Hops' & [->|[-> _]]);
        rewrite Hops' in Hops; injection Hops as <-.
      + by apply elem_of_nil in Hin.
      + by apply list_elem_of_singleton in Hin.
    - assert (Hb := handle_bounded ev s Hs Hne).
      unfold wp, ops_bounded in Hb. specialize (Hb ops Hops).
      rewrite Forall_forall in Hb. by apply (Hb _ Hin). }
  unfold wp in Hs1.
  destruct (handle uuid4 search_space ev s) as [o s1]. cbn [fst snd] in *.
  specialize (IH s1 Hs1).
  destruct (run uuid4 search_space evs s1) as [os s2]. cbn [fst snd] in *.
  constructor; [|done]. intros ops id len ->. by apply Hev.
Qed.

End Operations.

Section OperationsFacts.

Context (uuid4 : nat -> UUID) (search_space : nat -> HParams).

(** X17.  In a run from a freshly constructed state every [ValidateAfter]
    operation that a handler returns asks for at least one unit of
    training, whatever the parameters of the search and whatever the
    events. *)
Theorem validate_after_at_least_one
    (max_length max_trials num_rungs0 divisor max_concurrent_trials : Z)
    (s0 : St) (evs : list SearcherEvent) :
  new_ASHASearchMethodState max_length max_trials num_rungs0 divisor
    max_concurrent_trials = Ok s0 ->
  Forall
    (fun o => forall ops id len,
       o = Ok ops -> ValidateAfter id len ∈ ops -> (1 <= len)%Z)
    (run uuid4 search_space evs s0).1.
Proof.
  intros Hnew. apply run_validate_after; [done|].
  destruct (fresh_ladder_increasing _ _ _ _ _ _ Hnew) as (_ & _ & _ & Hinc).
  intros rung0 Hrung0.
  destruct (rungs s0) as [|rung ladder]; [done|].
  injection Hrung0 as ->. cbn in Hinc. lia.
Qed.

(** X18.  Only [on_trial_closed] returns [Shutdown], and only as its sole
    operation when no trial is pending and the closed trial completes
    [max_trials]: no other handler ever shuts the experiment down. *)
Theorem shutdown_only_when_closed (ev : SearcherEvent) (s s' : St)
    (ops : list Operation) :
  handle uuid4 search_space ev s = (Ok ops, s') ->
  Shutdown ∈ ops ->
  exists request_id,
    ev = TrialClosed request_id /\ ops = [Shutdown] /\
    pending_trials s = 0%Z /\
    (completed_trials s + 1)%Z = max_trials s.
Proof.
  intros Hrun Hin.
  destruct (closed_or_not ev) as [[request_id ->]|Hne].
  - exists request_id. cbn [handle] in Hrun.
    destruct (on_trial_closed_ops request_id s)
      as (ops' & Hops' & [->|(-> & Hp & Hc)]);
      rewrite Hrun in Hops'; injection Hops' as ->.
    + by apply elem_of_nil in Hin.
    + done.
  - exfalso.
    set (lo := match rungs s !! 0 with
               | Some rung0 => Z.min 1 (units_needed rung0)
               | None => 1%Z
               end).
    assert (Hlo : (lo <= 1)%Z) by (subst lo; destruct (rungs s !! 0); lia).
    assert (Hs : rung0_above lo s).
    { intros rung0 Hrung0. subst lo. rewrite Hrung0. lia. }
    assert (Hb := handle_bounded uuid4 search_space lo Hlo ev s Hs Hne).
    unfold wp, ops_bounded in Hb. rewrite Hrun in Hb.
    specialize (Hb ops eq_refl). rewrite Forall_forall in Hb.
    by apply (Hb _ Hin).
Qed.

End OperationsFacts.

Lemma validate_after_at_least_one_witness :
  Forall
    (fun o => forall ops id len,
       o = Ok ops -> ValidateAfter id len ∈ ops -> (1 <= len)%Z)
    (run example_uuid4 example_search_space
       [InitialOperations; TrialCreated 100;
        ValidationCompleted 100 (VFloat 5) 4]
       example_state).1.
Proof.
  apply (validate_after_at_least_one example_uuid4 example_search_space
           8 3 2 2 0 example_state).
  vm_compute. reflexivity.
Defined.

Lemma shutdown_only_when_closed_witness :
  exists request_id,
    TrialClosed 100 = TrialClosed request_id /\
    [Shutdown] = [Shutdown] /\
    pending_trials (set_completed_trials (fun _ => 2%Z) example_state) = 0%Z /\
    (completed_trials (set_completed_trials (fun _ => 2%Z) example_state)
     + 1)%Z
    = max_trials (set_completed_trials (fun _ => 2%Z) example_state).
Proof.
  apply (shutdown_only_when_closed example_uuid4 example_search_space
           (TrialClosed 100)
           (set_completed_trials (fun _ => 2%Z) example_state)
           (handle example_uuid4 example_search_space (TrialClosed 100)
              (set_completed_trials (fun _ => 2%Z) example_state)).2
           [Shutdown]).
  - vm_compute. reflexivity.
  - apply list_elem_of_here.
Defined.

(** ** The promotion quota along a run *)

Lemma stable_quota_inv : stable_invariant quota_inv.
Proof.
  unfold stable_invariant. split_and!; try done.
  - (* invalid_trials *)
    intros s (Hd & Hinv & _). unfold quota_inv. st_simpl.
    split; [done|]. split; [lia|]. intros Hzero. exfalso. lia.
  - (* outstanding_trials *)
    intros i f s (Hd & Hinv & Hq). unfold quota_inv. st_simpl.
    split; [done|]. split; [done|]. intros Hzero j rung Hj Hne.
    rewrite list_lookup_alter in Hj.
    destruct (decide (i = j)) as [->|]; [|by eauto].
    apply fmap_Some in Hj as (rung' & Hj & ->).
    exact (Hq Hzero j rung' Hj Hne).
  - (* promotions_async *)
    intros id x i self s (Hd & Hinv & Hq) _ Hself Hi. unfold quota_inv.
    st_simpl. split; [done|]. split; [done|]. intros Hzero j rung Hj Hne.
    destruct (decide (i = j)) as [->|].
    + rewrite list_lookup_insert_eq in Hj by (by eapply lookup_lt_Some).
      injection Hj as <-.
      destruct (Hq Hzero j self Hself Hi) as [Hsorted Hprefix].
      destruct (promotions_async_step id x (divisor s) self Hd Hsorted
                  Hprefix) as (ids & self' & -> & _ & _ & ? & ?).
      by split.
    + rewrite list_lookup_insert_ne in Hj by done. by eauto.
  - (* the final rung *)
    intros id x i s (Hd & Hinv & Hq) _ Hi. unfold quota_inv. st_simpl.
    split; [done|]. split; [done|]. intros Hzero j rung Hj Hne.
    rewrite list_lookup_alter_ne in Hj by (intros ->; lia). by eauto.
  - (* the purge *)
    intros id i s (Hd & Hinv & Hq) (s1 & (_ & Hinv1 & _) & Hraised).
    unfold quota_inv. st_simpl.
    split; [done|]. split; [done|]. intros Hzero. exfalso. lia.
Qed.

(** X19.  In a run from a freshly constructed state with a divisor of at
    least one, and as long as no [INVALID_HP] exit has been counted
    ([invalid_trials] is still zero), every rung below the final rung has
    its results sorted ascending with the best [floor(len / divisor)] of
    them promoted, whatever the events and their order. *)
Theorem run_keeps_quota (uuid4 : nat -> UUID) (search_space : nat -> HParams)
    (max_length max_trials num_rungs0 divisor0 max_concurrent_trials : Z)
    (s0 : St) (evs : list SearcherEvent) :
  new_ASHASearchMethodState max_length max_trials num_rungs0 divisor0
    max_concurrent_trials = Ok s0 ->
  (1 <= divisor0)%Z ->
  invalid_trials (run uuid4 search_space evs s0).2 = 0%Z ->
  forall i rung,
    rungs (run uuid4 search_space evs s0).2 !! i = Some rung ->
    (Z.of_nat i < num_rungs (run uuid4 search_space evs s0).2 - 1)%Z ->
    rung_quota (divisor (run uuid4 search_space evs s0).2) rung.
Proof.
  intros Hnew Hd Hzero i rung Hi Hlt.
  assert (Hfresh : quota_inv s0).
  { destruct (new_state_fresh _ _ _ _ _ _ Hnew) as (_ & _ & Hblank & _).
    revert Hnew Hblank. unfold new_ASHASearchMethodState.
    destruct (_init_rungs _ _ _ _) as [[[]| |] ladder]; intros [= <-] Hblank.
    unfold quota_inv. st_simpl. split; [done|]. split; [done|].
    intros _ j rung' Hj _. rewrite Forall_lookup in Hblank.
    destruct (Hblank j rung' Hj) as [Hempty _]. unfold rung_quota.
    rewrite Hempty. split; [apply sorted_metrics_nil|].
    intros k e Hk. by rewrite lookup_nil in Hk. }
  destruct (run_keeps uuid4 search_space _ stable_quota_inv evs s0 Hfresh)
    as (_ & _ & Hq).
  apply (Hq Hzero i rung Hi). lia.
Qed.

Lemma run_keeps_quota_witness :
  exists rung,
    rungs (run example_uuid4 example_search_space
             [InitialOperations; TrialCreated 100; TrialCreated 101;
              ValidationCompleted 100 (VFloat 5) 4;
              ValidationCompleted 101 (VFloat 3) 4] example_state).2 !! 0
      = Some rung /\
    rung_quota 2 rung.
Proof.
  eexists. split; [vm_compute; reflexivity|].
  apply (run_keeps_quota example_uuid4 example_search_space 8 3 2 2 0
           example_state
           [InitialOperations; TrialCreated 100; TrialCreated 101;
            ValidationCompleted 100 (VFloat 5) 4;
            ValidationCompleted 101 (VFloat 3) 4]
           ltac:(reflexivity) ltac:(lia) ltac:(reflexivity) 0);
    vm_compute; reflexivity.
Defined.

(** ** The budget of trials *)

(** The entries a call leaves in the rung and the trials it returns are
    those of the rung and of the new result, whatever the outcome. *)
Lemma promotions_async_ids request_id x d self :
  (forall e, e ∈ metrics (promotions_async request_id x d self).2 ->
     TrialMetric.request_id e = request_id \/
     exists e0, e0 ∈ metrics self /\
                TrialMetric.request_id e0 = TrialMetric.request_id e) /\
  (forall ids pid,
     (promotions_async request_id x d self).1 = Ok ids -> pid ∈ ids ->
     pid = request_id \/
     exists e0, e0 ∈ metrics self /\ TrialMetric.request_id e0 = pid).
Proof.
  destruct (decide (d = 0%Z)) as [->|Hd].
  { rewrite promotions_async_zero. cbn [fst snd]. split; [by eauto|done]. }
  destruct (promotions_async_unfold request_id x d self Hd)
    as (index & Hle & _ & ->).
  unfold promotions_async_at.
  set (e0 := {| TrialMetric.request_id := request_id;
                TrialMetric.metric := x; TrialMetric.promoted := _ |}).
  assert (Hins : forall e, e ∈ list_insert_at index e0 (metrics self) ->
            TrialMetric.request_id e = request_id \/
            exists e1, e1 ∈ metrics self /\
                       TrialMetric.request_id e1 = TrialMetric.request_id e).
  { intros e [He|[->|He]%elem_of_cons]%elem_of_app; [right|by left|right];
      exists e; (split; [|done]).
    - rewrite <- (take_drop index (metrics self)). apply elem_of_app.
      by left.
    - rewrite <- (take_drop index (metrics self)). apply elem_of_app.
      by right. }
  assert (Halter : forall k e,
            e ∈ alter (set_promoted true) k
                  (list_insert_at index e0 (metrics self)) ->
            TrialMetric.request_id e = request_id \/
            exists e1, e1 ∈ metrics self /\
                       TrialMetric.request_id e1 = TrialMetric.request_id e).
  { intros k e [j Hj]%list_elem_of_lookup. rewrite list_lookup_alter in Hj.
    destruct (decide (k = j)) as [->|];
      [apply fmap_Some in Hj as (e' & Hj & ->)|];
      apply list_elem_of_lookup_2, Hins in Hj; done. }
  repeat case_match; cbn [fst snd set_metrics metrics];
    (split; [first [exact Hins | apply Halter]|]);
    intros ids pid [=]; subst ids; try (by intros ?%elem_of_nil).
  - intros ->%list_elem_of_singleton. by left.
  - intros ->%list_elem_of_singleton.
    match goal with H : _ !! _ = Some ?t |- context [?t] =>
      apply list_elem_of_lookup_2, Hins in H as [?|(e1 & ? & ?)] end;
      [by left|right; by exists e1].
Qed.

Lemma metrics_registered_same s s' :
  map metrics (rungs s') = map metrics (rungs s) ->
  dom (trial_rungs s) ⊆ dom (trial_rungs s') ->
  metrics_registered s -> metrics_registered s'.
Proof.
  intros Hmap Hdom Hs i rung' e Hi He. apply Hdom.
  assert (Hi' : (metrics <$> rungs s') !! i = Some (metrics rung')).
  { by rewrite list_lookup_fmap, Hi. }
  change (metrics <$> rungs s') with (map metrics (rungs s')) in Hi'.
  rewrite Hmap in Hi'.
  change (map metrics (rungs s)) with (metrics <$> rungs s) in Hi'.
  rewrite list_lookup_fmap in Hi'.
  apply fmap_Some in Hi' as (rung & Hrung & Hsame).
  apply (Hs i rung e Hrung). by rewrite <- Hsame.
Qed.

Lemma stable_metrics_registered : stable_invariant metrics_registered.
Proof.
  unfold stable_invariant. split_and!; try done.
  - intros i f s Hs.
    apply (metrics_registered_same s); [|done|done].
    st_simpl. by rewrite map_alter_same.
  - intros id k s Hs _.
    apply (metrics_registered_same s); [done| |done].
    st_simpl. rewrite dom_insert_L. apply union_subseteq_r.
  - intros id x i self s Hs Hid Hself _ j rung e. st_simpl.
    destruct (decide (i = j)) as [->|].
    + rewrite list_lookup_insert_eq by (by eapply lookup_lt_Some).
      intros [= <-] He.
      destruct (promotions_async_ids id x (divisor s) self) as [Hentries _].
      destruct (Hentries e He) as [->|(e0 & He0 & <-)].
      * apply elem_of_dom. by eexists.
      * by apply (Hs j self e0).
    + rewrite list_lookup_insert_ne by done. apply Hs.
  - intros id x i s Hs Hid _ j rung e. st_simpl.
    rewrite list_lookup_alter.
    destruct (decide (i = j)) as [->|]; [|by apply Hs].
    intros (rung' & Hrung' & ->)%fmap_Some. cbn [set_metrics metrics].
    intros [He| ->%list_elem_of_singleton]%elem_of_app.
    + by apply (Hs j rung' e).
    + apply elem_of_dom. by eexists.
  - intros id i s Hs _ j rung e. st_simpl.
    rewrite list_lookup_alter.
    destruct (decide (i = j)) as [->|]; [|by apply Hs].
    intros (rung' & Hrung' & ->)%fmap_Some.
    unfold purge_metrics. cbn [set_metrics metrics].
    intros [_ He]%list_elem_of_filter. by apply (Hs j rung' e).
Qed.

Lemma size_insert_le (m : gmap UUID nat) id k :
  size (<[id := k]> m) <= S (size m).
Proof.
  destruct (m !! id) eqn:Hid.
  - rewrite map_size_insert_Some by done. lia.
  - rewrite map_size_insert_None by done. lia.
Qed.

Lemma size_insert_known (m : gmap UUID nat) id k :
  id ∈ dom m -> size (<[id := k]> m) = size m.
Proof. intros [k' Hk']%elem_of_dom. by apply map_size_insert_Some. Qed.

(** The budget and the registration of the results together. *)
Lemma budget_same s s' :
  trial_rungs s' = trial_rungs s -> invalid_trials s' = invalid_trials s ->
  max_trials s' = max_trials s ->
  map metrics (rungs s') = map metrics (rungs s) ->
  within_budget s /\ metrics_registered s ->
  within_budget s' /\ metrics_registered s'.
Proof.
  intros Ht Hi Hm Hr [Hb Hreg]. split.
  - unfold within_budget. by rewrite Ht, Hi, Hm.
  - apply (metrics_registered_same s); [done|by rewrite Ht|done].
Qed.

Lemma budget_register_known id k s :
  id ∈ dom (trial_rungs s) ->
  within_budget s /\ metrics_registered s ->
  within_budget (set_trial_rungs (<[id := k]>) s) /\
  metrics_registered (set_trial_rungs (<[id := k]>) s).
Proof.
  intros Hid [Hb Hreg]. split.
  - unfold within_budget. st_simpl. by rewrite size_insert_known.
  - apply (metrics_registered_same s); [done| |done].
    st_simpl. rewrite dom_insert_L. apply union_subseteq_r.
Qed.

Lemma budget_register_new id k s :
  (Z.of_nat (size (trial_rungs s)) - invalid_trials s < max_trials s)%Z ->
  metrics_registered s ->
  within_budget (set_trial_rungs (<[id := k]>) s) /\
  metrics_registered (set_trial_rungs (<[id := k]>) s).
Proof.
  intros Hroom Hreg. split.
  - unfold within_budget. st_simpl.
    pose proof (size_insert_le (trial_rungs s) id k). lia.
  - apply (metrics_registered_same s); [done| |done].
    st_simpl. rewrite dom_insert_L. apply union_subseteq_r.
Qed.

(** Closes a goal about a state that differs from a state of the context
    in fields the budget does not look at. *)
Ltac solve_budget :=
  lazymatch goal with
  | H : within_budget ?s /\ metrics_registered ?s
    |- within_budget _ /\ metrics_registered _ =>
      apply (budget_same s); [..|exact H]; st_simpl;
      by rewrite ?map_alter_same by done
  end.

Section Budget.

Context (uuid4 : nat -> UUID) (search_space : nat -> HParams).

Lemma promote_async_tail_budget ops added s :
  within_budget s /\ metrics_registered s ->
  wp (promote_async_tail uuid4 search_space ops added)
    (fun _ s' => within_budget s' /\ metrics_registered s') s.
Proof.
  intros Hs.
  assert (Hclose : forall ops' s1,
    within_budget s1 /\ metrics_registered s1 ->
    wp _get_close_rungs_ops
      (wp_cont (fun close_ops => ret (ops' ++ close_ops))
         (fun _ s' => within_budget s' /\ metrics_registered s')) s1).
  { intros ops' s1 Hs1. unfold wp, _get_close_rungs_ops. cbn [bind get].
    destruct (close_rungs_loop_spec (rungs s1) [] s1) as (new & -> & _).
    cbn [fst snd wp_cont]. wp_steps. solve_budget. }
  unfold promote_async_tail. wp_steps; try solve_budget.
  all: try (by apply Hclose).
  all: match goal with
       | H : (_ <? _)%Z = true |- _ => apply Z.ltb_lt in H
       | _ => idtac
       end.
  all: try (apply Hclose).
  all: try (apply budget_register_new; st_simpl; [lia|];
            apply (metrics_registered_same s); [done|done|apply Hs]).
Qed.


Lemma promote_loop_budget rec rung_idx promotions ops added s :
  (forall pid x s',
     within_budget s' /\ metrics_registered s' ->
     wp (rec pid x)
       (fun _ s'' => within_budget s'' /\ metrics_registered s'') s') ->
  within_budget s /\ metrics_registered s ->
  (forall pid, pid ∈ promotions -> pid ∈ dom (trial_rungs s)) ->
  wp (promote_loop rec rung_idx promotions ops added)
    (fun _ s' => within_budget s' /\ metrics_registered s') s.
Proof.
  intros Hrec. revert ops added s.
  induction promotions as [|pid promotions IH]; intros ops added s Hs Hids;
    cbn [promote_loop]; wp_steps; try done.
  all: assert (Hpid : within_budget
                        (set_trial_rungs (<[pid := rung_idx + 1]>) s) /\
                      metrics_registered
                        (set_trial_rungs (<[pid := rung_idx + 1]>) s))
    by (apply budget_register_known;
        [apply Hids, list_elem_of_here|done]).
  all: try solve_budget.
  - apply IH; [solve_budget|].
    intros pid' Hpid'. st_simpl. rewrite dom_insert_L.
    apply elem_of_union. right. by apply Hids, list_elem_of_further.
  - eapply wp_mono; [apply Hrec; solve_budget|].
    intros [?| |] ? ?; cbn [wp_cont]; wp_steps; done.
Qed.

Lemma promote_async_body_budget rec request_id x s :
  (forall pid y s',
     within_budget s' /\ metrics_registered s' ->
     wp (rec pid y)
       (fun _ s'' => within_budget s'' /\ metrics_registered s'') s') ->
  within_budget s /\ metrics_registered s ->
  wp (promote_async_body uuid4 search_space rec request_id x)
    (fun _ s' => within_budget s' /\ metrics_registered s') s.
Proof.
  intros Hrec Hs. unfold promote_async_body. wp_steps; try solve_budget.
  - apply promote_async_tail_budget. split.
    + unfold within_budget. st_simpl. apply Hs.
    + repeat first
        [ apply (stable_closed _ stable_metrics_registered)
        | apply (stable_append _ stable_metrics_registered);
            [|done|by apply Z.eqb_eq]
        | apply (stable_outstanding _ stable_metrics_registered)
        | apply Hs ].
  - apply promote_async_tail_budget. split.
    + unfold within_budget. st_simpl. apply Hs.
    + repeat first
        [ apply (stable_append _ stable_metrics_registered);
            [|done|by apply Z.eqb_eq]
        | apply (stable_outstanding _ stable_metrics_registered)
        | apply Hs ].
  - match goal with
    | |- context [set_rungs
                    (fun l => <[?i := (promotions_async ?a ?b ?c ?d).2]> l)
                    ?s'] =>
        assert (Hnew :
          within_budget (set_rungs
            (fun l => <[i := (promotions_async a b c d).2]> l) s') /\
          metrics_registered (set_rungs
            (fun l => <[i := (promotions_async a b c d).2]> l) s'));
        [split;
         [unfold within_budget; st_simpl; apply Hs
         |refine (stable_promotions _ stable_metrics_registered
                    a b i d s' _ _ _ _); st_simpl;
          [apply (stable_outstanding _ stable_metrics_registered), Hs
          |done|done|by apply Z.eqb_neq]]|];
        destruct (promotions_async_ids a b c d) as [_ Hids]
    end.
    match goal with
    | |- context [promotions_async ?a ?b ?c ?d] =>
        destruct (promotions_async a b c d) as [[ids| |] self']
    end; cbn [fst snd] in *; cbn [wp_cont]; try done.
    wp_step. eapply wp_mono.
    + apply promote_loop_budget; [done|done|].
      intros pid Hpid. st_simpl.
      destruct (Hids ids pid eq_refl Hpid) as [->|(e0 & He0 & <-)].
      * apply elem_of_dom. by eexists.
      * destruct Hs as [_ Hreg].
        match goal with
        | H : alter _ ?i (rungs s) !! ?i = Some ?r, He : _ ∈ metrics ?r
          |- _ =>
            rewrite list_lookup_alter_eq in H;
            apply fmap_Some in H as (r' & Hr' & ->);
            by apply (Hreg i r' e0)
        end.
    + intros [[]| |] ? ?; cbn [wp_cont]; wp_steps; try done.
      by apply promote_async_tail_budget.
Qed.

Lemma promote_async_fuel_budget fuel request_id x s :
  within_budget s /\ metrics_registered s ->
  wp (promote_async_fuel uuid4 search_space fuel request_id x)
    (fun _ s' => within_budget s' /\ metrics_registered s') s.
Proof.
  revert request_id x s. induction fuel as [|fuel IH]; intros request_id x s;
    cbn [promote_async_fuel]; apply promote_async_body_budget; [|done].
  by intros pid y s' Hs'.
Qed.

Lemma metrics_registered_purge request_id i s :
  metrics_registered s ->
  metrics_registered (set_rungs (alter (purge_metrics request_id) i) s).
Proof.
  intros Hs j rung e. st_simpl. rewrite list_lookup_alter.
  destruct (decide (i = j)) as [->|]; [|by apply Hs].
  intros (rung' & Hrung' & ->)%fmap_Some.
  unfold purge_metrics. cbn [set_metrics metrics].
  intros [_ He]%list_elem_of_filter. by apply (Hs j rung' e).
Qed.

(** The purge keeps the room that raising [invalid_trials] has made. *)
Lemma purge_loop_budget request_id range s :
  (Z.of_nat (size (trial_rungs s)) - invalid_trials s < max_trials s)%Z /\
  metrics_registered s ->
  wp (purge_loop request_id range)
    (fun _ s' =>
       (Z.of_nat (size (trial_rungs s')) - invalid_trials s'
        < max_trials s')%Z /\ metrics_registered s') s.
Proof.
  revert s. induction range as [|i range IH]; intros s [Hroom Hreg];
    cbn [purge_loop]; wp_steps; try done.
  apply IH. split; [by st_simpl|]. by apply metrics_registered_purge.
Qed.

Lemma handle_budget ev s :
  event_after_start ev s = true ->
  within_budget s /\ metrics_registered s ->
  wp (handle uuid4 search_space ev)
    (fun _ s' => within_budget s' /\ metrics_registered s') s.
Proof.
  intros Hev Hs. destruct ev as [|id|id v len|id|id v];
    cbn [handle event_after_start] in *; [done|..].
  - apply bool_decide_eq_true in Hev.
    unfold on_trial_created. wp_steps; try done.
    apply budget_register_known; [done|]. solve_budget.
  - unfold on_validation_completed, _promote_async.
    destruct v; wp_steps; try done.
    all: apply promote_async_fuel_budget; solve_budget.
  - unfold on_trial_closed. wp_steps; solve_budget.
  - unfold on_trial_exited_early, _promote_async.
    assert (Hraised : forall s1,
      trial_rungs s1 = trial_rungs s ->
      invalid_trials s1 = (invalid_trials s + 1)%Z ->
      max_trials s1 = max_trials s ->
      map metrics (rungs s1) = map metrics (rungs s) ->
      (Z.of_nat (size (trial_rungs s1)) - invalid_trials s1
       < max_trials s1)%Z /\ metrics_registered s1).
    { intros s1 Ht Hi Hm Hr. destruct Hs as [Hb Hreg].
      unfold within_budget in Hb. rewrite Ht, Hi, Hm. split; [lia|].
      apply (metrics_registered_same s); [done|by rewrite Ht|done]. }
    wp_steps.
    all: try (apply promote_async_fuel_budget; solve_budget).
    all: try (destruct (Hraised
                (set_invalid_trials (fun n => n + 1)%Z s)) as [Hroom Hreg];
              [done..|];
              split; [unfold within_budget in *; st_simpl;
                      st_simpl_in Hroom; lia
                     |apply (metrics_registered_same s);
                        [st_simpl; by rewrite ?map_alter_same by done
                        |done|apply Hs]]).
    eapply wp_mono.
    + apply purge_loop_budget.
      destruct (Hraised (set_invalid_trials (fun n => n + 1)%Z s))
        as [Hroom Hreg]; [done..|].
      split; [by st_simpl|].
      apply (metrics_registered_same s);
        [st_simpl; by rewrite ?map_alter_same by done|done|apply Hs].
    + intros [[]| |] s' [Hroom Hreg]; cbn [wp_cont]; wp_steps;
        try (split; [unfold within_budget; st_simpl; lia|done]).
      apply (budget_same
               (set_trial_rungs
                  (<[(uuid4 (draws s'), search_space (draws s')).1 := 0]>)
                  s')); [done..|].
      by apply budget_register_new.
Qed.


Lemma run_budget evs s :
  events_allowed event_after_start uuid4 search_space evs s = true ->
  within_budget s /\ metrics_registered s ->
  within_budget (run uuid4 search_space evs s).2 /\
  metrics_registered (run uuid4 search_space evs s).2.
Proof.
  revert s. induction evs as [|ev evs IH]; intros s Hall Hs;
    cbn [run events_allowed] in *; [done|].
  apply andb_prop in Hall as [Hev Hall].
  pose proof (handle_budget ev s Hev Hs) as Hs1. unfold wp in Hs1.
  destruct (handle uuid4 search_space ev s) as [o s1]. cbn [fst snd] in *.
  specialize (IH s1 Hall Hs1).
  by destruct (run uuid4 search_space evs s1).
Qed.

(** The loop of [initial_operations] registers at most one trial per
    pass. *)
Lemma initial_operations_loop_count k ops s :
  wp (initial_operations_loop uuid4 search_space k ops)
    (fun _ s' =>
       size (trial_rungs s') <= size (trial_rungs s) + k /\
       invalid_trials s' = invalid_trials s /\
       max_trials s' = max_trials s /\
       map metrics (rungs s') = map metrics (rungs s) /\
       dom (trial_rungs s) ⊆ dom (trial_rungs s')) s.
Proof.
  revert ops s. induction k as [|k IH]; intros ops s;
    cbn [initial_operations_loop]; wp_steps;
    try (split_and!; first [done | lia]).
  eapply wp_mono; [apply IH|].
  intros o s' (Hsize & Hi & Hm & Hr & Hdom). st_simpl_in Hsize.
  st_simpl_in Hi. st_simpl_in Hm. st_simpl_in Hr. st_simpl_in Hdom.
  cbn [fst snd] in *. split_and!; try done.
  - pose proof (size_insert_le (trial_rungs s) (uuid4 (draws s)) 0). lia.
  - etrans; [|exact Hdom]. rewrite dom_insert_L. apply union_subseteq_r.
Qed.

Lemma get_max_concurrent_trials_le s N s' :
  _get_max_concurrent_trials s = (Ok N, s') ->
  (1 <= max_trials s)%Z -> s' = s /\ (N <= max_trials s)%Z.
Proof.
  unfold _get_max_concurrent_trials. cbn [bind get].
  destruct (0 <? max_concurrent_trials s)%Z.
  - intros [= <- <-] Ht. split; [done|lia].
  - unfold bind, lift, ret. destruct (int_pow_to_int _ _); try done.
    intros [= <- <-] Ht. split; [done|lia].
Qed.

Lemma initial_operations_budget s :
  (1 <= max_trials s)%Z ->
  trial_rungs s = ∅ -> invalid_trials s = 0%Z -> metrics_registered s ->
  wp (initial_operations uuid4 search_space)
    (fun _ s' => within_budget s' /\ metrics_registered s') s.
Proof.
  intros Ht Hempty Hinv Hreg.
  assert (Hs : within_budget s /\ metrics_registered s).
  { split; [|done]. unfold within_budget.
    rewrite Hempty, Hinv, map_size_empty. lia. }
  unfold initial_operations, wp.
  destruct (_get_max_concurrent_trials s) as [[N| |] s1] eqn:HN.
  - destruct (get_max_concurrent_trials_le s N s1 HN Ht) as [-> HNle].
    rewrite (bind_ok _ _ _ _ _ HN).
    pose proof (initial_operations_loop_count (Z.to_nat N) [] s) as Hloop.
    unfold wp in Hloop.
    destruct Hloop as (Hsize & Hi & Hm & Hr & Hdom). split.
    + unfold within_budget. rewrite Hi, Hm, Hinv.
      rewrite Hempty, map_size_empty in Hsize. lia.
    + by apply (metrics_registered_same s).
  - unfold bind. rewrite HN. cbn [fst snd].
    assert (s1 = s) as ->; [|done].
    revert HN. unfold _get_max_concurrent_trials, bind, get, lift, ret.
    destruct (0 <? _)%Z; [done|].
    destruct (int_pow_to_int _ _); by intros [= <-].
  - unfold bind. rewrite HN. cbn [fst snd].
    assert (s1 = s) as ->; [|done].
    revert HN. unfold _get_max_concurrent_trials, bind, get, lift, ret.
    destruct (0 <? _)%Z; [done|].
    destruct (int_pow_to_int _ _); by intros [= <-].
Qed.

(** X20.  The search keeps to its budget: in a run that starts a freshly
    constructed state with [initial_operations] and goes on with any
    results, closes and early exits, and with [on_trial_created] for
    registered trials only, the registered trials that are not counted
    invalid never exceed [max_trials] (for [max_trials >= 1]). *)
Theorem trials_within_budget
    (max_length max_trials0 num_rungs0 divisor max_concurrent_trials : Z)
    (s0 : St) (evs : list SearcherEvent) :
  new_ASHASearchMethodState max_length max_trials0 num_rungs0 divisor
    max_concurrent_trials = Ok s0 ->
  (1 <= max_trials0)%Z ->
  events_allowed event_after_start uuid4 search_space evs
    (handle uuid4 search_space InitialOperations s0).2 = true ->
  within_budget (run uuid4 search_space (InitialOperations :: evs) s0).2.
Proof.
  intros Hnew Ht Hall.
  destruct (new_state_fresh _ _ _ _ _ _ Hnew)
    as (_ & _ & Hblank & Hempty & _).
  assert (Hmt : max_trials s0 = max_trials0 /\ invalid_trials s0 = 0%Z).
  { revert Hnew. unfold new_ASHASearchMethodState.
    destruct (_init_rungs _ _ _ _) as [[[]| |] ?]; intros [=].
    match goal with H : _ = s0 |- _ => rewrite <- H end. done. }
  destruct Hmt as [Hmt Hinv].
  assert (Hreg : metrics_registered s0).
  { intros i rung e Hi He. rewrite Forall_lookup in Hblank.
    destruct (Hblank i rung Hi) as [Hnil _]. rewrite Hnil in He.
    by apply elem_of_nil in He. }
  pose proof (initial_operations_budget s0 ltac:(lia) Hempty Hinv Hreg)
    as Hs1. unfold wp in Hs1.
  cbn [run handle] in *.
  destruct (initial_operations uuid4 search_space s0) as [o s1].
  cbn [fst snd] in *.
  destruct (run_budget evs s1 Hall Hs1) as [Hb _].
  by destruct (run uuid4 search_space evs s1).
Qed.

End Budget.

Lemma trials_within_budget_witness :
  within_budget
    (run example_uuid4 example_search_space
       (InitialOperations ::
        [TrialCreated 100; TrialCreated 101;
         ValidationCompleted 100 (VFloat 5) 4;
         TrialExitedEarly 101 (VExitedReason INVALID_HP);
         ValidationCompleted 102 (VFloat 3) 4])
       example_state).2.
Proof.
  apply (trials_within_budget example_uuid4 example_search_space
           8 3 2 2 0 example_state); [vm_compute; reflexivity|lia|].
  vm_compute. reflexivity.
Defined.

(** ** The account of the operations *)

Lemma count_validate_app ops1 ops2 :
  count_validate (ops1 ++ ops2)
  = (count_validate ops1 + count_validate ops2)%Z.
Proof.
  induction ops1 as [|[] ops1 IH]; cbn [app count_validate]; lia.
Qed.

Lemma count_validate_closes (new : list UUID) :
  count_validate (map Close new) = 0%Z.
Proof. induction new; cbn; lia. Qed.

Lemma ops_shape_app E u0 ops1 ops2 :
  ops_shape E u0 ops1 -> ops_shape E u0 ops2 ->
  ops_shape E u0 (ops1 ++ ops2).
Proof.
  intros H1 H2. induction H1; cbn [app]; try done; by constructor.
Qed.

Lemma ops_shape_closes E u0 (new : list UUID) :
  (forall id, id ∈ new -> id ∉ E) -> ops_shape E u0 (map Close new).
Proof.
  induction new as [|id new IH]; intros Hnew; cbn; constructor.
  - apply Hnew, list_elem_of_here.
  - apply IH. intros id' Hid'. by apply Hnew, list_elem_of_further.
Qed.

Lemma closes_map_Close (new : list UUID) : closes (map Close new) = new.
Proof.
  induction new as [|id new IH]; [done|].
  change (closes (map Close (id :: new)))
    with (id :: closes (map Close new)). by rewrite IH.
Qed.

Lemma rung0_units_same u0 s s' :
  map units_needed (rungs s') = map units_needed (rungs s) ->
  (forall rung0, rungs s !! 0 = Some rung0 -> units_needed rung0 = u0) ->
  forall rung0, rungs s' !! 0 = Some rung0 -> units_needed rung0 = u0.
Proof.
  intros Hmap Hs rung0 Hrung0.
  destruct (rungs s) as [|rung ladder] eqn:Hladder;
    destruct (rungs s') as [|rung' ladder'] eqn:Hladder'; try done.
  cbn in Hmap, Hrung0. injection Hmap as Hunits _. injection Hrung0 as <-.
  rewrite Hunits. by apply Hs.
Qed.

(** The account after the handler has appended [new] and updated the
    state. *)
Lemma ops_account_step p0 E u0 ops new s s' :
  ops_account p0 E u0 ops s ->
  pending_trials s' = (pending_trials s + count_validate new)%Z ->
  closed_trials s ⊆ closed_trials s' ->
  (forall id, id ∈ closes new -> id ∈ closed_trials s') ->
  ops_shape E u0 new ->
  early_exit_trials s' = early_exit_trials s ->
  map units_needed (rungs s') = map units_needed (rungs s) ->
  ops_account p0 E u0 (ops ++ new) s'.
Proof.
  intros (Hp & Hc & Hshape & He & Hu) Hp' Hsub Hc' Hnew He' Hu'. split_and!.
  - rewrite Hp', Hp, count_validate_app. lia.
  - intros id. rewrite closes_app.
    intros [Hid|Hid]%elem_of_app; [by apply Hsub, Hc|by apply Hc'].
  - by apply ops_shape_app.
  - by rewrite He'.
  - by apply (rung0_units_same u0 s).
Qed.

Lemma ops_account_same p0 E u0 ops s s' :
  ops_account p0 E u0 ops s ->
  pending_trials s' = pending_trials s ->
  closed_trials s ⊆ closed_trials s' ->
  early_exit_trials s' = early_exit_trials s ->
  map units_needed (rungs s') = map units_needed (rungs s) ->
  ops_account p0 E u0 ops s'.
Proof.
  intros Hs Hp Hc He Hu. rewrite <- (app_nil_r ops).
  apply (ops_account_step p0 E u0 ops [] s); try done.
  - cbn. lia.
  - by intros id ?%elem_of_nil.
  - constructor.
Qed.

Lemma promotions_async_at_most_one request_id x d self ids :
  (promotions_async request_id x d self).1 = Ok ids -> length ids <= 1.
Proof.
  destruct (decide (d = 0%Z)) as [->|Hd].
  { by rewrite promotions_async_zero. }
  destruct (promotions_async_unfold request_id x d self Hd)
    as (index & _ & _ & ->).
  unfold promotions_async_at.
  repeat case_match; cbn [fst]; intros [=]; subst ids; cbn; lia.
Qed.

Section Account.

Context (uuid4 : nat -> UUID) (search_space : nat -> HParams).
Context (p0 : Z) (E : gset UUID) (u0 : Z).

Lemma promote_async_tail_accounted ops added s :
  ops_account p0 E u0 ops s ->
  wp (promote_async_tail uuid4 search_space ops added)
    (ops_accounted p0 E u0) s.
Proof.
  intros Hs.
  assert (Hclose : forall ops' s1,
    ops_account p0 E u0 ops' s1 ->
    wp _get_close_rungs_ops
      (wp_cont (fun close_ops => ret (ops' ++ close_ops))
         (ops_accounted p0 E u0)) s1).
  { intros ops' s1 Hs1. unfold wp, _get_close_rungs_ops. cbn [bind get].
    destruct (close_rungs_loop_spec (rungs s1) [] s1)
      as (new & -> & _ & Hnew).
    cbn [fst snd wp_cont app]. wp_steps. intros ? [= <-].
    apply (ops_account_step p0 E u0 ops' _ s1); try done; st_simpl.
    - rewrite count_validate_closes. lia.
    - apply union_subseteq_r.
    - intros id. rewrite closes_map_Close. intros Hid.
      apply elem_of_union. left. by apply elem_of_list_to_set.
    - apply ops_shape_closes. intros id (_ & He & _)%Hnew.
      destruct Hs1 as (_ & _ & _ & <- & _). done. }
  assert (Hcreate : forall r,
    rungs s !! 0 = Some r ->
    ops_account p0 E u0
      ((ops ++ [Create (uuid4 (draws s)) (search_space (draws s))]) ++
       [ValidateAfter (uuid4 (draws s)) (units_needed r)])
      (set_trial_rungs (<[uuid4 (draws s) := 0]>)
         (set_draws S (set_pending_trials (fun n => n + 1)%Z s)))).
  { intros r Hr. rewrite <- app_assoc. cbn [app].
    apply (ops_account_step p0 E u0 ops _ s); try done.
    - by intros id ?%elem_of_nil.
    - destruct Hs as (_ & _ & _ & _ & Hu). rewrite (Hu r Hr).
      repeat constructor. }
  unfold promote_async_tail. wp_steps; cbn [fst snd];
    try (by intros ? [=]).
  all: try (by apply Hclose; first [apply Hcreate | done]).
  all: intros ? [= <-]; first [by apply Hcreate | done].
Qed.

(** Closes a goal [ops_account .. ops s'] for the operations of an account
    of the context and a state that differs in fields the account does not
    look at. *)
Ltac solve_account :=
  lazymatch goal with
  | H : ops_account ?p0 ?E ?u0 ?ops ?s |- ops_account ?p0 ?E ?u0 ?ops _ =>
      apply (ops_account_same p0 E u0 ops s); [exact H|..]; st_simpl;
      by rewrite ?map_alter_same by done
  end.

Lemma promote_loop_accounted rec rung_idx promotions s :
  length promotions <= 1 ->
  (forall pid s',
     ops_account p0 E u0 [] s' ->
     wp (rec pid float_max) (ops_accounted p0 E u0) s') ->
  ops_account p0 E u0 [] s ->
  wp (promote_loop rec rung_idx promotions [] false)
    (fun o s' =>
       match o with
       | Ok (Completed ops _) | Ok (Returned ops) =>
           ops_account p0 E u0 ops s'
       | _ => True
       end) s.
Proof.
  intros Hlen Hrec Hs.
  destruct promotions as [|pid [|]]; [..|cbn in Hlen; lia];
    cbn [promote_loop]; wp_steps; try done.
  - apply (ops_account_step p0 E u0 [] _ s); try done.
    + by intros id ?%elem_of_nil.
    + constructor; [|lia|constructor].
      match goal with H : negb (bool_decide _) = true |- _ =>
        apply negb_true_iff, bool_decide_eq_false in H; st_simpl_in H
      end.
      destruct Hs as (_ & _ & _ & <- & _). done.
    + st_simpl. by rewrite map_alter_same.
  - eapply wp_mono; [apply Hrec; solve_account|].
    intros [?| |] ? Hres; cbn [wp_cont]; wp_steps; try done.
    by apply Hres.
Qed.

Lemma promote_async_body_accounted rec request_id x s :
  (forall pid s',
     ops_account p0 E u0 [] s' ->
     wp (rec pid float_max) (ops_accounted p0 E u0) s') ->
  ops_account p0 E u0 [] s ->
  wp (promote_async_body uuid4 search_space rec request_id x)
    (ops_accounted p0 E u0) s.
Proof.
  intros Hrec Hs. unfold promote_async_body. wp_steps;
    try (by intros ? [=]).
  - apply promote_async_tail_accounted.
    apply (ops_account_step p0 E u0 [] [Close request_id] s);
      [exact Hs|..]; st_simpl; unfold add_to_set.
    + cbn [count_validate]. lia.
    + apply union_subseteq_r.
    + intros id ->%list_elem_of_singleton.
      apply elem_of_union. left. by apply elem_of_singleton.
    + constructor; [|constructor].
      match goal with H : negb (bool_decide _) = true |- _ =>
        apply negb_true_iff, bool_decide_eq_false in H; st_simpl_in H
      end.
      destruct Hs as (_ & _ & _ & <- & _). done.
    + done.
    + by rewrite !map_alter_same.
  - apply promote_async_tail_accounted. solve_account.
  - match goal with
    | |- context [set_rungs
                    (fun l => <[?i := (promotions_async ?a ?b ?c ?d).2]> l)
                    ?s'] =>
        assert (Hnew : ops_account p0 E u0 []
                  (set_rungs
                     (fun l => <[i := (promotions_async a b c d).2]> l) s'));
        [destruct (promotions_async_frame a b c d) as (_ & Hunits & _);
         apply (ops_account_same p0 E u0 [] s); [exact Hs|..]; st_simpl;
         try done;
         rewrite (map_insert_same units_needed _ d) by done;
         by rewrite map_alter_same by done|];
        pose proof (promotions_async_at_most_one a b c d) as Hone
    end.
    match goal with
    | |- context [promotions_async ?a ?b ?c ?d] =>
        destruct (promotions_async a b c d) as [[ids| |] self']
    end; cbn [fst snd] in *; cbn [wp_cont]; try (by intros ? [=]).
    wp_step. eapply wp_mono.
    + apply (promote_loop_accounted rec); [by apply Hone|done|exact Hnew].
    + intros [[]| |] s' Hres; cbn [wp_cont]; wp_steps;
        try (by intros ? [=]).
      * by apply promote_async_tail_accounted.
      * by intros ? [= <-].
Qed.

Lemma promote_async_fuel_accounted fuel request_id x s :
  ops_account p0 E u0 [] s ->
  wp (promote_async_fuel uuid4 search_space fuel request_id x)
    (ops_accounted p0 E u0) s.
Proof.
  revert request_id x s. induction fuel as [|fuel IH]; intros request_id x s;
    cbn [promote_async_fuel]; apply promote_async_body_accounted.
  - by intros pid s' _ ? [=].
  - intros pid s' Hs'. by apply IH.
Qed.

Lemma initial_operations_loop_accounted k ops s :
  ops_account p0 E u0 ops s ->
  wp (initial_operations_loop uuid4 search_space k ops)
    (ops_accounted p0 E u0) s.
Proof.
  revert ops s. induction k as [|k IH]; intros ops s Hs;
    cbn [initial_operations_loop]; wp_steps; try (by intros ? [=]).
  - by intros ? [= <-].
  - apply IH. cbn [fst snd]. rewrite <- app_assoc. cbn [app].
    apply (ops_account_step p0 E u0 ops _ s); try done.
    + by intros id ?%elem_of_nil.
    + destruct Hs as (_ & _ & _ & _ & Hu).
      match goal with H : rungs s !! 0 = Some ?r |- _ => rewrite (Hu r H) end.
      repeat constructor.
Qed.

End Account.

Lemma map_foldl_purge {B} (g : Rung -> B) request_id range ladder :
  (forall rung, g (purge_metrics request_id rung) = g rung) ->
  map g (foldl (fun l i => alter (purge_metrics request_id) i l) ladder range)
  = map g ladder.
Proof.
  intros Hg. revert ladder.
  induction range as [|i range IH]; intros ladder; cbn [foldl]; [done|].
  by rewrite IH, map_alter_same.
Qed.

Section AccountFacts.

Context (uuid4 : nat -> UUID) (search_space : nat -> HParams).

(** The account of a whole handler call: [pending_trials] is first lowered
    by one for a report, and an early exit is first recorded; the [Close]
    that answers an [INVALID_HP] exit comes before the operations of the
    account. *)
Lemma handle_accounted ev s u0 :
  (forall rung0, rungs s !! 0 = Some rung0 -> units_needed rung0 = u0) ->
  (forall request_id, ev <> TrialClosed request_id) ->
  exists E,
    wp (handle uuid4 search_space ev)
      (fun o s' =>
         forall ops, o = Ok ops ->
         exists rest,
           ops = exit_prefix ev ++ rest /\
           (forall id, id ∈ closes (exit_prefix ev) ->
                       id ∈ closed_trials s') /\
           ops_account
             (pending_trials s - (if is_report ev then 1 else 0)) E u0
             rest s') s.
Proof.
  intros Hu Hev.
  assert (Hstart : forall p E s1,
    pending_trials s1 = p -> early_exit_trials s1 = E ->
    map units_needed (rungs s1) = map units_needed (rungs s) ->
    ops_account p E u0 [] s1).
  { intros p E s1 Hp He Hr. split_and!; try done.
    - cbn. lia.
    - by intros id ?%elem_of_nil.
    - constructor.
    - by apply (rung0_units_same u0 s). }
  clear Hu.
  assert (Hplain : forall p E (m : M St (list Operation)),
    wp m (ops_accounted p E u0) s ->
    wp m (fun o s' =>
            forall ops, o = Ok ops ->
            exists rest,
              ops = [] ++ rest /\
              (forall id, id ∈ closes [] -> id ∈ closed_trials s') /\
              ops_account p E u0 rest s') s).
  { intros p E m Hm. eapply wp_mono; [exact Hm|].
    intros o s' Hacc ops ->. exists ops. split; [done|].
    split; [by intros id ?%elem_of_nil|by apply Hacc]. }
  destruct ev as [|id|id v len|id|id v]; cbn [handle is_report exit_prefix].
  - exists (early_exit_trials s). apply Hplain.
    unfold initial_operations, _get_max_concurrent_trials.
    wp_steps; try (by intros ? [=]).
    all: try (apply initial_operations_loop_accounted, Hstart;
              first [done | lia]).
    destruct (int_pow_to_int _ _); cbn [wp_cont]; wp_steps;
      try (by intros ? [=]).
    apply initial_operations_loop_accounted, Hstart; first [done | lia].
  - exists (early_exit_trials s). apply Hplain.
    unfold on_trial_created. wp_steps; try (by intros ? [=]).
    intros ? [= <-]. apply Hstart; st_simpl; try done; [lia|].
    by rewrite map_alter_same.
  - exists (early_exit_trials s). apply Hplain.
    unfold on_validation_completed, _promote_async.
    destruct v; wp_steps; try (by intros ? [=]).
    all: apply promote_async_fuel_accounted, Hstart; st_simpl;
      first [done | lia].
  - by destruct (Hev id).
  - exists (add_to_set id (early_exit_trials s)).
    unfold on_trial_exited_early, _promote_async.
    destruct (is_INVALID_HP v) eqn:Hreason.
    + wp_steps; try (by intros ? [=]).
      eapply wp_of_run.
      * apply purge_loop_ok. intros i Hi. st_simpl. rewrite length_alter.
        apply elem_of_seq in Hi.
        match goal with H : rungs s !! _ = Some _ |- _ =>
          apply lookup_lt_Some in H end. lia.
      * cbn [wp_cont]. wp_steps; try (by intros ? [=]).
        intros ? [= <-]. cbn [fst snd].
        match goal with
        | H : foldl _ _ _ !! 0 = Some ?r0 |- context [ops_account _ _ _ _ ?s'] =>
            assert (Hacc : ops_account (pending_trials s - 1)
                             (add_to_set id (early_exit_trials s)) u0 []
                             (set_pending_trials (fun n => n - 1)%Z s'));
            [apply Hstart; st_simpl; try done; [lia|];
             cbn beta; by rewrite map_foldl_purge, map_alter_same|];
            destruct (Hacc) as (_ & _ & _ & _ & Hu0);
            st_simpl_in Hu0; cbn beta in Hu0; rewrite (Hu0 r0 H)
        end.
        eexists. split; [reflexivity|]. split.
        -- intros id' ->%list_elem_of_singleton. st_simpl.
           unfold add_to_set. apply elem_of_union. left.
           by apply elem_of_singleton.
        -- change [Create (uuid4 (draws s)) (search_space (draws s));
                   ValidateAfter (uuid4 (draws s)) u0]
             with ([] ++ [Create (uuid4 (draws s)) (search_space (draws s));
                          ValidateAfter (uuid4 (draws s)) u0]).
           eapply ops_account_step; [exact Hacc|..]; st_simpl.
           ++ cbn [count_validate]. lia.
           ++ done.
           ++ by intros id' ?%elem_of_nil.
           ++ repeat constructor.
           ++ done.
           ++ done.
    + apply Hplain. wp_steps.
      apply promote_async_fuel_accounted, Hstart; st_simpl;
        first [done | lia].
Qed.

(** X21.  [pending_trials] counts the validations asked for and not yet
    reported: when a handler returns, [pending_trials] is what it was, less
    one if the event was a validation result or an early exit, plus the
    number of [ValidateAfter] operations returned. *)
Theorem pending_trials_account (ev : SearcherEvent) (s s' : St)
    (ops : list Operation) :
  handle uuid4 search_space ev s = (Ok ops, s') ->
  pending_trials s'
  = (pending_trials s - (if is_report ev then 1 else 0)
     + count_validate ops)%Z.
Proof.
  intros Hrun.
  destruct (closed_or_not ev) as [[request_id ->]|Hne].
  - cbn [handle is_report] in *. revert Hrun.
    unfold on_trial_closed, bind, get, modify. st_simpl.
    destruct (_ && _); intros [= <- <-]; st_simpl; cbn [count_validate]; lia.
  - destruct (handle_accounted ev s
                (match rungs s !! 0 with
                 | Some rung0 => units_needed rung0
                 | None => 0%Z
                 end)) as (E & Hacc); [|done|].
    { intros rung0 Hrung0. by rewrite Hrung0. }
    unfold wp in Hacc. rewrite Hrun in Hacc. cbn [fst snd] in Hacc.
    destruct (Hacc ops eq_refl) as (rest & -> & _ & Hp & _).
    rewrite Hp, count_validate_app.
    assert (count_validate (exit_prefix ev) = 0%Z) as ->; [|lia].
    destruct ev; try done. cbn [exit_prefix]. by destruct (is_INVALID_HP _).
Qed.

(** X22.  The operations that a handler other than [on_trial_closed]
    returns are, after the [Close] that answers an [INVALID_HP] exit:
    [Close] operations for trials that are not early exits, [Create]
    operations each followed at once by the [ValidateAfter] of the created
    trial up to the threshold of rung 0, and single [ValidateAfter]
    operations of at least one unit for trials that are not early exits.
    So no further training is asked for a trial that has exited early, and
    no [Close] is sent for one but to answer [INVALID_HP]. *)
Theorem handler_operations_shape (ev : SearcherEvent) (s s' : St)
    (ops : list Operation) (rung0 : Rung) :
  handle uuid4 search_space ev s = (Ok ops, s') ->
  (forall request_id, ev <> TrialClosed request_id) ->
  rungs s !! 0 = Some rung0 ->
  exists rest,
    ops = exit_prefix ev ++ rest /\
    ops_shape (early_exit_trials s') (units_needed rung0) rest.
Proof.
  intros Hrun Hne Hrung0.
  destruct (handle_accounted ev s (units_needed rung0)) as (E & Hacc);
    [|done|].
  { intros r. rewrite Hrung0. by intros [= <-]. }
  unfold wp in Hacc. rewrite Hrun in Hacc. cbn [fst snd] in Hacc.
  destruct (Hacc ops eq_refl) as (rest & -> & _ & _ & _ & Hshape & <- & _).
  by exists rest.
Qed.

(** X23.  Every trial for which a handler returns a [Close] operation is
    in [closed_trials] when the handler has returned. *)
Theorem closed_when_close_returned (ev : SearcherEvent) (s s' : St)
    (ops : list Operation) (request_id : UUID) :
  handle uuid4 search_space ev s = (Ok ops, s') ->
  Close request_id ∈ ops ->
  request_id ∈ closed_trials s'.
Proof.
  intros Hrun Hin.
  assert (Hid : request_id ∈ closes ops).
  { unfold closes. apply list_elem_of_omap. by exists (Close request_id). }
  destruct (closed_or_not ev) as [[id ->]|Hne].
  - exfalso. cbn [handle] in Hrun.
    destruct (on_trial_closed_ops id s) as (ops' & Hops' & [->|[-> _]]);
      rewrite Hrun in Hops'; injection Hops' as ->.
    + by apply elem_of_nil in Hin.
    + by apply list_elem_of_singleton in Hin.
  - destruct (handle_accounted ev s
                (match rungs s !! 0 with
                 | Some rung0 => units_needed rung0
                 | None => 0%Z
                 end)) as (E & Hacc); [|done|].
    { intros rung0 Hrung0. by rewrite Hrung0. }
    unfold wp in Hacc. rewrite Hrun in Hacc. cbn [fst snd] in Hacc.
    destruct (Hacc ops eq_refl) as (rest & -> & Hprefix & _ & Hc & _).
    rewrite closes_app in Hid.
    apply elem_of_app in Hid as [Hid|Hid]; [by apply Hprefix|by apply Hc].
Qed.

End AccountFacts.

Lemma pending_trials_account_witness :
  pending_trials
    (handle example_uuid4 example_search_space
       (ValidationCompleted 101 (VFloat 3) 4) example_state_running).2
  = (pending_trials example_state_running
     - (if is_report (ValidationCompleted 101 (VFloat 3) 4) then 1 else 0)
     + count_validate [ValidateAfter 101 8])%Z.
Proof.
  apply (pending_trials_account example_uuid4 example_search_space
           (ValidationCompleted 101 (VFloat 3) 4) example_state_running).
  vm_compute. reflexivity.
Defined.

Lemma handler_operations_shape_witness :
  exists rest,
    [Close 101; Create 103 [("batch_size"%string, 3%Z)];
     ValidateAfter 103 4]
    = exit_prefix (TrialExitedEarly 101 (VExitedReason INVALID_HP)) ++ rest /\
    ops_shape
      (early_exit_trials
         (handle example_uuid4 example_search_space
            (TrialExitedEarly 101 (VExitedReason INVALID_HP))
            example_state_running).2)
      4 rest.
Proof.
  apply (handler_operations_shape example_uuid4 example_search_space
           (TrialExitedEarly 101 (VExitedReason INVALID_HP))
           example_state_running _ _
           (set_outstanding_trials (fun _ => 1%Z)
              (set_metrics (fun _ => [entry 100 5 false]) (new_rung 4 0))));
    [vm_compute; reflexivity|discriminate|vm_compute; reflexivity].
Defined.

Lemma closed_when_close_returned_witness :
  101%N ∈ closed_trials
    (handle example_uuid4 example_search_space
       (TrialExitedEarly 101 (VExitedReason INVALID_HP))
       example_state_running).2.
Proof.
  apply (closed_when_close_returned example_uuid4 example_search_space
           (TrialExitedEarly 101 (VExitedReason INVALID_HP))
           example_state_running _
           [Close 101; Create 103 [("batch_size"%string, 3%Z)];
            ValidateAfter 103 4]);
    [vm_compute; reflexivity|apply list_elem_of_here].
Defined.
(** ** The validations outstanding *)

Section Pending.

Context (uuid4 : nat -> UUID) (search_space : nat -> HParams).
Context (p0 : Z).

Lemma promote_async_tail_pending ops (added : bool) s :
  (pending_trials s <= p0 + (if added then 1 else 0))%Z ->
  wp (promote_async_tail uuid4 search_space ops added)
    (fun _ s' => (pending_trials s' <= p0 + 1)%Z) s.
Proof.
  intros Hs.
  assert (Hclose : forall ops' s1,
    (pending_trials s1 <= p0 + 1)%Z ->
    wp _get_close_rungs_ops
      (wp_cont (fun close_ops => ret (ops' ++ close_ops))
         (fun _ s' => (pending_trials s' <= p0 + 1)%Z)) s1).
  { intros ops' s1 Hs1. unfold wp, _get_close_rungs_ops. cbn [bind get].
    destruct (close_rungs_loop_spec (rungs s1) [] s1) as (new & -> & _).
    cbn [fst snd wp_cont]. wp_steps. by st_simpl. }
  unfold promote_async_tail. wp_steps; st_simpl.
  all: try (apply Hclose; st_simpl).
  all: destruct added; try discriminate; lia.
Qed.

Lemma promote_loop_pending rec rung_idx promotions s :
  length promotions <= 1 ->
  (forall pid s',
     (pending_trials s' <= p0)%Z ->
     wp (rec pid float_max)
       (fun _ s'' => (pending_trials s'' <= p0 + 1)%Z) s') ->
  (pending_trials s <= p0)%Z ->
  wp (promote_loop rec rung_idx promotions [] false)
    (fun o s' =>
       match o with
       | Ok (Completed _ added) =>
           (pending_trials s' <= p0 + (if added then 1 else 0))%Z
       | _ => (pending_trials s' <= p0 + 1)%Z
       end) s.
Proof.
  intros Hlen Hrec Hs.
  destruct promotions as [|pid [|]]; [..|cbn in Hlen; lia];
    cbn [promote_loop]; wp_steps; st_simpl; try lia.
  eapply wp_mono; [apply Hrec; st_simpl; lia|].
  intros [?| |] ? Hres; cbn [wp_cont]; wp_steps; done.
Qed.

Lemma promote_async_body_pending rec request_id x s :
  (forall pid s',
     (pending_trials s' <= p0)%Z ->
     wp (rec pid float_max)
       (fun _ s'' => (pending_trials s'' <= p0 + 1)%Z) s') ->
  (pending_trials s <= p0)%Z ->
  wp (promote_async_body uuid4 search_space rec request_id x)
    (fun _ s' => (pending_trials s' <= p0 + 1)%Z) s.
Proof.
  intros Hrec Hs. unfold promote_async_body. wp_steps; st_simpl; try lia.
  - apply promote_async_tail_pending. st_simpl. lia.
  - apply promote_async_tail_pending. st_simpl. lia.
  - match goal with
    | |- context [promotions_async ?a ?b ?c ?d] =>
        pose proof (promotions_async_at_most_one a b c d) as Hone;
        destruct (promotions_async a b c d) as [[ids| |] self']
    end; cbn [fst snd] in *; cbn [wp_cont]; st_simpl; try lia.
    wp_step. eapply wp_mono.
    + apply (promote_loop_pending rec); [by apply Hone|done|by st_simpl].
    + intros [[]| |] s' Hres; cbn [wp_cont]; wp_steps; try lia.
      by apply promote_async_tail_pending.
Qed.

Lemma promote_async_fuel_pending fuel request_id x s :
  (pending_trials s <= p0)%Z ->
  wp (promote_async_fuel uuid4 search_space fuel request_id x)
    (fun _ s' => (pending_trials s' <= p0 + 1)%Z) s.
Proof.
  revert request_id x s. induction fuel as [|fuel IH]; intros request_id x s;
    cbn [promote_async_fuel]; apply promote_async_body_pending.
  - intros pid s' Hs'. unfold wp, out_of_fuel. cbn. lia.
  - intros pid s' Hs'. by apply IH.
Qed.

End Pending.

Lemma get_max_concurrent_trials_limit s N s' :
  _get_max_concurrent_trials s = (Ok N, s') ->
  s' = s /\
  ((0 < max_concurrent_trials s)%Z -> (N <= max_concurrent_trials s)%Z).
Proof.
  unfold _get_max_concurrent_trials. cbn [bind get].
  destruct (0 <? max_concurrent_trials s)%Z eqn:Hc.
  - intros [= <- <-]. split; [done|lia].
  - apply Z.ltb_ge in Hc. unfold bind, lift, ret.
    destruct (int_pow_to_int _ _); try done.
    intros [= <- <-]. split; [done|lia].
Qed.

Section PendingFacts.

Context (uuid4 : nat -> UUID) (search_space : nat -> HParams).

Lemma initial_operations_loop_pending k ops s :
  wp (initial_operations_loop uuid4 search_space k ops)
    (fun _ s' => (pending_trials s' <= pending_trials s + Z.of_nat k)%Z) s.
Proof.
  revert ops s. induction k as [|k IH]; intros ops s;
    cbn [initial_operations_loop]; wp_steps; st_simpl; try lia.
  eapply wp_mono; [apply IH|].
  intros o s' Hs'. st_simpl_in Hs'. cbn beta in *. lia.
Qed.

(** No handler but [initial_operations] raises [pending_trials], whether
    it returns or raises. *)
Lemma handle_pending ev s :
  event_not_initial ev s = true ->
  wp (handle uuid4 search_space ev)
    (fun _ s' => (pending_trials s' <= pending_trials s)%Z) s.
Proof.
  intros Hev.
  destruct ev as [|id|id v len|id|id v]; cbn [handle]; [done|..].
  - unfold on_trial_created. wp_steps; st_simpl; lia.
  - unfold on_validation_completed, _promote_async.
    destruct v; wp_steps; st_simpl; try lia.
    all: eapply wp_mono;
      [apply (promote_async_fuel_pending _ _ (pending_trials s - 1));
       st_simpl; lia|].
    all: cbn beta; intros; lia.
  - unfold on_trial_closed. wp_steps; st_simpl; lia.
  - unfold on_trial_exited_early, _promote_async.
    destruct (is_INVALID_HP v) eqn:Hreason.
    + wp_steps; st_simpl; try lia.
      eapply wp_of_run.
      * apply purge_loop_ok. intros i Hi. st_simpl. rewrite length_alter.
        apply elem_of_seq in Hi.
        match goal with H : rungs s !! _ = Some _ |- _ =>
          apply lookup_lt_Some in H end. lia.
      * cbn [wp_cont]. wp_steps; st_simpl; lia.
    + wp_steps.
      eapply wp_mono;
        [apply (promote_async_fuel_pending _ _ (pending_trials s - 1));
         st_simpl; lia|].
      cbn beta; intros; lia.
Qed.

Lemma run_pending evs s :
  events_allowed event_not_initial uuid4 search_space evs s = true ->
  (pending_trials (run uuid4 search_space evs s).2 <= pending_trials s)%Z.
Proof.
  revert s. induction evs as [|ev evs IH]; intros s Hall;
    cbn [run events_allowed] in *; [cbn; lia|].
  apply andb_prop in Hall as [Hev Hall].
  pose proof (handle_pending ev s Hev) as Hs1. unfold wp in Hs1.
  destruct (handle uuid4 search_space ev s) as [o s1]. cbn [fst snd] in *.
  specialize (IH s1 Hall).
  destruct (run uuid4 search_space evs s1). cbn [snd] in *. lia.
Qed.

(** X24.  The search keeps to its concurrency: in a run that starts a
    freshly constructed state with [initial_operations] and does not call
    it again, [pending_trials] never exceeds the number [N] of trials that
    [initial_operations] started, whatever the events and whether their
    handlers return or raise; so it never exceeds [max_concurrent_trials]
    when that is positive. *)
Theorem pending_within_concurrency
    (max_length max_trials0 num_rungs0 divisor0 max_concurrent_trials0 : Z)
    (s0 : St) (N : Z) (evs : list SearcherEvent) :
  new_ASHASearchMethodState max_length max_trials0 num_rungs0 divisor0
    max_concurrent_trials0 = Ok s0 ->
  (_get_max_concurrent_trials s0).1 = Ok N ->
  events_allowed event_not_initial uuid4 search_space evs
    (handle uuid4 search_space InitialOperations s0).2 = true ->
  (pending_trials (run uuid4 search_space (InitialOperations :: evs) s0).2
   <= Z.max 0 N)%Z /\
  ((0 < max_concurrent_trials0)%Z ->
   (pending_trials (run uuid4 search_space (InitialOperations :: evs) s0).2
    <= max_concurrent_trials0)%Z).
Proof.
  intros Hnew HN Hall.
  assert (Hs0 : pending_trials s0 = 0%Z /\
                max_concurrent_trials s0 = max_concurrent_trials0).
  { revert Hnew. unfold new_ASHASearchMethodState.
    destruct (_init_rungs _ _ _ _) as [[[]| |] ?]; intros [=].
    match goal with H : _ = s0 |- _ => rewrite <- H end. done. }
  destruct Hs0 as [Hp0 Hmc].
  assert (Hs1 : (pending_trials
                   (handle uuid4 search_space InitialOperations s0).2
                 <= Z.max 0 N)%Z /\
                ((0 < max_concurrent_trials0)%Z ->
                 (N <= max_concurrent_trials0)%Z)).
  { destruct (_get_max_concurrent_trials s0) as [o s1] eqn:HG.
    cbn [fst] in HN. subst o.
    destruct (get_max_concurrent_trials_limit s0 N s1 HG) as [-> Hlim].
    split; [|lia]. cbn [handle]. unfold initial_operations, bind.
    rewrite HG.
    pose proof (initial_operations_loop_pending (Z.to_nat N) [] s0)
      as Hloop.
    unfold wp in Hloop. lia. }
  destruct Hs1 as [Hs1 HNmc].
  cbn [run handle] in *.
  destruct (initial_operations uuid4 search_space s0) as [o s1].
  cbn [fst snd] in *.
  pose proof (run_pending evs s1 Hall) as Hrun.
  destruct (run uuid4 search_space evs s1). cbn [snd] in *. lia.
Qed.

(** X25.  An event is answered by at most one new validation: the
    operations that a handler other than [initial_operations] returns hold
    at most one [ValidateAfter]. *)
Theorem at_most_one_validate_after (ev : SearcherEvent) (s s' : St)
    (ops : list Operation) :
  handle uuid4 search_space ev s = (Ok ops, s') ->
  ev <> InitialOperations ->
  (count_validate ops <= 1)%Z.
Proof.
  intros Hrun Hev.
  assert (Hnot : event_not_initial ev s = true) by by destruct ev.
  pose proof (handle_pending ev s Hnot) as Hle. unfold wp in Hle.
  rewrite Hrun in Hle. cbn [fst snd] in Hle.
  destruct (closed_or_not ev) as [[request_id ->]|Hne].
  - cbn [handle] in Hrun.
    destruct (on_trial_closed_ops request_id s) as (ops' & Hops' & [->|[-> _]]);
      rewrite Hrun in Hops'; injection Hops' as ->; cbn; lia.
  - destruct (handle_accounted uuid4 search_space ev s
                (match rungs s !! 0 with
                 | Some rung0 => units_needed rung0
                 | None => 0%Z
                 end)) as (E & Hacc); [|done|].
    { intros rung0 Hrung0. by rewrite Hrung0. }
    unfold wp in Hacc. rewrite Hrun in Hacc. cbn [fst snd] in Hacc.
    destruct (Hacc ops eq_refl) as (rest & -> & _ & Hp & _).
    rewrite count_validate_app.
    assert (count_validate (exit_prefix ev) = 0%Z) as ->.
    { destruct ev; try done. cbn [exit_prefix]. by destruct (is_INVALID_HP _). }
    destruct (is_report ev); lia.
Qed.

End PendingFacts.

Lemma pending_within_concurrency_witness :
  (pending_trials
     (run example_uuid4 example_search_space
        (InitialOperations ::
         [TrialCreated 100; ValidationCompleted 100 (VFloat 5) 4;
          ValidationCompleted 101 (VFloat 3) 4;
          TrialExitedEarly 102 (VExitedReason INVALID_HP);
          ValidationCompleted 103 (VFloat 1) 4])
        example_state_limited).2 <= 2)%Z.
Proof.
  apply (pending_within_concurrency example_uuid4 example_search_space
           8 3 2 2 2 example_state_limited 2);
    [vm_compute; reflexivity..|lia].
Defined.

Lemma at_most_one_validate_after_witness :
  (count_validate [ValidateAfter 101 8] <= 1)%Z.
Proof.
  apply (at_most_one_validate_after example_uuid4 example_search_space
           (ValidationCompleted 101 (VFloat 3) 4) example_state_running
           (handle example_uuid4 example_search_space
              (ValidationCompleted 101 (VFloat 3) 4)
              example_state_running).2);
    [vm_compute; reflexivity|discriminate].
Defined.
(** ** [progress] *)

Section ProgressFloat.

Local Open Scope Z_scope.

Lemma shr_m_shr_1 r : 0 <= shr_m r -> shr_m (shr_1 r) = shr_m r / 2.
Proof.
  destruct r as [[|[p|p|]|p] ? ?]; cbn [shr_m shr_1]; intros Hr;
    try lia.
  all: first [ reflexivity
             | apply (Z.div_unique_pos _ _ _ 1); lia
             | apply (Z.div_unique_pos _ _ _ 0); lia ].
Qed.

Lemma shr_m_iter n : forall r,
  0 <= shr_m r ->
  shr_m (SpecFloat.iter_pos shr_1 n r) = shr_m r / 2 ^ Zpos n.
Proof.
  assert (Hpos : forall k, 0 < 2 ^ Zpos k)
    by (intros k; apply Z.pow_pos_nonneg; lia).
  induction n as [n IH|n IH|]; intros r Hr; cbn [SpecFloat.iter_pos].
  - assert (H1 : 0 <= shr_m (shr_1 r))
      by (rewrite shr_m_shr_1 by done; apply Z.div_pos; lia).
    assert (H2 : 0 <= shr_m (SpecFloat.iter_pos shr_1 n (shr_1 r))).
    { rewrite IH by done. apply Z.div_pos; [done|apply Hpos]. }
    assert (E : 2 ^ Zpos n~1 = 2 * 2 ^ Zpos n * 2 ^ Zpos n).
    { rewrite <- Z.mul_assoc, <- Z.pow_add_r, <- Z.pow_succ_r by lia.
      f_equal. lia. }
    rewrite IH, IH, shr_m_shr_1 by done.
    pose proof (Hpos n).
    rewrite !Z.div_div by lia. rewrite E. f_equal. ring.
  - assert (H2 : 0 <= shr_m (SpecFloat.iter_pos shr_1 n r)).
    { rewrite IH by done. apply Z.div_pos; [done|apply Hpos]. }
    assert (E : 2 ^ Zpos n~0 = 2 ^ Zpos n * 2 ^ Zpos n).
    { rewrite <- Z.pow_add_r by lia. f_equal. lia. }
    rewrite IH, IH by done. pose proof (Hpos n).
    rewrite Z.div_div by lia. rewrite E. f_equal.
  - rewrite shr_m_shr_1 by done. by rewrite Z.pow_1_r.
Qed.

Lemma round_nearest_even_range m l :
  m <= round_nearest_even m l <= m + 1.
Proof.
  destruct l as [|[]]; cbn [round_nearest_even];
    try destruct (Z.even m); lia.
Qed.

(** After the rounding step a mantissa of 53 bits gives a finite float. *)
Lemma round_finish_finite q1 e :
  2 ^ 52 <= q1 <= 2 ^ 53 -> -1000 <= e <= 900 ->
  exists m e', round_finish q1 e = S754_finite false m e'.
Proof.
  intros Hq He. unfold round_finish, shr_fexp.
  destruct (decide (q1 = 2 ^ 53)) as [->|Hne].
  - change (Zdigits2 (2 ^ 53)) with 54.
    rewrite fexp_normal by lia.
    replace (54 + e - 53 - e) with 1 by lia.
    cbn [shr shr_record_of_loc SpecFloat.iter_pos].
    change (shr_m (shr_1 _)) with (2 ^ 52).
    change (2 ^ 52) with (Zpos (Z.to_pos (2 ^ 52))) at 1.
    cbv iota beta.
    replace (e + 1 <=? PyFloat.emax - PyFloat.prec) with true
      by (symmetry; apply Z.leb_le; unfold PyFloat.emax, PyFloat.prec; lia).
    by eexists _, _.
  - assert (Hd : Zdigits2 q1 = 53) by (apply Zdigits2_unique; lia).
    rewrite Hd, fexp_normal by lia.
    replace (53 + e - 53 - e) with 0 by lia.
    cbn [shr shr_record_of_loc shr_m].
    destruct q1 as [|m|m]; try lia.
    replace (e <=? PyFloat.emax - PyFloat.prec) with true
      by (symmetry; apply Z.leb_le; unfold PyFloat.emax, PyFloat.prec; lia).
    by eexists _, _.
Qed.

(** [1.2 * n] is a finite, positive float for [1 <= n < 2^53]. *)
Lemma mul_1_2_finite z :
  1 <= z < 2 ^ 53 ->
  exists m e,
    SFmul PyFloat.prec PyFloat.emax float_1_2 (normal z)
    = S754_finite false m e.
Proof.
  intros Hz.
  pose proof (digits_small z Hz) as Hd.
  pose proof (normal_mantissa z Hz) as HM.
  unfold float_1_2, normal. cbn [SFmul xorb].
  set (M := z * 2 ^ (53 - Zdigits2 z)) in *.
  set (ex := -52 + (Zdigits2 z - 53)).
  clearbody M.
  rewrite Pos2Z.inj_mul, Z2Pos.id by lia.
  set (P := 5404319552844595 * M).
  assert (HP : 2 ^ 104 <= P < 2 ^ 106).
  { subst P. change (2 ^ 104) with (2 ^ 52 * 2 ^ 52).
    change (2 ^ 106) with (2 ^ 53 * 2 ^ 53).
    change (2 ^ 52) with 4503599627370496 in *.
    change (2 ^ 53) with 9007199254740992 in *. nia. }
  destruct (Zdigits2_bounds P ltac:(lia)) as (HD1 & Hlo & Hhi).
  assert (HD : Zdigits2 P = 105 \/ Zdigits2 P = 106).
  { assert (Zdigits2 P - 1 < 106)
      by (apply (Z.pow_lt_mono_r_iff 2); lia).
    assert (104 < Zdigits2 P)
      by (apply (Z.pow_lt_mono_r_iff 2); lia).
    lia. }
  rewrite binary_round_aux_split.
  assert (Hshr : exists n,
    Zdigits2 P = 53 + Zpos n /\
    shr_fexp PyFloat.prec PyFloat.emax P ex loc_Exact
    = (SpecFloat.iter_pos shr_1 n (shr_record_of_loc P loc_Exact),
       ex + Zpos n)).
  { unfold shr_fexp. rewrite fexp_normal by lia.
    destruct HD as [HD|HD]; rewrite HD.
    - exists 52%positive. split; [done|].
      by replace (105 + ex - 53 - ex) with 52 by lia.
    - exists 53%positive. split; [done|].
      by replace (106 + ex - 53 - ex) with 53 by lia. }
  destruct Hshr as (n & Hn & ->). cbn [fst snd].
  rewrite shr_m_iter by (cbn [shr_record_of_loc shr_m]; lia).
  cbn [shr_record_of_loc shr_m].
  assert (Hq : 2 ^ 52 <= P / 2 ^ Zpos n < 2 ^ 53).
  { assert (H2n : 0 < 2 ^ Zpos n) by (apply Z.pow_pos_nonneg; lia).
    replace (Zdigits2 P - 1) with (52 + Zpos n) in Hlo by lia.
    rewrite Hn in Hhi. rewrite Z.pow_add_r in Hlo, Hhi by lia.
    split.
    - apply Z.div_le_lower_bound; lia.
    - apply Z.div_lt_upper_bound; lia. }
  match goal with
  | |- context [round_nearest_even ?m ?l] =>
      pose proof (round_nearest_even_range m l) as Hround
  end.
  apply round_finish_finite; lia.
Qed.

End ProgressFloat.

Section ProgressFacts.

Context (uuid4 : nat -> UUID) (search_space : nat -> HParams).

Lemma of_int_length n :
  (Z.of_nat n < 2 ^ 53)%Z ->
  exists x, PyFloat.of_int (Z.of_nat n) = Ok x /\
            (n = 0 -> x = S754_zero false).
Proof.
  intros Hn. destruct n as [|n].
  - by exists (S754_zero false).
  - eexists. split; [apply of_int_exact; lia|done].
Qed.

(** X26.  In a state with a first rung, [1 <= max_trials < 2^53], fewer
    than [2^53] results in rung 0, [completed_trials - invalid_trials]
    below [2^53] in magnitude and [pending_trials] within
    [max_concurrent_trials] (or no limit set), [progress] raises nothing:
    it returns a float, and that float is [0.0] when rung 0 holds no
    result. *)
Theorem progress_returns (s : St) (rung0 : Rung) :
  rungs s !! 0 = Some rung0 ->
  (1 <= max_trials s < 2 ^ 53)%Z ->
  (Z.of_nat (length (metrics rung0)) < 2 ^ 53)%Z ->
  (Z.abs (completed_trials s - invalid_trials s) < 2 ^ 53)%Z ->
  (max_concurrent_trials s <= 0 \/
   pending_trials s <= max_concurrent_trials s)%Z ->
  exists x,
    progress s = Finished (Ok x) /\
    (metrics rung0 = [] -> x = S754_zero false).
Proof.
  intros Hrung0 Hmt Hlen Hvalid Hguard.
  unfold progress.
  replace ((0 <? max_concurrent_trials s)%Z
           && (max_concurrent_trials s <? pending_trials s)%Z) with false
    by (symmetry; apply andb_false_iff; rewrite !Z.ltb_ge; lia).
  unfold progress_value, rung_at, bind, get, from_option, lift, ret.
  rewrite Hrung0. unfold float_mul_int.
  rewrite of_int_exact by done.
  destruct (mul_1_2_finite (max_trials s) Hmt) as (m & e & ->).
  unfold int_div_float.
  destruct (of_int_length (length (metrics rung0)) Hlen) as (x & -> & Hx).
  cbn [PyFloat.truediv fst snd].
  destruct (Z.eqb_spec (Z.of_nat (length (metrics rung0))) (max_trials s))
    as [Hall|Hall].
  - unfold int_truediv.
    replace (max_trials s =? 0)%Z with false
      by (symmetry; apply Z.eqb_neq; lia).
    replace ((Z.abs (completed_trials s - invalid_trials s) <? 2 ^ 53)%Z
             && (Z.abs (max_trials s) <? 2 ^ 53)%Z) with true
      by (symmetry; apply andb_true_iff; rewrite !Z.ltb_lt; lia).
    destruct (_ =? 0)%Z; cbn [fst snd]; eexists; (split; [reflexivity|]);
      intros Hnil; rewrite Hnil in Hall; cbn in Hall; lia.
  - eexists. split; [reflexivity|].
    intros Hnil. rewrite Hx by (by rewrite Hnil). reflexivity.
Qed.

Lemma fresh_state_fields max_length max_trials0 num_rungs0 divisor0
    max_concurrent_trials0 s0 :
  new_ASHASearchMethodState max_length max_trials0 num_rungs0 divisor0
    max_concurrent_trials0 = Ok s0 ->
  pending_trials s0 = 0%Z /\ max_trials s0 = max_trials0 /\
  max_concurrent_trials s0 = max_concurrent_trials0.
Proof.
  unfold new_ASHASearchMethodState.
  destruct (_init_rungs _ _ _ _) as [[[]| |] ?]; intros [=].
  match goal with H : _ = s0 |- _ => rewrite <- H end. done.
Qed.

Lemma handle_same_setup ev s :
  same_setup s (handle uuid4 search_space ev s).2.
Proof.
  pose proof (run_same_setup uuid4 search_space [ev] s) as H.
  cbn [run] in H. by destruct (handle uuid4 search_space ev s).
Qed.

(** With a limit on the concurrency, [initial_operations] starts no more
    trials than the limit. *)
Lemma initial_operations_pending s :
  (0 < max_concurrent_trials s)%Z ->
  (pending_trials (initial_operations uuid4 search_space s).2
   <= pending_trials s
      + Z.max 0 (Z.min (max_concurrent_trials s) (max_trials s)))%Z.
Proof.
  intros Hc.
  assert (HN : _get_max_concurrent_trials s
               = (Ok (Z.min (max_concurrent_trials s) (max_trials s)), s)).
  { unfold _get_max_concurrent_trials. cbn [bind get].
    by rewrite (proj2 (Z.ltb_lt _ _) Hc). }
  unfold initial_operations, bind. rewrite HN.
  pose proof (initial_operations_loop_pending uuid4 search_space
                (Z.to_nat (Z.min (max_concurrent_trials s) (max_trials s)))
                [] s) as Hloop.
  unfold wp in Hloop. lia.
Qed.

(** X27.  The check of [progress] never fires: in a run that starts a
    freshly constructed state with [initial_operations] and does not call
    it again, [progress] does not raise its [RuntimeError] in the state
    the run has reached, whatever the events. *)
Theorem progress_no_runtime_error
    (max_length max_trials0 num_rungs0 divisor0 max_concurrent_trials0 : Z)
    (s0 : St) (evs : list SearcherEvent) :
  new_ASHASearchMethodState max_length max_trials0 num_rungs0 divisor0
    max_concurrent_trials0 = Ok s0 ->
  events_allowed event_not_initial uuid4 search_space evs
    (handle uuid4 search_space InitialOperations s0).2 = true ->
  progress (run uuid4 search_space (InitialOperations :: evs) s0).2
  <> RuntimeError.
Proof.
  intros Hnew Hall.
  destruct (fresh_state_fields _ _ _ _ _ _ Hnew) as (Hp0 & _ & _).
  pose proof (run_same_setup uuid4 search_space
                (InitialOperations :: evs) s0)
    as (_ & _ & _ & _ & Hmc & _).
  unfold progress.
  destruct (_ && _) eqn:Hguard; [|done]. exfalso.
  apply andb_prop in Hguard as [Hc%Z.ltb_lt Hp%Z.ltb_lt].
  rewrite Hmc in Hc, Hp.
  pose proof (initial_operations_pending s0 Hc) as Hs1.
  cbn [run handle] in *.
  destruct (initial_operations uuid4 search_space s0) as [o s1].
  cbn [fst snd] in *.
  pose proof (run_pending uuid4 search_space evs s1 Hall) as Hrun.
  destruct (run uuid4 search_space evs s1). cbn [snd] in *. lia.
Qed.

(** Without trials to run, no handler raises [pending_trials]. *)
Lemma handle_pending_no_trials ev s :
  (0 < max_concurrent_trials s)%Z -> (max_trials s <= 0)%Z ->
  (pending_trials (handle uuid4 search_space ev s).2 <= pending_trials s)%Z.
Proof.
  intros Hc Ht.
  assert (Hev : ev = InitialOperations \/ event_not_initial ev s = true)
    by (destruct ev; auto).
  destruct Hev as [->|Hev].
  - pose proof (initial_operations_pending s Hc). cbn [handle]. lia.
  - apply (handle_pending uuid4 search_space ev s Hev).
Qed.

Lemma run_pending_no_trials evs s :
  (0 < max_concurrent_trials s)%Z -> (max_trials s <= 0)%Z ->
  (pending_trials (run uuid4 search_space evs s).2 <= pending_trials s)%Z.
Proof.
  revert s. induction evs as [|ev evs IH]; intros s Hc Ht;
    cbn [run]; [cbn; lia|].
  pose proof (handle_pending_no_trials ev s Hc Ht) as Hs1.
  pose proof (handle_same_setup ev s) as (_ & Hmt & _ & _ & Hmc & _).
  destruct (handle uuid4 search_space ev s) as [o s1]. cbn [fst snd] in *.
  specialize (IH s1 ltac:(lia) ltac:(lia)).
  destruct (run uuid4 search_space evs s1). cbn [snd] in *. lia.
Qed.

(** X28.  [max_trials = 0] is accepted by the constructor, and [progress]
    then divides by [1.2 * 0]: in every state that a run reaches from the
    freshly constructed state it raises [ZeroDivisionError] (rung 0 holding
    fewer than [2^53] results). *)
Theorem progress_zero_max_trials
    (max_length num_rungs0 divisor0 max_concurrent_trials0 : Z)
    (s0 : St) (evs : list SearcherEvent) :
  new_ASHASearchMethodState max_length 0 num_rungs0 divisor0
    max_concurrent_trials0 = Ok s0 ->
  (1 <= num_rungs0)%Z ->
  (forall rung0,
     rungs (run uuid4 search_space evs s0).2 !! 0 = Some rung0 ->
     (Z.of_nat (length (metrics rung0)) < 2 ^ 53)%Z) ->
  progress (run uuid4 search_space evs s0).2
  = Finished (Raise ZeroDivisionError).
Proof.
  intros Hnew Hn Hlen.
  destruct (fresh_state_fields _ _ _ _ _ _ Hnew) as (Hp0 & Hmt0 & _).
  destruct (new_state_fresh _ _ _ _ _ _ Hnew) as (_ & Hlen0 & _).
  pose proof (run_same_setup uuid4 search_space evs s0)
    as (_ & Hmt & _ & _ & Hmc & _ & Hunits & _).
  set (s := (run uuid4 search_space evs s0).2) in *.
  assert (Hrung0 : exists rung0, rungs s !! 0 = Some rung0).
  { apply lookup_lt_is_Some.
    apply (f_equal length) in Hunits. rewrite !length_map in Hunits.
    lia. }
  destruct Hrung0 as (rung0 & Hrung0).
  unfold progress.
  replace ((0 <? max_concurrent_trials s)%Z
           && (max_concurrent_trials s <? pending_trials s)%Z) with false.
  2: { symmetry. apply andb_false_iff. rewrite !Z.ltb_ge.
       destruct (Z.le_gt_cases (max_concurrent_trials s) 0) as [|Hc];
         [by left|right].
       rewrite Hmc in Hc.
       pose proof (run_pending_no_trials evs s0 Hc ltac:(lia)) as Hrun.
       fold s in Hrun. lia. }
  unfold progress_value, rung_at, bind, get, from_option, lift, ret.
  rewrite Hrung0, Hmt, Hmt0. unfold float_mul_int, int_div_float.
  destruct (of_int_length (length (metrics rung0)) (Hlen rung0 Hrung0))
    as (x & Hx & _).
  change (PyFloat.of_int 0) with (Ok (S754_zero false) : Outcome _).
  cbn [SFmul float_1_2 xorb]. rewrite Hx. reflexivity.
Qed.

End ProgressFacts.

Lemma progress_no_runtime_error_witness :
  progress
    (run example_uuid4 example_search_space
       (InitialOperations ::
        [TrialCreated 100; ValidationCompleted 100 (VFloat 5) 4;
         ValidationCompleted 101 (VFloat 3) 4;
         TrialExitedEarly 102 (VExitedReason INVALID_HP)])
       example_state_limited).2
  <> RuntimeError.
Proof.
  apply (progress_no_runtime_error example_uuid4 example_search_space
           8 3 2 2 2 example_state_limited);
    vm_compute; reflexivity.
Defined.

Lemma progress_returns_witness :
  exists x,
    progress example_state = Finished (Ok x) /\
    (metrics (new_rung 4 0) = [] -> x = S754_zero false).
Proof.
  apply (progress_returns example_state (new_rung 4 0));
    [reflexivity|cbn; lia..].
Defined.

Lemma progress_zero_max_trials_witness :
  progress
    (run example_uuid4 example_search_space
       [InitialOperations; ValidationCompleted 100 (VFloat 5) 4]
       example_state_no_trials).2
  = Finished (Raise ZeroDivisionError).
Proof.
  apply (progress_zero_max_trials example_uuid4 example_search_space
           8 2 2 0 example_state_no_trials);
    [vm_compute; reflexivity|lia|].
  intros rung0 Hrung0. vm_compute in Hrung0. injection Hrung0 as <-.
  cbn. lia.
Defined.
(** ** The trials created *)

Section Created.

Context (uuid4 : nat -> UUID) (search_space : nat -> HParams).

Lemma creates_registered_same ops s s' :
  trial_rungs s' = trial_rungs s ->
  creates_registered ops s -> creates_registered ops s'.
Proof. intros Ht Hs id hp Hin. rewrite Ht. by apply (Hs id hp). Qed.

Lemma creates_registered_none ops s :
  (forall id hp, Create id hp ∉ ops) -> creates_registered ops s.
Proof. intros Hno id hp Hin. by destruct (Hno id hp). Qed.

(** One more trial is created and registered. *)
Lemma creates_registered_new ops id hp len s :
  creates_registered ops s ->
  creates_registered (ops ++ [Create id hp; ValidateAfter id len])
    (set_trial_rungs (<[id := 0]>) s).
Proof.
  intros Hs id' hp' Hin. st_simpl.
  destruct (decide (id' = id)) as [->|Hne].
  - apply lookup_insert_eq.
  - rewrite lookup_insert_ne by done.
    apply elem_of_app in Hin as [Hin|Hin]; [by apply (Hs id' hp')|].
    apply elem_of_cons in Hin as [[= -> _]|Hin]; [done|].
    by apply list_elem_of_singleton in Hin.
Qed.

Lemma creates_registered_closes ops new s s' :
  trial_rungs s' = trial_rungs s ->
  creates_registered ops s ->
  creates_registered (ops ++ map Close new) s'.
Proof.
  intros Ht Hs id hp Hin. rewrite Ht.
  apply elem_of_app in Hin as [Hin|Hin]; [by apply (Hs id hp)|].
  exfalso. induction new as [|c new IH]; cbn in Hin.
  - by apply elem_of_nil in Hin.
  - apply elem_of_cons in Hin as [[=]|Hin]. by apply IH.
Qed.

Lemma promote_async_tail_created ops added s :
  creates_registered ops s ->
  wp (promote_async_tail uuid4 search_space ops added) created_registered s.
Proof.
  intros Hs.
  assert (Hclose : forall ops' s1,
    creates_registered ops' s1 ->
    wp _get_close_rungs_ops
      (wp_cont (fun close_ops => ret (ops' ++ close_ops))
         created_registered) s1).
  { intros ops' s1 Hs1. unfold wp, _get_close_rungs_ops. cbn [bind get].
    destruct (close_rungs_loop_spec (rungs s1) [] s1) as (new & -> & _).
    cbn [fst snd wp_cont app]. wp_steps. intros ? [= <-].
    by apply (creates_registered_closes ops' new s1). }
  assert (Hcreate : forall len,
    creates_registered
      ((ops ++ [Create (uuid4 (draws s)) (search_space (draws s))]) ++
       [ValidateAfter (uuid4 (draws s)) len])
      (set_trial_rungs (<[uuid4 (draws s) := 0]>)
         (set_draws S (set_pending_trials (fun n => n + 1)%Z s)))).
  { intros len. rewrite <- app_assoc. cbn [app].
    apply creates_registered_new.
    by apply (creates_registered_same ops s). }
  unfold promote_async_tail. wp_steps; cbn [fst snd];
    try (by intros ? [=]).
  all: try (by apply Hclose; first [apply Hcreate | done]).
  all: intros ? [= <-]; first [by apply Hcreate | done].
Qed.

Lemma promote_loop_created rec rung_idx promotions ops added s :
  (forall pid s', wp (rec pid float_max) created_registered s') ->
  (forall id hp, Create id hp ∉ ops) ->
  wp (promote_loop rec rung_idx promotions ops added)
    (fun o s' =>
       match o with
       | Ok (Completed ops' _) => forall id hp, Create id hp ∉ ops'
       | Ok (Returned result) => creates_registered result s'
       | _ => True
       end) s.
Proof.
  intros Hrec. revert ops added s.
  induction promotions as [|pid promotions IH]; intros ops added s Hops;
    cbn [promote_loop]; wp_steps; try done.
  - apply IH. intros id hp [Hin|Hin]%elem_of_app; [by apply (Hops id hp)|].
    by apply list_elem_of_singleton in Hin.
  - eapply wp_mono; [apply Hrec|].
    intros [?| |] ? Hres; cbn [wp_cont]; wp_steps; try done.
    by apply Hres.
Qed.

Lemma promote_async_body_created rec request_id x s :
  (forall pid s', wp (rec pid float_max) created_registered s') ->
  wp (promote_async_body uuid4 search_space rec request_id x)
    created_registered s.
Proof.
  intros Hrec. unfold promote_async_body. wp_steps;
    try (by intros ? [=]).
  - apply promote_async_tail_created, creates_registered_none.
    intros id hp Hin. by apply list_elem_of_singleton in Hin.
  - apply promote_async_tail_created, creates_registered_none.
    intros id hp Hin. by apply elem_of_nil in Hin.
  - match goal with
    | |- context [promotions_async ?a ?b ?c ?d] =>
        destruct (promotions_async a b c d) as [[ids| |] self']
    end; cbn [fst snd] in *; cbn [wp_cont]; try (by intros ? [=]).
    wp_step. eapply wp_mono.
    + apply (promote_loop_created rec); [done|].
      intros id hp Hin. by apply elem_of_nil in Hin.
    + intros [[]| |] s' Hres; cbn [wp_cont]; wp_steps;
        try (by intros ? [=]).
      * by apply promote_async_tail_created, creates_registered_none.
      * by intros ? [= <-].
Qed.

Lemma promote_async_fuel_created fuel request_id x s :
  wp (promote_async_fuel uuid4 search_space fuel request_id x)
    created_registered s.
Proof.
  revert request_id x s. induction fuel as [|fuel IH]; intros request_id x s;
    cbn [promote_async_fuel]; apply promote_async_body_created.
  - by intros pid s' ? [=].
  - intros pid s'. by apply IH.
Qed.

Lemma initial_operations_loop_created k ops s :
  creates_registered ops s ->
  wp (initial_operations_loop uuid4 search_space k ops)
    created_registered s.
Proof.
  revert ops s. induction k as [|k IH]; intros ops s Hs;
    cbn [initial_operations_loop]; wp_steps; try (by intros ? [=]).
  - by intros ? [= <-].
  - apply IH. cbn [fst snd]. rewrite <- app_assoc. cbn [app].
    apply (creates_registered_same _
             (set_trial_rungs (<[uuid4 (draws s) := 0]>) s)); [done|].
    by apply creates_registered_new.
Qed.

(** X29.  A trial is registered when it is created: every trial for which
    a handler returns a [Create] operation is in [trial_rungs], at rung 0,
    when the handler has returned. *)
Theorem created_trials_registered (ev : SearcherEvent) (s s' : St)
    (ops : list Operation) (request_id : UUID) (hparams : HParams) :
  handle uuid4 search_space ev s = (Ok ops, s') ->
  Create request_id hparams ∈ ops ->
  trial_rungs s' !! request_id = Some 0.
Proof.
  intros Hrun Hin.
  assert (Hwp : wp (handle uuid4 search_space ev) created_registered s).
  { destruct ev as [|id|id v len|id|id v]; cbn [handle].
    - unfold initial_operations, _get_max_concurrent_trials.
      wp_steps; try (by intros ? [=]).
      all: try (apply initial_operations_loop_created,
                  creates_registered_none;
                intros ? ? ?%elem_of_nil; done).
      destruct (int_pow_to_int _ _); cbn [wp_cont]; wp_steps;
        try (by intros ? [=]).
      apply initial_operations_loop_created, creates_registered_none.
      by intros ? ? ?%elem_of_nil.
    - unfold on_trial_created. wp_steps; try (by intros ? [=]).
      intros ? [= <-]. by intros ? ? ?%elem_of_nil.
    - unfold on_validation_completed, _promote_async.
      destruct v; wp_steps; try (by intros ? [=]).
      all: apply promote_async_fuel_created.
    - unfold on_trial_closed. wp_steps; intros ? [= <-] ? ? Hop.
      + by apply list_elem_of_singleton in Hop.
      + by apply elem_of_nil in Hop.
    - unfold on_trial_exited_early, _promote_async.
      destruct (is_INVALID_HP v) eqn:Hreason.
      + wp_steps; try (by intros ? [=]).
        eapply wp_of_run.
        * apply purge_loop_ok. intros i Hi. st_simpl. rewrite length_alter.
          apply elem_of_seq in Hi.
          match goal with H : rungs s !! _ = Some _ |- _ =>
            apply lookup_lt_Some in H end. lia.
        * cbn [wp_cont]. wp_steps; try (by intros ? [=]).
          intros ? [= <-]. cbn [fst snd app]. intros id' hp' Hop. st_simpl.
          apply elem_of_cons in Hop as [[=]|Hop].
          apply elem_of_cons in Hop as [[= -> _]|Hop];
            [apply lookup_insert_eq|].
          by apply list_elem_of_singleton in Hop.
      + wp_steps. apply promote_async_fuel_created. }
  unfold wp in Hwp. rewrite Hrun in Hwp. cbn [fst snd] in Hwp.
  by apply (Hwp ops eq_refl request_id hparams).
Qed.

End Created.

Lemma created_trials_registered_witness :
  trial_rungs
    (handle example_uuid4 example_search_space
       (TrialExitedEarly 101 (VExitedReason INVALID_HP))
       example_state_running).2 !! 103%N
  = Some 0.
Proof.
  apply (created_trials_registered example_uuid4 example_search_space
           (TrialExitedEarly 101 (VExitedReason INVALID_HP))
           example_state_running
           (handle example_uuid4 example_search_space
              (TrialExitedEarly 101 (VExitedReason INVALID_HP))
              example_state_running).2
           [Close 101; Create 103 [("batch_size"%string, 3%Z)];
            ValidateAfter 103 4]
           103%N [("batch_size"%string, 3%Z)]).
  - vm_compute. reflexivity.
  - apply list_elem_of_further, list_elem_of_here.
Defined.
